(** * pyracf: the frame filter ([src/pyracf/frame_filter.py])

    A shallow embedding of [FrameFilter._frameFilter] and [FrameFilter.match]
    and of the part of the tabular engine they use, followed by the
    properties of the two routines.

    Tables are lists of rows in table order.  Every row carries its index
    label (one string per index level) and its cell values (one string per
    column); cells and labels are strings, as they are in profile tables.
    Python exceptions are values of [exn]; a routine returns, in [outcome], [Ok v] or
    [Raise e]. *)

From Stdlib Require Import String Ascii List Bool Arith ZArith Lia Permutation.
Import ListNotations.
Open Scope string_scope.
Open Scope list_scope.

(** ** Python strings *)

Module Py.

(** [s.find(c)] for a one-character needle: the first position of [c], or -1. *)
Fixpoint find_from (c : ascii) (s : string) (i : Z) : Z :=
  match s with
  | EmptyString => (-1)%Z
  | String d s' => if Ascii.eqb d c then i else find_from c s' (i + 1)%Z
  end.

Definition find (c : ascii) (s : string) : Z := find_from c s 0%Z.

(** [s[0:n]] for [n >= 0]. *)
Definition slice_to (s : string) (n : Z) : string := substring 0 (Z.to_nat n) s.

(** [s[0] == c] and [s[-1] == c], on a non-empty string. *)
Definition first_is (c : ascii) (s : string) : bool :=
  match String.get 0 s with Some d => Ascii.eqb d c | None => false end.

Definition last_is (c : ascii) (s : string) : bool :=
  match String.get (String.length s - 1) s with Some d => Ascii.eqb d c | None => false end.

(** [s[1:-1]]. *)
Definition inner (s : string) : string := substring 1 (String.length s - 2) s.

(** [sub in s]. *)
Fixpoint contains (sub s : string) : bool :=
  String.prefix sub s ||
  match s with
  | EmptyString => false
  | String _ s' => contains sub s'
  end.

Definition join (sep : string) (l : list string) : string := String.concat sep l.

Fixpoint mem (x : string) (l : list string) : bool :=
  match l with
  | [] => false
  | y :: l' => String.eqb y x || mem x l'
  end.

Definition dquote : ascii := ascii_of_nat 34.
Definition squote : ascii := "'"%char.
Definition backslash : ascii := "\"%char.

Definition hex_digit (n : nat) : ascii :=
  if (n <? 10)%nat then ascii_of_nat (48 + n) else ascii_of_nat (87 + n).

(** One character of [repr(s)], inside the quote [q]. *)
Definition repr_char (q : ascii) (c : ascii) : string :=
  let n := nat_of_ascii c in
  if Ascii.eqb c q || Ascii.eqb c backslash then String backslash (String c EmptyString)
  else if (n =? 9)%nat then "\t"
  else if (n =? 10)%nat then "\n"
  else if (n =? 13)%nat then "\r"
  else if ((n <? 32) || (n =? 127))%nat then
    String backslash (String "x"%char (String (hex_digit (n / 16)) (String (hex_digit (n mod 16)) EmptyString)))
  else String c EmptyString.

Fixpoint repr_body (q : ascii) (s : string) : string :=
  match s with
  | EmptyString => EmptyString
  | String c s' => repr_char q c ++ repr_body q s'
  end.

Definition has_char (c : ascii) (s : string) : bool := negb (find c s =? -1)%Z.

(** [repr(s)] of a [str]: single quotes, unless the text holds a single
    quote and no double quote.  Bytes above 127 are left as they are. *)
Definition repr (s : string) : string :=
  let q := if has_char squote s && negb (has_char dquote s) then dquote else squote in
  String q (repr_body q s ++ String q EmptyString).

(** [str(t)] of a tuple of [str] with at least two members. *)
Definition tuple_str (t : list string) : string :=
  "(" ++ join ", " (map repr t) ++ ")".

Definition list_str (l : list string) : string :=
  "[" ++ join ", " (map repr l) ++ "]".

End Py.

(** ** Exceptions and results *)

Inductive exn : Type :=
| TypeError (msg : string)
| ValueError (msg : string)
| IndexError
| KeyError (key : string)
| AttributeError
| UnboundLocalError.

Inductive outcome (A : Type) : Type :=
| Ok (a : A)
| Raise (e : exn).

Arguments Ok {A} a.
Arguments Raise {A} e.

Definition bind {A B : Type} (r : outcome A) (k : A -> outcome B) : outcome B :=
  match r with
  | Ok a => k a
  | Raise e => Raise e
  end.

Notation "x <- r ;; k" := (bind r (fun x => k))
  (at level 61, r at next level, right associativity).

(** ** The tabular engine *)

Record Row : Type := mkRow {
  label : list string;   (* the index label, one value per index level *)
  cells : list string    (* the cell values, in column order *)
}.

(** What [df._fieldPrefix] reads.  The frame class sets the attribute;
    [hasattr] tells a frame without it from one where it holds [None]. *)
Inductive attribute : Type :=
| Missing             (* [hasattr(df,'_fieldPrefix')] is false *)
| PyNone              (* the attribute is there and holds [None] *)
| Text (p : string).  (* the attribute holds the field prefix *)

Record DataFrame : Type := mkFrame {
  index_names : list string;   (* df.index.names *)
  columns : list string;       (* df.columns *)
  rows : list Row;
  _fieldPrefix : attribute
}.

(** A frame of the same schema holding the rows [rs]. *)
Definition with_rows (df : DataFrame) (rs : list Row) : DataFrame :=
  mkFrame (index_names df) (columns df) rs (_fieldPrefix df).

(** Boolean-mask row selection. *)
Fixpoint select_mask {A : Type} (mask : list bool) (l : list A) : list A :=
  match mask, l with
  | b :: mask', x :: l' => if b then x :: select_mask mask' l' else select_mask mask' l'
  | _, _ => []
  end.

Fixpoint and_mask (a b : list bool) : list bool :=
  match a, b with
  | x :: a', y :: b' => (x && y) :: and_mask a' b'
  | _, _ => []
  end.

(** [df.loc[mask]] and [df[mask]] for a boolean mask. *)
Definition loc_mask (df : DataFrame) (mask : list bool) : DataFrame :=
  with_rows df (select_mask mask (rows df)).

(** [df.head(n)]. *)
Definition head (n : nat) (df : DataFrame) : DataFrame :=
  with_rows df (firstn n (rows df)).

(** [df.empty]: an axis of length 0. *)
Definition empty (df : DataFrame) : bool :=
  (List.length (rows df) =? 0)%nat || (List.length (columns df) =? 0)%nat.

(** [df.index.get_level_values(s)]. *)
Definition get_level_values (df : DataFrame) (s : nat) : outcome (list string) :=
  if (s <? List.length (index_names df))%nat
  then Ok (map (fun r => nth s (label r) EmptyString) (rows df))
  else Raise IndexError.

Fixpoint position (x : string) (l : list string) : option nat :=
  match l with
  | [] => None
  | y :: l' => if String.eqb y x then Some 0 else option_map S (position x l')
  end.

(** [df[column]]. *)
Definition column (df : DataFrame) (name : string) : outcome (list string) :=
  match position name (columns df) with
  | Some i => Ok (map (fun r => nth i (cells r) EmptyString) (rows df))
  | None => Raise (KeyError name)
  end.

(** The text [filter(like=...)] searches: the label itself on a one-level
    index, [str] of the tuple on a multi-level index. *)
Definition label_text (lab : list string) : string :=
  match lab with
  | [s] => s
  | _ => Py.tuple_str lab
  end.

(** [df.filter(like=like, axis=0)]: the rows whose label text holds [like]. *)
Definition filter_like (df : DataFrame) (like : string) : DataFrame :=
  with_rows df (filter (fun r => Py.contains like (label_text (label r))) (rows df)).

Fixpoint strs_eqb (a b : list string) : bool :=
  match a, b with
  | [], [] => true
  | x :: a', y :: b' => String.eqb x y && strs_eqb a' b'
  | _, _ => false
  end.

Definition label_eqb (a b : list string) : bool := strs_eqb a b.

(** [df.index.isin(other.index)]. *)
Definition index_isin (df other : DataFrame) : list bool :=
  map (fun r => existsb (fun r' => label_eqb (label r') (label r)) (rows other)) (rows df).

(** [df.loc[[key]]] on a multi-level index: the rows whose leading key is [key]. *)
Definition loc_level0 (df : DataFrame) (key : string) : DataFrame :=
  with_rows df (filter (fun r => String.eqb (nth 0 (label r) EmptyString) key) (rows df)).

(** [pd.concat(frames)] of frames of one schema, [dflt] giving the schema:
    the rows of the frames in turn.  pandas builds the frame anew and hands
    over none of the attributes a frame class adds; [fresh] is what
    [_fieldPrefix] reads on such a frame. *)
Definition concat (fresh : attribute) (dflt : DataFrame) (frames : list DataFrame)
    : DataFrame :=
  mkFrame (index_names (List.hd dflt frames)) (columns (List.hd dflt frames))
          (flat_map rows frames) fresh.

Definition cells_eqb (a b : list string) : bool := strs_eqb a b.

(** [drop_duplicates]: the first row of each distinct tuple of cell values;
    the index takes no part in the comparison. *)
Fixpoint dedup (seen : list (list string)) (l : list Row) : list Row :=
  match l with
  | [] => []
  | r :: l' =>
      if existsb (cells_eqb (cells r)) seen then dedup seen l'
      else r :: dedup (cells r :: seen) l'
  end.

Definition drop_duplicates (df : DataFrame) : DataFrame :=
  with_rows df (dedup [] (rows df)).

(** ** Selection values and collaborators *)

(** A selection value: [None], a [str], a compiled [re.Pattern] (kept as its
    source text) or a [list] of [str]. *)
Inductive sel : Type :=
| SNone
| SStr (s : string)
| SPattern (p : string)
| SList (l : list string).

Definition sel_eqb (a b : sel) : bool :=
  match a, b with
  | SNone, SNone => true
  | SStr x, SStr y => String.eqb x y
  | SPattern x, SPattern y => String.eqb x y
  | SList x, SList y => strs_eqb x y
  | _, _ => false
  end.

(** [v in t] for a tuple [t]. *)
Definition sel_in (v : sel) (t : list sel) : bool := existsb (sel_eqb v) t.

Definition isPattern (v : sel) : bool :=
  match v with SPattern _ => true | _ => false end.

(** [str(v)], as an f-string formats it. *)
Definition py_str (v : sel) : string :=
  match v with
  | SNone => "None"
  | SStr s => s
  | SPattern p => "re.compile(" ++ Py.repr p ++ ")"
  | SList l => Py.list_str l
  end.

(** Modelled from the spec: [utils.listMe] is not part of the source file;
    the spec gives it as wrapping a scalar in a one-element sequence and
    passing a sequence through. *)
Definition listMe (v : sel) : list sel :=
  match v with
  | SList l => map SStr l
  | _ => [v]
  end.

(** What the filter takes from outside the source file: the pattern
    translator, the regular-expression engine behind [re.match],
    [str.match] and [str.contains], the list formatter of the error
    message, the two label lookups of [match] with a class argument, and
    what the frame class, which sets [_fieldPrefix], lets the attribute
    read on a frame that [pd.concat] has built. *)
Class Collaborators : Type := {
  generic2regex : string -> string;
  re_match : string -> string -> bool;    (* [re.match(pattern, text) != None] *)
  re_search : string -> string -> bool;   (* [re.search(pattern, text) != None] *)
  readableList : list string -> string;
  find : DataFrame -> string -> outcome DataFrame;  (* [df.find(label)] *)
  loc_key : DataFrame -> sel -> outcome DataFrame;  (* [df.loc[key]], [key] not a [str] *)
  concat_fieldPrefix : attribute          (* [pd.concat(frames)._fieldPrefix] *)
}.

Fixpoint fold_result {S A : Type} (f : S -> A -> outcome S) (s : S) (l : list A) : outcome S :=
  match l with
  | [] => Ok s
  | x :: l' => s' <- f s x ;; fold_result f s' l'
  end.

Fixpoint assoc {V : Type} (k : string) (d : list (string * V)) : option V :=
  match d with
  | [] => None
  | (k', v) :: d' => if String.eqb k' k then Some v else assoc k d'
  end.

(** ** The source routines *)

Definition msg_match_only : string :=
  "match keyword only applies to DS (dataset) and GR (general resource) ProfileFrames".
Definition msg_ds_arity : string :=
  "match keyword requires one parameter containing the data set name".
Definition msg_gr_arity : string :=
  "match keyword requires an optional resclass and a parameter containing the resource name".
Definition msg_unqualified (sel : string) : string :=
  "fully qualified data set name expected, with dots between qualifiers, not " ++ sel.
Definition msg_not_text (v : string) : string :=
  "expected string or bytes-like object, got '" ++ v ++ "'".
Definition msg_unpack (got : string) : string :=
  "not enough values to unpack (expected at least 2, got " ++ got ++ ")".
Definition msg_not_subscriptable : string := "'NoneType' object is not subscriptable".
Definition msg_none_plus_str : string :=
  "unsupported operand type(s) for +: 'NoneType' and 'str'".

Section FrameFilter.

Context {ext : Collaborators}.

(** [[re.match(x,sel)!=None for x in names.apply(generic2regex)]] *)
Definition name_mask (names : list string) (sel : string) : list bool :=
  map (fun x => re_match (generic2regex x) sel) names.

(** *** [match], data set frames: the body of the loop over the names *)

(** The qualifier prefix [sel[0:sel.find('.')+1]]. *)
Definition qualifier (sel : string) : string :=
  Py.slice_to sel (Py.find "."%char sel + 1)%Z.

(** [result.head(1) if len(result.index.names)==1 else
    result.loc[[result.index[0][0]]]] *)
Definition first_profile (result : DataFrame) : outcome DataFrame :=
  if (List.length (index_names result) =? 1)%nat then Ok (head 1 result)
  else match rows result with
       | [] => Raise IndexError
       | r :: _ =>
           match label r with
           | [] => Raise IndexError
           | key :: _ => Ok (loc_level0 result key)
           end
       end.

Definition ds_name (df : DataFrame) (prefix : string)
    (frames : list DataFrame) (v : sel) : outcome (list DataFrame) :=
  match v with
  | SStr sel =>
      let qualp := qualifier sel in
      if negb (String.eqb qualp EmptyString) then
        let result := filter_like df qualp in
        if negb (empty result) then
          names <- column result (prefix ++ "NAME") ;;
          let result := loc_mask result (name_mask names sel) in
          picked <- first_profile result ;;
          Ok (frames ++ [picked])
        else Ok frames
      else Raise (ValueError (msg_unqualified sel))
  | _ => Raise AttributeError
  end.

(** *** [match], general resource frames *)

(** [(i0,i1,*rest) = label]: a tuple of a multi-level index gives its
    first two keys, the text of a one-level index its first two characters. *)
Definition unpack2 (lab : list string) : outcome (string * string) :=
  match lab with
  | [String a (String b _)] => Ok (String a EmptyString, String b EmptyString)
  | [String _ EmptyString] => Raise (ValueError (msg_unpack "1"))
  | i0 :: i1 :: _ => Ok (i0, i1)
  | _ => Raise (ValueError (msg_unpack "0"))
  end.

(** The walk over [result.index].  [prevResource] is bound by the first
    change of class; it is [None] until then. *)
Fixpoint walk (labels : list (list string)) (prevClass : string)
    (prevResource : option string) : outcome (list bool * option string) :=
  match labels with
  | [] => Ok ([], prevResource)
  | lab :: rest =>
      i <- unpack2 lab ;;
      let changed := negb (String.eqb (fst i) prevClass) in
      let prevClass := if changed then fst i else prevClass in
      let prevResource := if changed then Some (snd i) else prevResource in
      match prevResource with
      | None => Raise UnboundLocalError
      | Some res =>
          w <- walk rest prevClass prevResource ;;
          Ok ((String.eqb (fst i) prevClass && String.eqb (snd i) res) :: fst w, snd w)
      end
  end.

(** The body of the loop over the names.  The state holds [frames] and
    [prevResource], which the function keeps from one name to the next. *)
Definition gr_name (start : DataFrame) (prefix : string)
    (st : list DataFrame * option string) (v : sel)
    : outcome (list DataFrame * option string) :=
  names <- column start (prefix ++ "NAME") ;;
  match v with
  | SStr sel =>
      let result := loc_mask start (name_mask names sel) in
      w <- walk (map label (rows result)) EmptyString (snd st) ;;
      Ok (fst st ++ [loc_mask result (fst w)], snd w)
  | SNone => Raise (TypeError (msg_not_text "NoneType"))
  | SPattern _ => Raise (TypeError (msg_not_text "re.Pattern"))
  | SList _ => Raise (TypeError (msg_not_text "list"))
  end.

(** [start] and [sel] of the general resource branch. *)
Definition gr_start (df : DataFrame) (selection : list sel) : outcome (DataFrame * sel) :=
  match selection with
  | [names] => Ok (df, names)
  | [cls; names] =>
      start <- match cls with
               | SStr c => find df c
               | _ => loc_key df cls
               end ;;
      Ok (start, names)
  | _ => Raise (TypeError msg_gr_arity)
  end.

(** [frames] when the frame type has been dispatched: [None] stands for
    [frames = None]. *)
Definition match_frames (df : DataFrame) (prefix : string) (selection : list sel)
    : outcome (option (list DataFrame)) :=
  let frameType := substring 0 2 prefix in
  if String.eqb frameType "DS" then
    match selection with
    | [names] =>
        frames <- fold_result (ds_name df prefix) [] (listMe names) ;;
        Ok (Some frames)
    | _ => Raise (TypeError msg_ds_arity)
    end
  else if String.eqb frameType "GR" then
    s <- gr_start df selection ;;
    if negb (empty (fst s)) then
      st <- fold_result (gr_name (fst s) prefix) ([], None) (listMe (snd s)) ;;
      Ok (Some (fst st))
    else Ok (Some [])
  else Ok None.

(** [FrameFilter.match(df, *selection)] *)
Definition match_ (df : DataFrame) (selection : list sel) : outcome DataFrame :=
  match _fieldPrefix df with
  | Text prefix =>
      frames <- match_frames df prefix selection ;;
      match frames with
      | Some [] => Ok (head 0 df)
      | Some [f] => Ok f
      | Some fs => Ok (drop_duplicates (concat concat_fieldPrefix df fs))
      | None => Raise (TypeError msg_match_only)
      end
  | PyNone => Raise (TypeError msg_not_subscriptable)
  | Missing => Raise (TypeError msg_match_only)
  end.

End FrameFilter.

Definition msg_no_len : string := "object of type 'NoneType' has no len()".
Definition msg_bad_pattern : string := "first argument must be string or compiled pattern".
Definition msg_unhashable : string := "unhashable type: 'list'".

Section Filter.

Context {ext : Collaborators}.

(** [skipSelect] *)
Definition skipSelect (regexPattern : bool) : list sel :=
  if regexPattern then [SNone; SStr "**"; SStr ".*"] else [SNone; SStr "**"].

(** [len(sel)>2 and sel[0]=='*' and sel[-1]=='*' and sel[1:-1].find('*')==-1] *)
Definition is_contains (sel : string) : bool :=
  (2 <? String.length sel)%nat && Py.first_is "*"%char sel && Py.last_is "*"%char sel
  && (Py.find "*"%char (Py.inner sel) =? -1)%Z.

(** [sel=='*' or (sel.find('*')==-1 and sel.find('%')==-1)] *)
Definition is_literal (sel : string) : bool :=
  String.eqb sel "*"
  || ((Py.find "*"%char sel =? -1)%Z && (Py.find "%"%char sel =? -1)%Z).

(** [values.str.match(sel)]: the pattern is compiled first, which fails for
    a value that is not a pattern. *)
Definition str_match (values : list string) (v : sel) : outcome (list bool) :=
  match v with
  | SStr p | SPattern p => Ok (map (re_match p) values)
  | SList _ => Raise (TypeError msg_unhashable)
  | SNone => Raise (TypeError msg_bad_pattern)
  end.

(** The mask of a [str] criterion that is neither skipped nor a pattern
    object, over the values of one field. *)
Definition generic_mask (values : list string) (sel : string) : list bool :=
  if is_contains sel then map (re_search (Py.inner sel)) values
  else if is_literal sel then map (fun x => String.eqb x sel) values
  else map (re_match (generic2regex sel)) values.

(** [result] of an index-level criterion (lines 39-46). *)
Definition index_result (df : DataFrame) (s : nat) (regexPattern : bool) (v : sel)
    : outcome (list bool) :=
  if regexPattern || isPattern v then
    values <- get_level_values df s ;; str_match values v
  else
    match v with
    | SStr sel => values <- get_level_values df s ;; Ok (generic_mask values sel)
    | SList _ => Raise AttributeError
    | _ => Raise (TypeError msg_no_len)
    end.

(** [result] of a column criterion (lines 81-100). *)
Definition column_result (df : DataFrame) (col : string) (regexPattern : bool) (v : sel)
    : outcome (list bool) :=
  if regexPattern || isPattern v then
    values <- column df col ;; str_match values v
  else
    match v with
    | SStr sel =>
        values <- column df col ;;
        Ok (if String.eqb sel "**" then map (fun x => negb (String.eqb x EmptyString)) values
            else generic_mask values sel)
    | SList l =>
        let generic :=
          existsb (fun s => (0 <=? Py.find "*"%char s)%Z || (0 <=? Py.find "%"%char s)%Z) l in
        values <- column df col ;;
        Ok (if generic then map (re_match (Py.join "|" (map generic2regex l))) values
            else map (fun x => Py.mem x l) values)
    | _ => values <- column df col ;; Ok (map (fun _ => false) values)
    end.

(** The local variables of [_frameFilter] that change along the loops. *)
Record fstate : Type := mkState {
  cur : DataFrame;                     (* [df] *)
  locs : list bool;                    (* [locs], read in exclude mode only *)
  columnSelect : list (string * sel)   (* [columnSelect] *)
}.

(** [if exclude: locs &= result else: df = df.loc[result]] *)
Definition apply_result (exclude : bool) (st : fstate) (res : list bool) : fstate :=
  if exclude then mkState (cur st) (and_mask (locs st) res) (columnSelect st)
  else mkState (loc_mask (cur st) res) (locs st) (columnSelect st).

Definition push (st : fstate) (col : string) (v : sel) : fstate :=
  mkState (cur st) (locs st) (columnSelect st ++ [(col, v)]).

(** The positional loop with [useIndex]; [s] is the level of the head of
    [selection]. *)
Fixpoint index_loop (regexPattern exclude : bool) (st : fstate) (s : nat)
    (selection : list sel) : outcome fstate :=
  match selection with
  | [] => Ok st
  | v :: rest =>
      if negb (sel_in v (skipSelect regexPattern)) then
        res <- index_result (cur st) s regexPattern v ;;
        index_loop regexPattern exclude (apply_result exclude st res) (S s) rest
      else index_loop regexPattern exclude st (S s) rest
  end.

(** The positional loop without [useIndex]. *)
Fixpoint column_loop (regexPattern : bool) (st : fstate) (s : nat)
    (selection : list sel) : outcome fstate :=
  match selection with
  | [] => Ok st
  | v :: rest =>
      if negb (sel_in v (skipSelect regexPattern)) then
        match nth_error (columns (cur st)) s with
        | Some col => column_loop regexPattern (push st col v) (S s) rest
        | None => Raise IndexError
        end
      else column_loop regexPattern st (S s) rest
  end.

(** [hasattr(df,'_fieldPrefix') and df._fieldPrefix[0:2] in ('DS','GR')] *)
Definition supports_match (df : DataFrame) : outcome bool :=
  match _fieldPrefix df with
  | Text p => Ok (Py.mem (substring 0 2 p) ["DS"; "GR"])
  | PyNone => Raise (TypeError msg_not_subscriptable)
  | Missing => Ok false
  end.

(** [hasattr(df,'_fieldPrefix') and df._fieldPrefix+kwd in df.columns] *)
Definition has_prefixed (df : DataFrame) (kwd : string) : outcome bool :=
  match _fieldPrefix df with
  | Text p => Ok (Py.mem (p ++ kwd) (columns df))
  | PyNone => Raise (TypeError msg_none_plus_str)
  | Missing => Ok false
  end.

(** [df._fieldPrefix+kwd], read where the test before it has held. *)
Definition prefixed (df : DataFrame) (kwd : string) : string :=
  match _fieldPrefix df with
  | Text p => p ++ kwd
  | _ => kwd
  end.

Definition msg_unknown (kwdValues : list (string * string)) (kwd : string) (v : sel) : string :=
  if (List.length kwdValues =? 0)%nat then
    "unknown selection filter(" ++ kwd ++ "=" ++ py_str v
      ++ "), try a column name in uppercase instead, with or without prefix"
  else
    "unknown selection filter(" ++ kwd ++ "=" ++ py_str v ++ "), try "
      ++ readableList (map fst kwdValues)
      ++ ", or a column name in uppercase instead, with or without prefix".

(** The body of the loop over [kwds.items()] (lines 60-78). *)
Definition kwd_step (kwdValues : list (string * string)) (exclude : bool)
    (st : fstate) (kv : string * sel) : outcome fstate :=
  let kwd := fst kv in
  let v := snd kv in
  let df := cur st in
  if String.eqb kwd "match" then
    supported <- supports_match df ;;
    if supported then
      m <- match_ df [v] ;;
      if exclude then Ok (mkState df (and_mask (locs st) (index_isin df m)) (columnSelect st))
      else Ok (mkState m (locs st) (columnSelect st))
    else Raise (TypeError msg_match_only)
  else
    match assoc kwd kwdValues with
    | Some col => Ok (push st col v)
    | None =>
        if Py.mem kwd (columns df) then Ok (push st kwd v)
        else
          found <- has_prefixed df kwd ;;
          if found then Ok (push st (prefixed df kwd) v)
          else Raise (TypeError (msg_unknown kwdValues kwd v))
    end.

(** The body of the loop over [columnSelect] (lines 80-105). *)
Definition column_step (regexPattern exclude : bool) (st : fstate) (cs : string * sel)
    : outcome fstate :=
  res <- column_result (cur st) (fst cs) regexPattern (snd cs) ;;
  Ok (apply_result exclude st res).

(** [FrameFilter._frameFilter(df, *selection, kwdValues, useIndex, exclude,
    regexPattern, **kwds)] *)
Definition _frameFilter (df : DataFrame) (selection : list sel)
    (kwdValues : list (string * string)) (useIndex exclude regexPattern : bool)
    (kwds : list (string * sel)) : outcome DataFrame :=
  let st := mkState df (map (fun _ => true) (rows df)) [] in
  st <- (if useIndex then index_loop regexPattern exclude st 0 selection
         else column_loop regexPattern st 0 selection) ;;
  st <- fold_result (kwd_step kwdValues exclude) st kwds ;;
  st <- fold_result (column_step regexPattern exclude) st (columnSelect st) ;;
  if exclude then Ok (loc_mask (cur st) (map negb (locs st)))
  else Ok (cur st).

End Filter.

(** ** The routines over a store of frames

    Python hands frames around by reference.  To say what a call does to
    the frames that exist, the two routines are written once more over a
    store: a name holds the place of its frame; every pandas call of the
    source ([loc] and the selection by a boolean mask, [filter], [head],
    [concat], [drop_duplicates]) puts its answer in a new place; [df = ...]
    makes the name [df] hold another place, and [start = df] makes two names
    hold one place.  The masks are computed as above from the frames the
    places hold.  The source has no statement that writes into a frame; the
    lookups [df.find] and [df.loc], outside the source file, are taken to
    hand back a frame without writing either. *)

Definition ref : Type := nat.

Definition store : Type := list DataFrame.

Definition nowhere : DataFrame := mkFrame [] [] [] Missing.

(** The frame a place holds. *)
Definition deref (h : store) (a : ref) : DataFrame := nth a h nowhere.

(** A computation over the store: its outcome and the store it leaves. *)
Definition St (A : Type) : Type := store -> outcome A * store.

Definition ret {A : Type} (a : A) : St A := fun h => (Ok a, h).

Definition throw {A : Type} (e : exn) : St A := fun h => (Raise e, h).

(** A computation that only reads values it has. *)
Definition lift {A : Type} (r : outcome A) : St A := fun h => (r, h).

Definition bindS {A B : Type} (m : St A) (k : A -> St B) : St B :=
  fun h =>
    match m h with
    | (Ok a, h') => k a h'
    | (Raise e, h') => (Raise e, h')
    end.

Notation "x <~ m ;; k" := (bindS m (fun x => k))
  (at level 61, m at next level, right associativity).

(** Reading the frame of a place, and putting a frame in a new place. *)
Definition get (a : ref) : St DataFrame := fun h => (Ok (deref h a), h).

Definition gets (l : list ref) : St (list DataFrame) := fun h => (Ok (map (deref h) l), h).

Definition new (df : DataFrame) : St ref := fun h => (Ok (List.length h), h ++ [df]).

Fixpoint foldS {S A : Type} (f : S -> A -> St S) (s : S) (l : list A) : St S :=
  match l with
  | [] => ret s
  | x :: l' => s' <~ f s x ;; foldS f s' l'
  end.

Section StoreRoutines.

Context {ext : Collaborators}.

Definition first_profile_s (result : ref) : St ref :=
  r <~ get result ;;
  if (List.length (index_names r) =? 1)%nat then new (head 1 r)
  else match rows r with
       | [] => throw IndexError
       | x :: _ =>
           match label x with
           | [] => throw IndexError
           | key :: _ => new (loc_level0 r key)
           end
       end.

Definition ds_name_s (df : ref) (prefix : string)
    (frames : list ref) (v : sel) : St (list ref) :=
  match v with
  | SStr sel =>
      let qualp := qualifier sel in
      if negb (String.eqb qualp EmptyString) then
        d <~ get df ;;
        result <~ new (filter_like d qualp) ;;
        r <~ get result ;;
        if negb (empty r) then
          names <~ lift (column r (prefix ++ "NAME")) ;;
          result <~ new (loc_mask r (name_mask names sel)) ;;
          picked <~ first_profile_s result ;;
          ret (frames ++ [picked])
        else ret frames
      else throw (ValueError (msg_unqualified sel))
  | _ => throw AttributeError
  end.

Definition gr_name_s (start : ref) (prefix : string)
    (st : list ref * option string) (v : sel) : St (list ref * option string) :=
  s <~ get start ;;
  names <~ lift (column s (prefix ++ "NAME")) ;;
  match v with
  | SStr sel =>
      result <~ new (loc_mask s (name_mask names sel)) ;;
      r <~ get result ;;
      w <~ lift (walk (map label (rows r)) EmptyString (snd st)) ;;
      picked <~ new (loc_mask r (fst w)) ;;
      ret (fst st ++ [picked], snd w)
  | SNone => throw (TypeError (msg_not_text "NoneType"))
  | SPattern _ => throw (TypeError (msg_not_text "re.Pattern"))
  | SList _ => throw (TypeError (msg_not_text "list"))
  end.

Definition gr_start_s (df : ref) (selection : list sel) : St (ref * sel) :=
  match selection with
  | [names] => ret (df, names)
  | [cls; names] =>
      d <~ get df ;;
      found <~ lift (match cls with
                     | SStr c => find d c
                     | _ => loc_key d cls
                     end) ;;
      start <~ new found ;;
      ret (start, names)
  | _ => throw (TypeError msg_gr_arity)
  end.

Definition match_frames_s (df : ref) (prefix : string) (selection : list sel)
    : St (option (list ref)) :=
  let frameType := substring 0 2 prefix in
  if String.eqb frameType "DS" then
    match selection with
    | [names] =>
        frames <~ foldS (ds_name_s df prefix) [] (listMe names) ;;
        ret (Some frames)
    | _ => throw (TypeError msg_ds_arity)
    end
  else if String.eqb frameType "GR" then
    s <~ gr_start_s df selection ;;
    start <~ get (fst s) ;;
    if negb (empty start) then
      st <~ foldS (gr_name_s (fst s) prefix) ([], None) (listMe (snd s)) ;;
      ret (Some (fst st))
    else ret (Some [])
  else ret None.

Definition match_s (df : ref) (selection : list sel) : St ref :=
  d <~ get df ;;
  match _fieldPrefix d with
  | Text prefix =>
      frames <~ match_frames_s df prefix selection ;;
      match frames with
      | Some [] => new (head 0 d)
      | Some [f] => ret f
      | Some fs =>
          held <~ gets fs ;;
          all <~ new (concat concat_fieldPrefix d held) ;;
          a <~ get all ;;
          new (drop_duplicates a)
      | None => throw (TypeError msg_match_only)
      end
  | PyNone => throw (TypeError msg_not_subscriptable)
  | Missing => throw (TypeError msg_match_only)
  end.

(** The local variables of [_frameFilter], [df] as the place it holds. *)
Record sstate : Type := mkSState {
  cur_s : ref;
  locs_s : list bool;
  columnSelect_s : list (string * sel)
}.

Definition apply_result_s (exclude : bool) (st : sstate) (res : list bool) : St sstate :=
  if exclude then ret (mkSState (cur_s st) (and_mask (locs_s st) res) (columnSelect_s st))
  else
    d <~ get (cur_s st) ;;
    narrowed <~ new (loc_mask d res) ;;
    ret (mkSState narrowed (locs_s st) (columnSelect_s st)).

Definition push_s (st : sstate) (col : string) (v : sel) : sstate :=
  mkSState (cur_s st) (locs_s st) (columnSelect_s st ++ [(col, v)]).

Fixpoint index_loop_s (regexPattern exclude : bool) (st : sstate) (s : nat)
    (selection : list sel) : St sstate :=
  match selection with
  | [] => ret st
  | v :: rest =>
      if negb (sel_in v (skipSelect regexPattern)) then
        d <~ get (cur_s st) ;;
        res <~ lift (index_result d s regexPattern v) ;;
        st' <~ apply_result_s exclude st res ;;
        index_loop_s regexPattern exclude st' (S s) rest
      else index_loop_s regexPattern exclude st (S s) rest
  end.

Fixpoint column_loop_s (regexPattern : bool) (st : sstate) (s : nat)
    (selection : list sel) : St sstate :=
  match selection with
  | [] => ret st
  | v :: rest =>
      if negb (sel_in v (skipSelect regexPattern)) then
        d <~ get (cur_s st) ;;
        match nth_error (columns d) s with
        | Some col => column_loop_s regexPattern (push_s st col v) (S s) rest
        | None => throw IndexError
        end
      else column_loop_s regexPattern st (S s) rest
  end.

Definition kwd_step_s (kwdValues : list (string * string)) (exclude : bool)
    (st : sstate) (kv : string * sel) : St sstate :=
  let kwd := fst kv in
  let v := snd kv in
  df <~ get (cur_s st) ;;
  if String.eqb kwd "match" then
    supported <~ lift (supports_match df) ;;
    if supported then
      m <~ match_s (cur_s st) [v] ;;
      if exclude then
        answer <~ get m ;;
        ret (mkSState (cur_s st) (and_mask (locs_s st) (index_isin df answer))
               (columnSelect_s st))
      else ret (mkSState m (locs_s st) (columnSelect_s st))
    else throw (TypeError msg_match_only)
  else
    match assoc kwd kwdValues with
    | Some col => ret (push_s st col v)
    | None =>
        if Py.mem kwd (columns df) then ret (push_s st kwd v)
        else
          found <~ lift (has_prefixed df kwd) ;;
          if found then ret (push_s st (prefixed df kwd) v)
          else throw (TypeError (msg_unknown kwdValues kwd v))
    end.

Definition column_step_s (regexPattern exclude : bool) (st : sstate) (cs : string * sel)
    : St sstate :=
  d <~ get (cur_s st) ;;
  res <~ lift (column_result d (fst cs) regexPattern (snd cs)) ;;
  apply_result_s exclude st res.

Definition _frameFilter_s (df : ref) (selection : list sel)
    (kwdValues : list (string * string)) (useIndex exclude regexPattern : bool)
    (kwds : list (string * sel)) : St ref :=
  d <~ get df ;;
  let st := mkSState df (map (fun _ => true) (rows d)) [] in
  st <~ (if useIndex then index_loop_s regexPattern exclude st 0 selection
         else column_loop_s regexPattern st 0 selection) ;;
  st <~ foldS (kwd_step_s kwdValues exclude) st kwds ;;
  st <~ foldS (column_step_s regexPattern exclude) st (columnSelect_s st) ;;
  if exclude then
    d <~ get (cur_s st) ;;
    new (loc_mask d (map negb (locs_s st)))
  else ret (cur_s st).

End StoreRoutines.

(** ** Reference collaborators

    The closed examples below run the routines with these. *)

(** Modelled from the spec: [racf_functions.generic2regex] and the
    regular-expression engine are outside the source file.  The spec gives
    the translator as total and pure, with [*] a wildcard inside one
    qualifier and [%] a single-character wildcard.  The reference translator
    leaves the pattern in generic form and the reference engine reads that
    form: [*] is any run of characters other than the separator, [%] one
    such character, every other character stands for itself, and the whole
    text has to be matched. *)
Fixpoint glob (p : string) : string -> bool :=
  match p with
  | EmptyString => fun s => match s with EmptyString => true | _ => false end
  | String c p' =>
      if Ascii.eqb c "*"%char then
        fix star (s : string) : bool :=
          glob p' s ||
          match s with
          | String d s' => negb (Ascii.eqb d "."%char) && star s'
          | EmptyString => false
          end
      else
        fun s =>
          match s with
          | String d s' =>
              (if Ascii.eqb c "%"%char then negb (Ascii.eqb d "."%char) else Ascii.eqb c d)
              && glob p' s'
          | EmptyString => false
          end
  end.

(** The collaborators without the label lookups, which the filter does not
    reach when it is called without the [match] keyword. *)
Definition base_collaborators : Collaborators := {|
  generic2regex := fun p => p;
  re_match := glob;
  re_search := Py.contains;
  readableList := Py.join ", ";
  find := fun _ c => Raise (KeyError c);
  loc_key := fun _ v => Raise (KeyError (py_str v));
  concat_fieldPrefix := PyNone
|}.

(** Modelled from the spec: [ProfileFrame.find] is outside the source file;
    the spec gives the class label as narrowing the table first, which is the
    filter on the leading index level. *)
Definition find_ref (df : DataFrame) (c : string) : outcome DataFrame :=
  @_frameFilter base_collaborators df [SStr c] [] true false false [].

(** Modelled from the spec: [df.loc[key]] of the tabular engine for a list of
    leading keys: the rows under each key, a [KeyError] for a key the index
    does not have. *)
Definition loc_key_ref (df : DataFrame) (v : sel) : outcome DataFrame :=
  match v with
  | SList l =>
      match List.find (fun k => negb (existsb (fun r => String.eqb (nth 0 (label r) EmptyString) k)
                                         (rows df))) l with
      | Some k => Raise (KeyError k)
      | None => Ok (with_rows df (flat_map (fun k => rows (loc_level0 df k)) l))
      end
  | _ => Raise (KeyError (py_str v))
  end.

Definition reference : Collaborators := {|
  generic2regex := fun p => p;
  re_match := glob;
  re_search := Py.contains;
  readableList := Py.join ", ";
  find := find_ref;
  loc_key := loc_key_ref;
  concat_fieldPrefix := PyNone
|}.

(** ** Example tables *)

(** A general resource profile table: class and profile name in the index. *)
Definition facility : DataFrame := {|
  index_names := ["GRBD_CLASS_NAME"; "GRBD_NAME"];
  columns := ["GRBD_CLASS_NAME"; "GRBD_NAME"; "GRBD_UACC"];
  rows := [ mkRow ["FACILITY"; "BPX.*"] ["FACILITY"; "BPX.*"; "NONE"];
            mkRow ["FACILITY"; "BPX.SUPERUSER"] ["FACILITY"; "BPX.SUPERUSER"; "READ"];
            mkRow ["XFACILIT"; "BPX.SUPERUSER"] ["XFACILIT"; "BPX.SUPERUSER"; "NONE"] ];
  _fieldPrefix := Text "GRBD_"
|}.

(** A data set profile table: the profile name is the index. *)
Definition datasets : DataFrame := {|
  index_names := ["DSBD_NAME"];
  columns := ["DSBD_NAME"; "DSBD_UACC"];
  rows := [ mkRow ["SYS1.*"] ["SYS1.*"; "READ"];
            mkRow ["SYS1.PARMLIB"] ["SYS1.PARMLIB"; "NONE"];
            mkRow ["MYSYS1.DATA"] ["MYSYS1.DATA"; "NONE"] ];
  _fieldPrefix := Text "DSBD_"
|}.

(** A data set permission table: profile name, user and access in the index. *)
Definition permits : DataFrame := {|
  index_names := ["DSACC_NAME"; "DSACC_AUTH_ID"; "DSACC_ACCESS"];
  columns := ["DSACC_NAME"; "DSACC_AUTH_ID"; "DSACC_ACCESS"];
  rows := [ mkRow ["SYS1.PARMLIB"; "SYSPROG"; "ALTER"] ["SYS1.PARMLIB"; "SYSPROG"; "ALTER"];
            mkRow ["SYS1.PARMLIB"; "OPER"; "READ"] ["SYS1.PARMLIB"; "OPER"; "READ"];
            mkRow ["USER.DATA"; "USER"; "ALTER"] ["USER.DATA"; "USER"; "ALTER"] ];
  _fieldPrefix := Text "DSACC_"
|}.

(** A general resource table whose rows are not grouped by class. *)
Definition interleaved : DataFrame := {|
  index_names := ["GRBD_CLASS_NAME"; "GRBD_NAME"];
  columns := ["GRBD_CLASS_NAME"; "GRBD_NAME"; "GRBD_UACC"];
  rows := [ mkRow ["FACILITY"; "BPX.*"] ["FACILITY"; "BPX.*"; "NONE"];
            mkRow ["XFACILIT"; "BPX.SUPERUSER"] ["XFACILIT"; "BPX.SUPERUSER"; "NONE"];
            mkRow ["FACILITY"; "BPX.SUPERUSER"] ["FACILITY"; "BPX.SUPERUSER"; "READ"] ];
  _fieldPrefix := Text "GRBD_"
|}.

(** A user profile table: neither a data set nor a general resource frame. *)
Definition users : DataFrame := {|
  index_names := ["USBD_NAME"];
  columns := ["USBD_NAME"; "USBD_OWNER"; "USBD_INSTDATA"];
  rows := [ mkRow ["IBMUSER"] ["IBMUSER"; "SYS1"; EmptyString];
            mkRow ["OPER"] ["OPER"; "IBMUSER"; "operator"];
            mkRow ["SYSPROG"] ["SYSPROG"; "IBMUSER"; "systems"] ];
  _fieldPrefix := Text "USBD_"
|}.

(** A data set profile table with a generic first qualifier. *)
Definition generics : DataFrame := {|
  index_names := ["DSBD_NAME"];
  columns := ["DSBD_NAME"; "DSBD_UACC"];
  rows := [ mkRow ["*.SYS1.PARMLIB"] ["*.SYS1.PARMLIB"; "READ"];
            mkRow ["SYS1.SYS1.*"] ["SYS1.SYS1.*"; "NONE"] ];
  _fieldPrefix := Text "DSBD_"
|}.

(** A general resource table whose first row has an empty class. *)
Definition unclassed : DataFrame := {|
  index_names := ["GRBD_CLASS_NAME"; "GRBD_NAME"];
  columns := ["GRBD_CLASS_NAME"; "GRBD_NAME"; "GRBD_UACC"];
  rows := [ mkRow [EmptyString; "BPX.SUPERUSER"] [EmptyString; "BPX.SUPERUSER"; "NONE"];
            mkRow ["FACILITY"; "BPX.SUPERUSER"] ["FACILITY"; "BPX.SUPERUSER"; "READ"] ];
  _fieldPrefix := Text "GRBD_"
|}.

(** ** The filter as the spec words it: a conjunction over the whole table

    Every criterion's row-mask is computed against the original, unnarrowed
    table; the selection keeps the rows on which all masks are true.  The
    criteria are taken in the order of the source: the index-level values,
    the keywords, the column-bound values.  The mask of the [match] keyword
    is membership of the row's label in the index of the resolver's answer
    for the whole table. *)

Section Conjunction.

Context {ext : Collaborators}.

Fixpoint index_masks (df : DataFrame) (regexPattern : bool) (s : nat)
    (selection : list sel) : outcome (list (list bool)) :=
  match selection with
  | [] => Ok []
  | v :: rest =>
      if sel_in v (skipSelect regexPattern) then index_masks df regexPattern (S s) rest
      else
        m <- index_result df s regexPattern v ;;
        ms <- index_masks df regexPattern (S s) rest ;;
        Ok (m :: ms)
  end.

Fixpoint positional_columns (cols : list string) (regexPattern : bool) (s : nat)
    (selection : list sel) : outcome (list (string * sel)) :=
  match selection with
  | [] => Ok []
  | v :: rest =>
      if sel_in v (skipSelect regexPattern) then positional_columns cols regexPattern (S s) rest
      else
        match nth_error cols s with
        | Some col =>
            cs <- positional_columns cols regexPattern (S s) rest ;;
            Ok ((col, v) :: cs)
        | None => Raise IndexError
        end
  end.

(** One keyword: the mask of [match], or the column the keyword resolves
    to (alias, then column name, then prefixed column name). *)
Definition keyword_criterion (kwdValues : list (string * string)) (df : DataFrame)
    (kv : string * sel) : outcome (list bool + string * sel) :=
  if String.eqb (fst kv) "match" then
    supported <- supports_match df ;;
    if supported then
      m <- match_ df [snd kv] ;; Ok (inl (index_isin df m))
    else Raise (TypeError msg_match_only)
  else
    match assoc (fst kv) kwdValues with
    | Some col => Ok (inr (col, snd kv))
    | None =>
        if Py.mem (fst kv) (columns df) then Ok (inr (fst kv, snd kv))
        else
          found <- has_prefixed df (fst kv) ;;
          if found then Ok (inr (prefixed df (fst kv), snd kv))
          else Raise (TypeError (msg_unknown kwdValues (fst kv) (snd kv)))
    end.

Fixpoint keyword_criteria (kwdValues : list (string * string)) (df : DataFrame)
    (kwds : list (string * sel)) : outcome (list (list bool) * list (string * sel)) :=
  match kwds with
  | [] => Ok ([], [])
  | kv :: rest =>
      c <- keyword_criterion kwdValues df kv ;;
      r <- keyword_criteria kwdValues df rest ;;
      Ok (match c with
          | inl m => (m :: fst r, snd r)
          | inr cs => (fst r, cs :: snd r)
          end)
  end.

Fixpoint column_masks (df : DataFrame) (regexPattern : bool)
    (cs : list (string * sel)) : outcome (list (list bool)) :=
  match cs with
  | [] => Ok []
  | c :: rest =>
      m <- column_result df (fst c) regexPattern (snd c) ;;
      ms <- column_masks df regexPattern rest ;;
      Ok (m :: ms)
  end.

(** Every criterion's mask against the whole of [df]. *)
Definition full_table_masks (df : DataFrame) (selection : list sel)
    (kwdValues : list (string * string)) (useIndex regexPattern : bool)
    (kwds : list (string * sel)) : outcome (list (list bool)) :=
  pm <- (if useIndex then index_masks df regexPattern 0 selection else Ok []) ;;
  pc <- (if useIndex then Ok [] else positional_columns (columns df) regexPattern 0 selection) ;;
  km <- keyword_criteria kwdValues df kwds ;;
  cm <- column_masks df regexPattern (pc ++ snd km) ;;
  Ok (pm ++ fst km ++ cm).

(** The rows on which all masks are true. *)
Definition all_of (df : DataFrame) (masks : list (list bool)) : list bool :=
  fold_left and_mask masks (map (fun _ => true) (rows df)).

Definition select_conjunction (df : DataFrame) (selection : list sel)
    (kwdValues : list (string * string)) (useIndex regexPattern : bool)
    (kwds : list (string * sel)) : outcome DataFrame :=
  masks <- full_table_masks df selection kwdValues useIndex regexPattern kwds ;;
  Ok (loc_mask df (all_of df masks)).

Definition exclude_conjunction (df : DataFrame) (selection : list sel)
    (kwdValues : list (string * string)) (useIndex regexPattern : bool)
    (kwds : list (string * sel)) : outcome DataFrame :=
  masks <- full_table_masks df selection kwdValues useIndex regexPattern kwds ;;
  Ok (loc_mask df (map negb (all_of df masks))).

End Conjunction.

(** ** Keyword resolution as the spec words it *)

Section Resolution.

Context {ext : Collaborators}.




End Resolution.

(** ** Notions the statements use *)

Definition no_row : Row := mkRow [] [].

(** The class and the resource name of a row of a general resource table:
    the first and the second key of its label. *)
Definition class_of (r : Row) : string := nth 0 (label r) EmptyString.
Definition resource_of (r : Row) : string := nth 1 (label r) EmptyString.

(** Position [j] starts the run of consecutive rows of one class in which
    position [i] lies. *)
Definition leads (M : list Row) (j i : nat) : Prop :=
  j <= i < List.length M
  /\ (forall k, j <= k <= i -> class_of (nth k M no_row) = class_of (nth i M no_row))
  /\ (j = 0 \/ class_of (nth (j - 1) M no_row) <> class_of (nth i M no_row)).

(** The rows of a class are consecutive. *)
Definition grouped_by_class (M : list Row) : Prop :=
  forall a b c, a <= b <= c -> c < List.length M ->
    class_of (nth a M no_row) = class_of (nth c M no_row) ->
    class_of (nth b M no_row) = class_of (nth c M no_row).

(** The first row of [M] in the class [c]. *)
Definition first_in_class (c : string) (M : list Row) : option Row :=
  List.find (fun x => String.eqb (class_of x) c) M.

(** How a state of [_frameFilter] stands for the conjunction [m] gathered so
    far over the original table [df]: in exclude mode [df] is untouched and
    [locs] holds [m]; in select mode [df] has been narrowed to the rows of [m]. *)
Definition stands_for (exclude : bool) (df : DataFrame) (m : list bool) (st : fstate) : Prop :=
  if exclude then cur st = df /\ locs st = m else cur st = loc_mask df m.

(** A mask that tests every row of [l] by itself. *)
Definition row_wise (l : list Row) (m : list bool) : Prop :=
  exists p : Row -> bool, m = map p l.

(** [s] is [l] with some members left out. *)
Inductive subseq {A : Type} : list A -> list A -> Prop :=
| subseq_nil : subseq [] []
| subseq_skip (x : A) (s l : list A) : subseq s l -> subseq s (x :: l)
| subseq_keep (x : A) (s l : list A) : subseq s l -> subseq (x :: s) (x :: l).

(** [out] is [df] with rows left out: the schema and the field prefix of
    [df], and rows of [df] in the order [df] has them. *)
Definition narrows (df out : DataFrame) : Prop :=
  out = with_rows df (rows out) /\ subseq (rows out) (rows df).

Definition row_eq_dec (a b : Row) : {a = b} + {a <> b}.
Proof. decide equality; apply (list_eq_dec string_dec). Defined.

(** Every row is in [rs] at most as often as in [l]. *)
Definition within (rs l : list Row) : Prop :=
  forall r, count_occ row_eq_dec rs r <= count_occ row_eq_dec l r.

(** [out] is rows picked from [df]: the schema and the field prefix of
    [df], and rows of [df] in any order, none taken more often than [df]
    has it. *)
Definition picks (df out : DataFrame) : Prop :=
  out = with_rows df (rows out) /\ within (rows out) (rows df).

(** [out] is drawn from [df]: it has the index levels and the columns of
    [df], its rows are rows of [df], none taken more often than [df] has
    it, and its field prefix is that of [df] or, when [out] has been
    concatenated, what such a frame reads. *)
Definition drawn_from (fresh : attribute) (df out : DataFrame) : Prop :=
  index_names out = index_names df
  /\ columns out = columns df
  /\ within (rows out) (rows df)
  /\ (_fieldPrefix out = _fieldPrefix df \/ _fieldPrefix out = fresh).

(** The place [a] of the store [h] holds the frame [df]. *)
Definition holds (h : store) (a : ref) (df : DataFrame) : Prop :=
  a < List.length h /\ deref h a = df.

Definition held (h : store) (refs : list ref) (frames : list DataFrame) : Prop :=
  Forall2 (holds h) refs frames.

(** A call over the store ends as the routine on frames does: with the same
    exception, or at a place of the store it leaves that holds the
    routine's answer. *)
Definition same_outcome (h' : store) (r : outcome ref) (p : outcome DataFrame) : Prop :=
  match r, p with
  | Ok b, Ok out => holds h' b out
  | Raise e, Raise e' => e = e'
  | _, _ => False
  end.

(** The computation [m], run from the store [h], leaves [h] with frames
    added at its end, and ends as [p] does, the answers related by [R] over
    the store it leaves. *)
Definition sim {A B : Type} (R : store -> A -> B -> Prop) (h : store)
    (m : St A) (p : outcome B) : Prop :=
  exists added,
    snd (m h) = h ++ added
    /\ match fst (m h), p with
       | Ok a, Ok b => R (h ++ added) a b
       | Raise e, Raise e' => e = e'
       | _, _ => False
       end.

Definition held_opt (h : store) (o : option (list ref)) (o' : option (list DataFrame))
    : Prop :=
  match o, o' with
  | Some refs, Some frames => held h refs frames
  | None, None => True
  | _, _ => False
  end.

(** The local variables of the filter over the store and over frames agree. *)
Definition srel (h : store) (s : sstate) (st : fstate) : Prop :=
  holds h (cur_s s) (cur st) /\ locs_s s = locs st /\ columnSelect_s s = columnSelect st.

(** The [match] keyword meets the whole table: nothing has been narrowed
    when the keywords are read ([m] is still all true), the keywords are
    those of a [dict], the index labels identify the rows, and the keyword
    asks for one name. *)
Definition match_on_whole_table (df : DataFrame) (m : list bool)
    (kwds : list (string * sel)) : Prop :=
  m = map (fun _ => true) (rows df)
  /\ NoDup (map label (rows df))
  /\ NoDup (map fst kwds)
  /\ forall v, In ("match", v) kwds -> exists name, v = SStr name.

(** ** Lists, masks and strings *)

Lemma select_mask_map {A : Type} (f : A -> bool) (l : list A) :
  select_mask (map f l) l = filter f l.
Proof.
  induction l as [|x l IH]; simpl; [reflexivity|].
  rewrite IH. reflexivity.
Qed.

Lemma select_mask_map_comm {A B : Type} (g : A -> B) (m : list bool) (l : list A) :
  select_mask m (map g l) = map g (select_mask m l).
Proof.
  revert l. induction m as [|b m IH]; intros [|x l]; simpl; try reflexivity.
  destruct b; simpl; rewrite IH; reflexivity.
Qed.

Lemma select_mask_nil {A : Type} (m : list bool) : @select_mask A m [] = [].
Proof. destruct m; reflexivity. Qed.

Lemma select_mask_and {A : Type} (m res : list bool) (l : list A) :
  select_mask (select_mask m res) (select_mask m l) = select_mask (and_mask m res) l.
Proof.
  revert res l. induction m as [|b m IH]; intros res l; simpl; [reflexivity|].
  destruct res as [|c res], l as [|x l]; simpl; try reflexivity.
  - destruct b; [destruct c|]; simpl; try reflexivity; apply select_mask_nil.
  - destruct b; simpl; [|apply IH].
    destruct c; rewrite IH; reflexivity.
Qed.

Lemma select_mask_incl {A : Type} (m : list bool) (l : list A) :
  incl (select_mask m l) l.
Proof.
  revert l. induction m as [|b m IH]; intros [|x l]; simpl; try apply incl_nil_l.
  destruct b.
  - apply incl_cons; [left; reflexivity | apply incl_tl, IH].
  - apply incl_tl, IH.
Qed.

Lemma and_mask_map {A : Type} (p q : A -> bool) (l : list A) :
  and_mask (map p l) (map q l) = map (fun x => p x && q x) l.
Proof. induction l as [|x l IH]; simpl; [reflexivity | rewrite IH; reflexivity]. Qed.

Lemma bind_ok {A B : Type} (r : outcome A) (k : A -> outcome B) (b : B) :
  bind r k = Ok b -> exists a, r = Ok a /\ k a = Ok b.
Proof. destruct r as [a|e]; simpl; intros H; [exists a; auto | discriminate]. Qed.

Lemma strs_eqb_eq (a b : list string) : strs_eqb a b = true <-> a = b.
Proof.
  revert b. induction a as [|x a IH]; intros [|y b]; simpl; split; intros H;
    try reflexivity; try discriminate.
  - apply andb_true_iff in H as [Hx Ha]. apply String.eqb_eq in Hx.
    apply IH in Ha. congruence.
  - injection H as -> ->. rewrite String.eqb_refl. simpl. apply IH. reflexivity.
Qed.

Lemma prefix_app (sub s : string) :
  String.prefix sub s = true <-> exists post, s = (sub ++ post)%string.
Proof.
  revert s. induction sub as [|c sub IH]; intros s.
  - split; [intros _; exists s; reflexivity | intros _; destruct s; reflexivity].
  - destruct s as [|d s]; simpl.
    + split; [discriminate | intros [post H]; discriminate].
    + destruct (ascii_dec c d) as [->|Hne].
      * rewrite IH. split; intros [post H]; exists post; [rewrite H; reflexivity | congruence].
      * split; [discriminate | intros [post H]; congruence].
Qed.

Lemma contains_cons (sub : string) (d : ascii) (s : string) :
  Py.contains sub (String d s) = String.prefix sub (String d s) || Py.contains sub s.
Proof. reflexivity. Qed.

Lemma contains_empty (sub : string) :
  Py.contains sub EmptyString = String.prefix sub EmptyString.
Proof. unfold Py.contains. apply orb_false_r. Qed.

(** [sub in s] holds exactly when [s] is some text, then [sub], then some text. *)
Lemma contains_spec (sub s : string) :
  Py.contains sub s = true <-> exists pre post, s = (pre ++ sub ++ post)%string.
Proof.
  induction s as [|d s IH].
  - rewrite contains_empty, prefix_app. split.
    + intros [post H]. exists EmptyString, post. exact H.
    + intros [pre [post H]]. destruct pre; [exists post; exact H | discriminate].
  - rewrite contains_cons, orb_true_iff, prefix_app, IH. split.
    + intros [[post H] | [pre [post H]]].
      * exists EmptyString, post. exact H.
      * exists (String d pre), post. simpl. rewrite H. reflexivity.
    + intros [pre [post H]]. destruct pre as [|c pre].
      * left. exists post. exact H.
      * right. exists pre, post. simpl in H. congruence.
Qed.

Lemma find_from_bounds (c : ascii) (s : string) (i : Z) :
  (0 <= i)%Z -> (Py.find_from c s i = -1 \/ i <= Py.find_from c s i)%Z.
Proof.
  revert i. induction s as [|d s IH]; intros i Hi; simpl; [left; reflexivity|].
  destruct (Ascii.eqb d c); [right; lia|].
  destruct (IH (i + 1)%Z) as [H|H]; [lia | left; exact H | right; lia].
Qed.

Lemma find_from_absent (c : ascii) (s : string) (i : Z) :
  (0 <= i)%Z -> Py.find_from c s i = (-1)%Z <-> ~ In c (list_ascii_of_string s).
Proof.
  revert i. induction s as [|d s IH]; intros i Hi; simpl.
  - split; [intros _ [] | reflexivity].
  - destruct (Ascii.eqb_spec d c) as [->|Hne].
    + split; [intros H; lia | intros H; exfalso; apply H; left; reflexivity].
    + rewrite IH by lia. split.
      * intros H [E|E]; [congruence | auto].
      * intros H E. apply H. right. exact E.
Qed.

(** [s.find(c)] is -1 exactly when [c] does not occur in [s]. *)
Lemma find_absent (c : ascii) (s : string) :
  Py.find c s = (-1)%Z <-> ~ In c (list_ascii_of_string s).
Proof. apply find_from_absent. lia. Qed.

Lemma qualifier_absent (sel : string) :
  ~ In "."%char (list_ascii_of_string sel) -> qualifier sel = EmptyString.
Proof.
  intros H. apply find_absent in H. unfold qualifier. rewrite H.
  unfold Py.slice_to. simpl. destruct sel; reflexivity.
Qed.

Lemma fold_result_app {S A : Type} (f : S -> A -> outcome S) (s : S) (l1 l2 : list A) :
  fold_result f s (l1 ++ l2) = (s' <- fold_result f s l1 ;; fold_result f s' l2).
Proof.
  revert s. induction l1 as [|x l1 IH]; intros s; simpl; [reflexivity|].
  destruct (f s x) as [s'|e]; simpl; [apply IH | reflexivity].
Qed.

(** ** Wildcards at index level *)

Section IndexLevel.

Context {ext : Collaborators}.

Lemma index_loop_skip_none (regexPattern exclude : bool) (st : fstate) (k n : nat)
    (rest : list sel) :
  index_loop regexPattern exclude st k (repeat SNone n ++ rest)
  = index_loop regexPattern exclude st (k + n) rest.
Proof.
  revert k. induction n as [|n IH]; intros k; simpl.
  - rewrite Nat.add_0_r. reflexivity.
  - destruct regexPattern; simpl; rewrite IH; f_equal; lia.
Qed.

(** C4, as the code has it: a bare [*] bound to an index level is compared
    with the level's values for equality, so the filter keeps exactly the
    rows whose key at that level is the text [*]; the value that skips a
    level and keeps every row is [**]. *)
Theorem star_at_index_level_is_equality (df : DataFrame) (s : nat)
    (kwdValues : list (string * string)) :
  s < List.length (index_names df) ->
  _frameFilter df (repeat SNone s ++ [SStr "*"]) kwdValues true false false []
    = Ok (with_rows df
            (filter (fun r => String.eqb (nth s (label r) EmptyString) "*") (rows df)))
  /\ _frameFilter df (repeat SNone s ++ [SStr "**"]) kwdValues true false false [] = Ok df.
Proof.
  intros Hs. unfold _frameFilter. rewrite !index_loop_skip_none. simpl.
  unfold index_result, get_level_values. simpl.
  apply Nat.ltb_lt in Hs. rewrite Hs. simpl.
  split; [|reflexivity].
  change (generic_mask ?values "*") with (map (fun x => String.eqb x "*") values).
  unfold loc_mask. rewrite map_map, select_mask_map. reflexivity.
Qed.

End IndexLevel.

Lemma star_at_index_level_witness :
  0 < List.length (index_names datasets)
  /\ @_frameFilter reference datasets [SStr "*"] [("uacc", "DSBD_UACC")] true false false []
     = Ok (with_rows datasets []).
Proof.
  split; [simpl; lia|].
  apply (proj1 (@star_at_index_level_is_equality reference datasets 0 [("uacc", "DSBD_UACC")]
                  ltac:(simpl; lia))).
Defined.

(** C4, as stated, fails: on the data set table, whose three profiles all
    have names other than [*], the index-level criterion [*] keeps no row. *)
Lemma star_at_index_level_keeps_nothing :
  @_frameFilter reference datasets [SStr "*"] [] true false false [] = Ok (with_rows datasets [])
  /\ rows datasets <> rows (with_rows datasets []).
Proof. split; [reflexivity | discriminate]. Qed.

(** ** The resolver on data set frames *)

Section DatasetMatch.

Context {ext : Collaborators}.

Lemma ds_frame_dispatch (df : DataFrame) (prefix : string) (selection : list sel) :
  _fieldPrefix df = Text prefix -> substring 0 2 prefix = "DS" ->
  match_frames df prefix selection
  = match selection with
    | [names] =>
        frames <- fold_result (ds_name df prefix) [] (listMe names) ;; Ok (Some frames)
    | _ => Raise (TypeError msg_ds_arity)
    end.
Proof. intros _ H. unfold match_frames. rewrite H. reflexivity. Qed.

(** C5, as the code has it: for a queried name [match] narrows the table
    to exactly the rows whose index label text holds the leading qualifier
    of the name somewhere, at its start or further on, and picks the
    profile among the narrowed rows whose name matches.  [keeps] is any
    test that is true of exactly the rows that hold the qualifier.  This is
    so for each name of a list (the step of the loop) and for the answer to
    one name. *)
Theorem narrowing_keeps_labels_containing_qualifier (df : DataFrame) (prefix name : string)
    (keeps : Row -> bool) :
  qualifier name <> EmptyString ->
  (forall r, keeps r = true
             <-> exists pre post,
                   label_text (label r) = (pre ++ qualifier name ++ post)%string) ->
  let narrowed := with_rows df (filter keeps (rows df)) in
  (forall frames,
     ds_name df prefix frames (SStr name)
     = if empty narrowed then Ok frames
       else names <- column narrowed (prefix ++ "NAME") ;;
            picked <- first_profile (loc_mask narrowed (name_mask names name)) ;;
            Ok (frames ++ [picked]))
  /\ (_fieldPrefix df = Text prefix -> substring 0 2 prefix = "DS" ->
      match_ df [SStr name]
      = if empty narrowed then Ok (head 0 df)
        else names <- column narrowed (prefix ++ "NAME") ;;
             first_profile (loc_mask narrowed (name_mask names name))).
Proof.
  intros Hq Hkeeps narrowed.
  assert (Hn : filter_like df (qualifier name) = narrowed).
  { unfold filter_like, narrowed. f_equal. apply filter_ext. intros r.
    destruct (keeps r) eqn:E.
    - apply Hkeeps in E. apply contains_spec. exact E.
    - apply not_true_is_false. intros C. apply contains_spec, Hkeeps in C. congruence. }
  assert (Hstep : forall frames,
            ds_name df prefix frames (SStr name)
            = if empty narrowed then Ok frames
              else names <- column narrowed (prefix ++ "NAME") ;;
                   picked <- first_profile (loc_mask narrowed (name_mask names name)) ;;
                   Ok (frames ++ [picked])).
  { intros frames. unfold ds_name. cbv zeta.
    apply String.eqb_neq in Hq. rewrite Hq. cbn [negb]. rewrite Hn.
    destruct (empty narrowed); reflexivity. }
  split; [exact Hstep|].
  intros Hp Hds. unfold match_. rewrite Hp, (ds_frame_dispatch _ _ _ Hp Hds).
  cbn [listMe fold_result]. rewrite Hstep.
  destruct (empty narrowed); cbn [bind]; [reflexivity|].
  destruct (column narrowed (prefix ++ "NAME")) as [names|e]; cbn [bind]; [|reflexivity].
  destruct (first_profile (loc_mask narrowed (name_mask names name))) as [picked|e];
    reflexivity.
Qed.

(** C8: on a data set frame, [match] with no or with several positional
    arguments raises the [TypeError] of the arity check whatever the
    arguments are; a queried name without a separator raises the
    [ValueError] that names it, when it is the only name and when it
    follows, in a list, names that were resolved. *)
Theorem match_dataset_argument_errors (df : DataFrame) (prefix : string) :
  _fieldPrefix df = Text prefix -> substring 0 2 prefix = "DS" ->
  (forall selection, List.length selection <> 1 ->
     match_ df selection = Raise (TypeError msg_ds_arity))
  /\ (forall name, ~ In "."%char (list_ascii_of_string name) ->
        match_ df [SStr name] = Raise (ValueError (msg_unqualified name)))
  /\ (forall before name after frames,
        ~ In "."%char (list_ascii_of_string name) ->
        fold_result (ds_name df prefix) [] (map SStr before) = Ok frames ->
        match_ df [SList (before ++ name :: after)]
        = Raise (ValueError (msg_unqualified name))).
Proof.
  intros Hp Hds.
  assert (Hname : forall name frames, ~ In "."%char (list_ascii_of_string name) ->
            ds_name df prefix frames (SStr name) = Raise (ValueError (msg_unqualified name))).
  { intros name frames H. unfold ds_name. rewrite (qualifier_absent _ H). reflexivity. }
  repeat split.
  - intros selection Hlen. unfold match_. rewrite Hp, (ds_frame_dispatch _ _ _ Hp Hds).
    destruct selection as [|a [|b l]]; simpl in *; try reflexivity. lia.
  - intros name H. unfold match_. rewrite Hp, (ds_frame_dispatch _ _ _ Hp Hds).
    unfold listMe, fold_result. rewrite (Hname _ _ H). reflexivity.
  - intros before name after frames H Hfold. unfold match_.
    rewrite Hp, (ds_frame_dispatch _ _ _ Hp Hds).
    unfold listMe. rewrite map_app, fold_result_app, Hfold.
    cbn [bind map fold_result]. rewrite (Hname _ _ H). reflexivity.
Qed.

(** C6, where the code fails: on a data set frame whose index has more
    than one level, a queried name whose qualifier is found in some label
    while no narrowed profile name matches it makes [match] raise
    [IndexError], from [result.index[0]] on the empty selection. *)
Theorem match_permits_without_profile_raises (df : DataFrame) (prefix sel : string)
    (names : list string) :
  _fieldPrefix df = Text prefix -> substring 0 2 prefix = "DS" ->
  List.length (index_names df) <> 1 ->
  qualifier sel <> EmptyString ->
  empty (filter_like df (qualifier sel)) = false ->
  column (filter_like df (qualifier sel)) (prefix ++ "NAME") = Ok names ->
  (forall x, In x names -> re_match (generic2regex x) sel = false) ->
  match_ df [SStr sel] = Raise IndexError.
Proof.
  intros Hp Hds Hlev Hq Hne Hcol Hno.
  unfold match_. rewrite Hp, (ds_frame_dispatch _ _ _ Hp Hds). simpl.
  apply String.eqb_neq in Hq. rewrite Hq, Hne. simpl. rewrite Hcol. simpl.
  unfold first_profile. simpl.
  apply Nat.eqb_neq in Hlev. rewrite Hlev.
  assert (Hsel : forall rs, select_mask (name_mask names sel) rs = @nil Row).
  { unfold name_mask. clear Hcol. induction names as [|x names IH]; intros rs; simpl.
    - reflexivity.
    - destruct rs as [|r rs]; [reflexivity|].
      rewrite (Hno x (or_introl eq_refl)). apply IH.
      intros y Hy. apply Hno. right. exact Hy. }
  rewrite Hsel. reflexivity.
Qed.

(** A name whose qualifier is in no label is passed over. *)
Lemma ds_name_skips_empty_narrowing (df : DataFrame) (prefix sel : string)
    (frames : list DataFrame) :
  qualifier sel <> EmptyString ->
  empty (filter_like df (qualifier sel)) = true ->
  ds_name df prefix frames (SStr sel) = Ok frames.
Proof.
  intros Hq He. unfold ds_name. apply String.eqb_neq in Hq. rewrite Hq, He. reflexivity.
Qed.

(** On a one-level index the same query is answered: [head(1)] of the
    empty selection is the empty frame. *)
Lemma match_profiles_without_profile_returns (df : DataFrame) (prefix sel : string)
    (names : list string) :
  _fieldPrefix df = Text prefix -> substring 0 2 prefix = "DS" ->
  List.length (index_names df) = 1 ->
  qualifier sel <> EmptyString ->
  column (filter_like df (qualifier sel)) (prefix ++ "NAME") = Ok names ->
  exists out, match_ df [SStr sel] = Ok out.
Proof.
  intros Hp Hds Hlev Hq Hcol.
  unfold match_. rewrite Hp, (ds_frame_dispatch _ _ _ Hp Hds). simpl.
  apply String.eqb_neq in Hq. rewrite Hq. simpl.
  destruct (empty (filter_like df (qualifier sel))); simpl; [eexists; reflexivity|].
  rewrite Hcol. simpl. unfold first_profile. simpl. rewrite Hlev. simpl.
  eexists; reflexivity.
Qed.

End DatasetMatch.

Lemma narrowing_keeps_labels_witness :
  @match_ reference datasets [SStr "SYS1.PARMLIB"]
  = Ok (with_rows datasets [ mkRow ["SYS1.*"] ["SYS1.*"; "READ"] ]).
Proof.
  rewrite (proj2 (@narrowing_keeps_labels_containing_qualifier reference datasets "DSBD_"
                    "SYS1.PARMLIB"
                    (fun r => Py.contains (qualifier "SYS1.PARMLIB") (label_text (label r)))
                    ltac:(vm_compute; discriminate)
                    (fun r => contains_spec _ _))
             eq_refl eq_refl).
  reflexivity.
Defined.

(** C5, as stated, fails: the queried name [SYS1.SYS1.PARMLIB] has the
    qualifier [SYS1.]; the profile [*.SYS1.PARMLIB] holds it without
    starting with it, is kept by the narrowing, and is the answer of
    [match], ahead of [SYS1.SYS1.*], the one profile of the table that
    starts with the qualifier. *)
Lemma narrowing_keeps_inner_qualifier :
  qualifier "SYS1.SYS1.PARMLIB" = "SYS1."
  /\ String.prefix "SYS1." "*.SYS1.PARMLIB" = false
  /\ @match_ reference generics [SStr "SYS1.SYS1.PARMLIB"]
     = Ok (with_rows generics [ mkRow ["*.SYS1.PARMLIB"] ["*.SYS1.PARMLIB"; "READ"] ])
  /\ (forall frames,
        @ds_name reference generics "DSBD_" frames (SStr "SYS1.SYS1.PARMLIB")
        = Ok (frames
              ++ [ with_rows generics
                     [ mkRow ["*.SYS1.PARMLIB"] ["*.SYS1.PARMLIB"; "READ"] ] ])).
Proof. repeat split. Qed.

Lemma match_dataset_argument_errors_witness :
  @match_ reference datasets [] = Raise (TypeError msg_ds_arity)
  /\ @match_ reference datasets [SStr "NODOTS"] = Raise (ValueError (msg_unqualified "NODOTS"))
  /\ @match_ reference datasets [SList ["SYS1.PARMLIB"; "NODOTS"; "SYS1.PROCLIB"]]
     = Raise (ValueError (msg_unqualified "NODOTS")).
Proof.
  pose proof (@match_dataset_argument_errors reference datasets "DSBD_" eq_refl eq_refl)
    as [Harity [Hone Hlist]].
  assert (Hno : ~ In "."%char (list_ascii_of_string "NODOTS")).
  { simpl. intros H. repeat (destruct H as [H|H]; [discriminate H|]). exact H. }
  split; [|split].
  - apply Harity. simpl. lia.
  - apply Hone. exact Hno.
  - eapply (Hlist ["SYS1.PARMLIB"] "NODOTS" ["SYS1.PROCLIB"]); [exact Hno | reflexivity].
Defined.

Lemma match_permits_without_profile_witness :
  @match_ reference permits [SStr "SYS1.PROCLIB"] = Raise IndexError.
Proof.
  apply (@match_permits_without_profile_raises reference permits "DSACC_" "SYS1.PROCLIB"
           ["SYS1.PARMLIB"; "SYS1.PARMLIB"]); try reflexivity.
  - simpl. lia.
  - discriminate.
  - intros x Hx. simpl in Hx. destruct Hx as [<-|[<-|[]]]; reflexivity.
Defined.

(** ** The resolver on general resource frames *)

Section ResourceMatch.

Context {ext : Collaborators}.

Lemma gr_frame_dispatch (df : DataFrame) (prefix : string) (selection : list sel) :
  substring 0 2 prefix = "GR" ->
  match_frames df prefix selection
  = (s <- gr_start df selection ;;
     if negb (empty (fst s)) then
       st <- fold_result (gr_name (fst s) prefix) ([], None) (listMe (snd s)) ;;
       Ok (Some (fst st))
     else Ok (Some [])).
Proof. intros H. unfold match_frames. rewrite H. reflexivity. Qed.

(** C10: on a general resource frame, when the class argument narrows the
    table to an empty slice, [match] returns the zero-row frame of the
    schema of the table, whatever stands in the place of the resource name. *)
Theorem match_empty_class_slice (df start : DataFrame) (prefix : string) (cls names : sel) :
  _fieldPrefix df = Text prefix -> substring 0 2 prefix = "GR" ->
  match cls with SStr c => find df c | _ => loc_key df cls end = Ok start ->
  empty start = true ->
  match_ df [cls; names] = Ok (with_rows df []).
Proof.
  intros Hp Hgr Hstart Hempty.
  unfold match_. rewrite Hp, (gr_frame_dispatch _ _ _ Hgr).
  unfold gr_start. rewrite Hstart. simpl. rewrite Hempty. reflexivity.
Qed.

End ResourceMatch.

Lemma match_empty_class_slice_witness :
  @match_ reference facility [SStr "DASDVOL"; SNone] = Ok (with_rows facility [])
  /\ @match_ reference facility [SStr "DASDVOL"; SList ["BPX.SUPERUSER"; "IRR.LISTUSER"]]
     = Ok (with_rows facility []).
Proof.
  split.
  - apply (@match_empty_class_slice reference facility (with_rows facility []) "GRBD_"
             (SStr "DASDVOL") SNone); reflexivity.
  - apply (@match_empty_class_slice reference facility (with_rows facility []) "GRBD_"
             (SStr "DASDVOL") (SList ["BPX.SUPERUSER"; "IRR.LISTUSER"])); reflexivity.
Defined.

(** *** Class-scoped precedence *)

Section Precedence.

Context {ext : Collaborators}.

Lemma unpack2_levels (lab : list string) :
  2 <= List.length lab ->
  unpack2 lab = Ok (nth 0 lab EmptyString, nth 1 lab EmptyString).
Proof.
  destruct lab as [|a [|b lab]]; simpl; try lia. intros _.
  destruct a as [|c [|c' a]]; reflexivity.
Qed.

(** The walk from a state in which [prevResource] is bound: it answers,
    and the answer at a position compares the resource name with the one
    that opened the run of the position, or with [prevResource] when the
    run continues the class the walk came in with. *)
Lemma walk_bound (M : list Row) :
  (forall r, In r M -> 2 <= List.length (label r)) ->
  forall pc pr, exists K fin,
    walk (map label M) pc (Some pr) = Ok (K, fin)
    /\ List.length K = List.length M
    /\ forall i j, i < List.length M -> j <= i ->
         (forall k, j <= k <= i ->
            class_of (nth k M no_row) = class_of (nth i M no_row)) ->
         (0 < j -> class_of (nth (j - 1) M no_row) <> class_of (nth i M no_row) ->
            nth i K false
            = String.eqb (resource_of (nth i M no_row)) (resource_of (nth j M no_row)))
         /\ (j = 0 ->
               nth i K false
               = String.eqb (resource_of (nth i M no_row))
                   (if String.eqb (class_of (nth 0 M no_row)) pc then pr
                    else resource_of (nth 0 M no_row))).
Proof.
  induction M as [|x M IH]; intros Hlev pc pr.
  - exists [], (Some pr). simpl. repeat split; intros; lia.
  - assert (Hx : unpack2 (label x) = Ok (class_of x, resource_of x)).
    { apply unpack2_levels, Hlev. left. reflexivity. }
    assert (HM : forall r, In r M -> 2 <= List.length (label r)).
    { intros r Hr. apply Hlev. right. exact Hr. }
    cbn [map walk]. rewrite Hx. cbn [bind fst snd].
    destruct (String.eqb (class_of x) pc) eqn:E; cbn [negb].
    + destruct (IH HM pc pr) as [K [fin [Hw [Hlen Hpos]]]].
      rewrite Hw. cbn [bind fst snd]. rewrite E. cbn [andb].
      exists (String.eqb (resource_of x) pr :: K), fin.
      split; [reflexivity|]. split; [simpl; lia|].
      intros i j Hi Hj Hrun. destruct i as [|i].
      * assert (j = 0) by lia. subst j. split; [lia|]. intros _. simpl. rewrite E. reflexivity.
      * simpl in Hi. destruct j as [|j].
        -- split; [lia|]. intros _. cbn [nth]. rewrite E.
           destruct (Hpos i 0 ltac:(lia) ltac:(lia)) as [_ H0].
           { intros k Hk. apply (Hrun (S k)). lia. }
           rewrite (H0 eq_refl).
           assert (Hc : class_of (nth 0 M no_row) = class_of x).
           { pose proof (Hrun 1 ltac:(lia)) as H1. pose proof (Hrun 0 ltac:(lia)) as H2.
             cbn [nth] in H1, H2. congruence. }
           rewrite Hc, E. reflexivity.
        -- split; [|lia]. intros _ Hne. cbn [nth].
           destruct (Hpos i j ltac:(lia) ltac:(lia)) as [Hpos1 Hpos0].
           { intros k Hk. apply (Hrun (S k)). lia. }
           destruct j as [|j].
           ++ rewrite (Hpos0 eq_refl).
              assert (Hc : class_of (nth 0 M no_row) = class_of (nth i M no_row)).
              { apply (Hrun 1 ltac:(lia)). }
              simpl in Hne. rewrite Hc.
              apply String.eqb_eq in E.
              destruct (String.eqb_spec (class_of (nth i M no_row)) pc) as [E'|E'];
                [congruence | reflexivity].
           ++ apply Hpos1; [lia|]. simpl in Hne. simpl. rewrite Nat.sub_0_r. exact Hne.
    + destruct (IH HM (class_of x) (resource_of x)) as [K [fin [Hw [Hlen Hpos]]]].
      rewrite Hw. cbn [bind fst snd]. rewrite !String.eqb_refl. cbn [andb].
      exists (true :: K), fin.
      split; [reflexivity|]. split; [simpl; lia|].
      intros i j Hi Hj Hrun. destruct i as [|i].
      * assert (j = 0) by lia. subst j. split; [lia|]. intros _. simpl. rewrite E.
        symmetry. apply String.eqb_refl.
      * simpl in Hi. destruct j as [|j].
        -- split; [lia|]. intros _. cbn [nth]. rewrite E.
           destruct (Hpos i 0 ltac:(lia) ltac:(lia)) as [_ H0].
           { intros k Hk. apply (Hrun (S k)). lia. }
           rewrite (H0 eq_refl).
           assert (Hc : class_of (nth 0 M no_row) = class_of x).
           { pose proof (Hrun 1 ltac:(lia)) as H1. pose proof (Hrun 0 ltac:(lia)) as H2.
             cbn [nth] in H1, H2. congruence. }
           rewrite Hc, String.eqb_refl. reflexivity.
        -- split; [|lia]. intros _ Hne. cbn [nth].
           destruct (Hpos i j ltac:(lia) ltac:(lia)) as [Hpos1 Hpos0].
           { intros k Hk. apply (Hrun (S k)). lia. }
           destruct j as [|j].
           ++ rewrite (Hpos0 eq_refl).
              assert (Hc : class_of (nth 0 M no_row) = class_of (nth i M no_row)).
              { apply (Hrun 1 ltac:(lia)). }
              simpl in Hne. rewrite Hc.
              destruct (String.eqb_spec (class_of (nth i M no_row)) (class_of x)) as [E'|E'];
                [congruence | reflexivity].
           ++ apply Hpos1; [lia|]. simpl in Hne. simpl. rewrite Nat.sub_0_r. exact Hne.
Qed.

End Precedence.

Lemma select_mask_In_nth {A : Type} (d : A) (K : list bool) (M : list A) (r : A) :
  In r (select_mask K M) ->
  exists i, i < List.length M /\ nth i M d = r /\ nth i K false = true.
Proof.
  revert M. induction K as [|b K IH]; intros [|x M]; simpl; try contradiction.
  destruct b.
  - intros [<-|H].
    + exists 0. repeat split. lia.
    + destruct (IH _ H) as [i [Hi [Hn Hk]]]. exists (S i). repeat split; [lia | exact Hn | exact Hk].
  - intros H. destruct (IH _ H) as [i [Hi [Hn Hk]]].
    exists (S i). repeat split; [lia | exact Hn | exact Hk].
Qed.

Lemma select_mask_nth_In {A : Type} (d : A) (K : list bool) (M : list A) (i : nat) :
  i < List.length M -> nth i K false = true -> In (nth i M d) (select_mask K M).
Proof.
  revert M i. induction K as [|b K IH]; intros M i Hi Hk.
  - destruct i; discriminate Hk.
  - destruct M as [|x M]; [simpl in Hi; lia|].
    destruct i as [|i]; simpl in *.
    + subst b. left. reflexivity.
    + destruct b; [right|]; apply IH; try assumption; lia.
Qed.

Lemma find_at {A : Type} (d : A) (f : A -> bool) (M : list A) (j : nat) :
  j < List.length M ->
  (forall a, a < j -> f (nth a M d) = false) ->
  f (nth j M d) = true ->
  List.find f M = Some (nth j M d).
Proof.
  revert j. induction M as [|x M IH]; intros j Hj Hbefore Hat; simpl in *; [lia|].
  destruct j as [|j].
  - rewrite Hat. reflexivity.
  - rewrite (Hbefore 0 ltac:(lia)). apply IH; [lia | | exact Hat].
    intros a Ha. apply (Hbefore (S a)). lia.
Qed.

Lemma leads_exists (M : list Row) (i : nat) :
  i < List.length M -> exists j, leads M j i.
Proof.
  induction i as [|i IH]; intros Hi.
  - exists 0. split; [lia|]. split; [|left; reflexivity].
    intros k Hk. replace k with 0 by lia. reflexivity.
  - destruct (string_dec (class_of (nth i M no_row)) (class_of (nth (S i) M no_row))) as [E|E].
    + destruct (IH ltac:(lia)) as [j [Hj [Hrun Hstart]]].
      exists j. split; [lia|]. split.
      * intros k Hk. destruct (Nat.eq_dec k (S i)) as [->|Hne]; [reflexivity|].
        rewrite <- E. apply Hrun. lia.
      * destruct Hstart as [->|Hs]; [left; reflexivity | right; rewrite <- E; exact Hs].
    + exists (S i). split; [lia|]. split.
      * intros k Hk. replace k with (S i) by lia. reflexivity.
      * right. simpl. rewrite Nat.sub_0_r. exact E.
Qed.

(** In a list grouped by class the run of a position starts at the first
    row of its class. *)
Lemma leads_first_in_class (M : list Row) (j i : nat) :
  grouped_by_class M -> leads M j i ->
  first_in_class (class_of (nth i M no_row)) M = Some (nth j M no_row).
Proof.
  intros Hg [Hj [Hrun Hstart]]. unfold first_in_class.
  apply find_at with (d := no_row).
  - lia.
  - intros a Ha. apply String.eqb_neq. intros E.
    destruct Hstart as [->|Hs]; [lia|]. apply Hs.
    apply (Hg a (j - 1) i); [lia | lia | exact E].
  - apply String.eqb_eq. apply Hrun. lia.
Qed.

Section FirstProfile.

Context {ext : Collaborators}.

(** The walk as [match] starts it, with [prevResource] unbound. *)
Lemma walk_unbound (M : list Row) (K : list bool) (fin : option string) :
  (forall r, In r M -> 2 <= List.length (label r)) ->
  walk (map label M) EmptyString None = Ok (K, fin) ->
  List.length K = List.length M
  /\ forall j i, leads M j i ->
       nth i K false
       = String.eqb (resource_of (nth i M no_row)) (resource_of (nth j M no_row)).
Proof.
  intros Hlev Hw. destruct M as [|x M].
  - simpl in Hw. injection Hw as <- _. split; [reflexivity|].
    intros j i [Hj _]. simpl in Hj. lia.
  - assert (Hx : unpack2 (label x) = Ok (class_of x, resource_of x)).
    { apply unpack2_levels, Hlev. left. reflexivity. }
    destruct (String.eqb (class_of x) EmptyString) eqn:E.
    + cbn [map walk] in Hw. rewrite Hx in Hw. cbn [bind fst snd] in Hw.
      rewrite E in Hw. discriminate Hw.
    + assert (Hsame : walk (map label (x :: M)) EmptyString None
                      = walk (map label (x :: M)) EmptyString (Some EmptyString)).
      { cbn [map walk]. rewrite Hx. cbn [bind fst snd]. rewrite E. reflexivity. }
      destruct (walk_bound (x :: M) Hlev EmptyString EmptyString) as [K' [fin' [Hw' [Hlen Hpos]]]].
      rewrite Hsame, Hw' in Hw. injection Hw as <- <-.
      split; [exact Hlen|].
      intros j i [Hj [Hrun Hstart]].
      destruct (Hpos i j ltac:(lia) ltac:(lia) Hrun) as [Hpos1 Hpos0].
      destruct Hstart as [->|Hs].
      * rewrite (Hpos0 eq_refl). cbn [nth]. rewrite E. reflexivity.
      * destruct j as [|j]; [|apply Hpos1; [lia | exact Hs]].
        rewrite (Hpos0 eq_refl). cbn [nth]. rewrite E. reflexivity.
Qed.

(** C3: for one queried name on a general resource frame, [match] returns
    the matching rows that carry the resource name of the row opening their
    run of consecutive matching rows of one class.  When the matching rows
    are grouped by class, every returned row therefore has the resource
    name of the first matching row of its class, and no row of another
    profile of that class is returned, which is what the comment of line
    191 announces.  The walk remembers the class of the row before only:
    every row that opens a run is returned, so a class met again after
    rows of another class is given a first profile once more. *)
Theorem match_keeps_first_profile_of_each_run (df start out : DataFrame)
    (prefix name : string) (selection : list sel) (queried : sel) (names : list string) :
  _fieldPrefix df = Text prefix -> substring 0 2 prefix = "GR" ->
  gr_start df selection = Ok (start, queried) ->
  listMe queried = [SStr name] ->
  (forall r, In r (rows start) -> 2 <= List.length (label r)) ->
  column start (prefix ++ "NAME") = Ok names ->
  match_ df selection = Ok out ->
  let M := select_mask (name_mask names name) (rows start) in
  exists K,
    List.length K = List.length M
    /\ rows out = select_mask K M
    /\ (forall j i, leads M j i ->
          nth i K false
          = String.eqb (resource_of (nth i M no_row)) (resource_of (nth j M no_row)))
    /\ (grouped_by_class M ->
        forall r, In r (rows out) ->
          exists f, first_in_class (class_of r) M = Some f
                    /\ resource_of r = resource_of f)
    /\ (forall j, leads M j j -> In (nth j M no_row) (rows out)).
Proof.
  intros Hp Hgr Hstart Hone Hlev Hcol Hm M.
  assert (HlevM : forall r, In r M -> 2 <= List.length (label r)).
  { intros r Hr. apply Hlev. apply (select_mask_incl _ _ _ Hr). }
  assert (Hcore : exists K, List.length K = List.length M /\ rows out = select_mask K M
            /\ forall j i, leads M j i ->
                 nth i K false
                 = String.eqb (resource_of (nth i M no_row)) (resource_of (nth j M no_row))).
  { unfold match_ in Hm. rewrite Hp, (gr_frame_dispatch _ _ _ Hgr), Hstart in Hm.
    cbn [bind fst snd] in Hm. rewrite Hone in Hm.
    destruct (empty start) eqn:Hempty; cbn [negb] in Hm.
    - cbn [bind] in Hm. injection Hm as <-.
      assert (HM : M = []).
      { unfold M. unfold empty in Hempty. apply orb_true_iff in Hempty as [H|H].
        - apply Nat.eqb_eq, length_zero_iff_nil in H. rewrite H. apply select_mask_nil.
        - apply Nat.eqb_eq, length_zero_iff_nil in H. unfold column in Hcol.
          rewrite H in Hcol. discriminate Hcol. }
      exists []. rewrite HM. repeat split. intros j i [Hj _]. simpl in Hj. lia.
    - cbn [fold_result] in Hm. unfold gr_name in Hm. rewrite Hcol in Hm.
      cbn [bind fst snd] in Hm. fold M in Hm.
      change (rows (loc_mask start (name_mask names name))) with M in Hm.
      destruct (walk (map label M) EmptyString None) as [[K fin]|e] eqn:Hw;
        cbn [bind fst snd app] in Hm; [|discriminate Hm].
      injection Hm as <-.
      destruct (walk_unbound M K fin HlevM Hw) as [Hlen Hpos].
      exists K. repeat split; [exact Hlen | exact Hpos]. }
  destruct Hcore as [K [Hlen [Hout Hpos]]].
  exists K. split; [exact Hlen|]. split; [exact Hout|]. split; [exact Hpos|]. split.
  - intros Hg r Hr. rewrite Hout in Hr.
    destruct (select_mask_In_nth no_row K M r Hr) as [i [Hi [Hn Hk]]].
    destruct (leads_exists M i Hi) as [j Hj].
    exists (nth j M no_row). split.
    + rewrite <- Hn. apply leads_first_in_class; assumption.
    + rewrite (Hpos j i Hj) in Hk. apply String.eqb_eq in Hk. rewrite <- Hn. exact Hk.
  - intros j Hj. rewrite Hout. apply select_mask_nth_In.
    + destruct Hj as [Hj _]. lia.
    + rewrite (Hpos j j Hj). apply String.eqb_refl.
Qed.

End FirstProfile.

Lemma match_keeps_first_profile_witness :
  (exists f, first_in_class "FACILITY" (rows facility) = Some f
             /\ "BPX.*" = resource_of f)
  /\ (exists f, first_in_class "XFACILIT" (rows facility) = Some f
                /\ "BPX.SUPERUSER" = resource_of f).
Proof.
  assert (Hlev : forall r, In r (rows facility) -> 2 <= List.length (label r)).
  { intros r Hr. simpl in Hr. destruct Hr as [<-|[<-|[<-|[]]]]; simpl; lia. }
  destruct (@match_keeps_first_profile_of_each_run reference facility facility
              (with_rows facility
                 [ mkRow ["FACILITY"; "BPX.*"] ["FACILITY"; "BPX.*"; "NONE"];
                   mkRow ["XFACILIT"; "BPX.SUPERUSER"] ["XFACILIT"; "BPX.SUPERUSER"; "NONE"] ])
              "GRBD_" "BPX.SUPERUSER" [SList ["BPX.SUPERUSER"]] (SList ["BPX.SUPERUSER"])
              ["BPX.*"; "BPX.SUPERUSER"; "BPX.SUPERUSER"]
              eq_refl eq_refl eq_refl eq_refl Hlev eq_refl eq_refl)
    as [K [_ [_ [_ [Hgrouped _]]]]].
  assert (Hg : grouped_by_class (rows facility)).
  { intros a b c Hab Hc. simpl in Hc.
    destruct a as [|[|[|a]]], b as [|[|[|b]]], c as [|[|[|c]]];
      try lia; simpl; intros E; try reflexivity; try discriminate E. }
  split.
  - apply (Hgrouped Hg (mkRow ["FACILITY"; "BPX.*"] ["FACILITY"; "BPX.*"; "NONE"])).
    simpl. left. reflexivity.
  - apply (Hgrouped Hg
             (mkRow ["XFACILIT"; "BPX.SUPERUSER"] ["XFACILIT"; "BPX.SUPERUSER"; "NONE"])).
    simpl. right. left. reflexivity.
Defined.

(** C3, where the code fails: on a table whose rows are not grouped by
    class the class FACILITY is met twice, the walk takes a first profile
    each time, and the answer holds both [BPX.*] and [BPX.SUPERUSER] of
    that class. *)
Lemma match_returns_two_profiles_of_a_class :
  @match_ reference interleaved [SStr "BPX.SUPERUSER"] = Ok interleaved
  /\ In (mkRow ["FACILITY"; "BPX.*"] ["FACILITY"; "BPX.*"; "NONE"]) (rows interleaved)
  /\ In (mkRow ["FACILITY"; "BPX.SUPERUSER"] ["FACILITY"; "BPX.SUPERUSER"; "READ"])
        (rows interleaved).
Proof.
  split; [reflexivity|]. split; simpl; auto.
Qed.

(** ** Lists with members left out *)

Lemma subseq_refl {A : Type} (l : list A) : subseq l l.
Proof. induction l; [apply subseq_nil | apply subseq_keep; assumption]. Qed.

Lemma subseq_nil_l {A : Type} (l : list A) : subseq [] l.
Proof. induction l; constructor; assumption. Qed.

Lemma subseq_trans {A : Type} (a b c : list A) : subseq a b -> subseq b c -> subseq a c.
Proof.
  intros Hab Hbc. revert a Hab.
  induction Hbc as [|x b c _ IH|x b c _ IH]; intros a Hab.
  - exact Hab.
  - constructor. apply IH. exact Hab.
  - inversion Hab; subst; [apply subseq_skip | apply subseq_keep]; apply IH; assumption.
Qed.

Lemma subseq_incl {A : Type} (s l : list A) : subseq s l -> incl s l.
Proof.
  induction 1 as [|x s l _ IH|x s l _ IH].
  - apply incl_refl.
  - apply incl_tl. exact IH.
  - apply incl_cons; [left; reflexivity | apply incl_tl; exact IH].
Qed.

Lemma subseq_select_mask {A : Type} (k : list bool) (l : list A) : subseq (select_mask k l) l.
Proof.
  revert l. induction k as [|b k IH]; intros [|x l]; simpl; try apply subseq_nil_l.
  destruct b; [apply subseq_keep | apply subseq_skip]; apply IH.
Qed.

Lemma subseq_filter {A : Type} (f : A -> bool) (l : list A) : subseq (filter f l) l.
Proof. rewrite <- select_mask_map. apply subseq_select_mask. Qed.

Lemma subseq_firstn {A : Type} (n : nat) (l : list A) : subseq (firstn n l) l.
Proof.
  revert l. induction n as [|n IH]; intros [|x l]; simpl; try apply subseq_nil_l.
  apply subseq_keep. apply IH.
Qed.

Lemma within_trans (a b c : list Row) : within a b -> within b c -> within a c.
Proof. intros H1 H2 r. eapply Nat.le_trans; [apply H1 | apply H2]. Qed.

Lemma subseq_within (s l : list Row) : subseq s l -> within s l.
Proof.
  induction 1 as [|x s l _ IH|x s l _ IH]; intros r.
  - apply Nat.le_refl.
  - specialize (IH r). simpl. destruct (row_eq_dec x r); lia.
  - specialize (IH r). simpl. destruct (row_eq_dec x r); lia.
Qed.

Lemma within_In (rs l : list Row) (r : Row) : within rs l -> In r rs -> In r l.
Proof.
  intros H Hr. apply (count_occ_In row_eq_dec) in Hr. apply (count_occ_In row_eq_dec).
  specialize (H r). lia.
Qed.

(** ** Duplicate rows *)

Lemma seen_cells (c : list string) (seen : list (list string)) :
  existsb (cells_eqb c) seen = true <-> In c seen.
Proof.
  rewrite existsb_exists. split.
  - intros [x [Hx E]]. unfold cells_eqb in E. apply strs_eqb_eq in E. subst x. exact Hx.
  - intros H. exists c. split; [exact H | apply strs_eqb_eq; reflexivity].
Qed.

Lemma dedup_unseen (seen : list (list string)) (l : list Row) (r : Row) :
  In r (dedup seen l) -> In r l /\ ~ In (cells r) seen.
Proof.
  revert seen. induction l as [|x l IH]; intros seen; simpl; [contradiction|].
  destruct (existsb (cells_eqb (cells x)) seen) eqn:E.
  - intros H. destruct (IH _ H) as [H1 H2]. split; [right; exact H1 | exact H2].
  - intros [<-|H].
    + split; [left; reflexivity|]. intros Hin. apply seen_cells in Hin. congruence.
    + destruct (IH _ H) as [H1 H2]. split; [right; exact H1|].
      intros Hin. apply H2. right. exact Hin.
Qed.

(** What [drop_duplicates] leaves has no row twice. *)
Lemma dedup_NoDup (seen : list (list string)) (l : list Row) : NoDup (dedup seen l).
Proof.
  revert seen. induction l as [|x l IH]; intros seen; simpl; [constructor|].
  destruct (existsb (cells_eqb (cells x)) seen); [apply IH|].
  constructor; [|apply IH].
  intros H. apply dedup_unseen in H as [_ H]. apply H. left. reflexivity.
Qed.

Lemma dedup_within (seen : list (list string)) (l rs : list Row) :
  incl l rs -> within (dedup seen l) rs.
Proof.
  intros Hin r.
  pose proof (proj1 (NoDup_count_occ row_eq_dec (dedup seen l)) (dedup_NoDup seen l) r) as H1.
  destruct (count_occ row_eq_dec (dedup seen l) r) as [|n] eqn:E; [lia|].
  assert (Hr : In r (dedup seen l)) by (apply (count_occ_In row_eq_dec); lia).
  apply dedup_unseen in Hr as [Hr _]. apply Hin in Hr.
  apply (count_occ_In row_eq_dec) in Hr. lia.
Qed.

(** ** Results are drawn from the input *)

Lemma with_rows_rows (df : DataFrame) : with_rows df (rows df) = df.
Proof. destruct df; reflexivity. Qed.

Lemma narrows_refl (df : DataFrame) : narrows df df.
Proof. split; [symmetry; apply with_rows_rows | apply subseq_refl]. Qed.

Lemma narrows_with_rows (df : DataFrame) (rs : list Row) :
  subseq rs (rows df) -> narrows df (with_rows df rs).
Proof. intros H. split; [reflexivity | exact H]. Qed.

Lemma narrows_trans (a b c : DataFrame) : narrows a b -> narrows b c -> narrows a c.
Proof.
  intros [Hb Hab] [Hc Hbc]. split.
  - rewrite Hc at 1. rewrite Hb. reflexivity.
  - eapply subseq_trans; eassumption.
Qed.

Lemma narrows_loc_mask (df : DataFrame) (m : list bool) : narrows df (loc_mask df m).
Proof. apply narrows_with_rows, subseq_select_mask. Qed.

Lemma narrows_filter (df : DataFrame) (f : Row -> bool) :
  narrows df (with_rows df (filter f (rows df))).
Proof. apply narrows_with_rows, subseq_filter. Qed.

Lemma narrows_head (df : DataFrame) (n : nat) : narrows df (head n df).
Proof. apply narrows_with_rows, subseq_firstn. Qed.


Lemma narrows_picks (df out : DataFrame) : narrows df out -> picks df out.
Proof. intros [Heq Hs]. split; [exact Heq | apply subseq_within; exact Hs]. Qed.

Lemma picks_narrows (a b c : DataFrame) : picks a b -> narrows b c -> picks a c.
Proof.
  intros [Hb Hab] [Hc Hbc]. split.
  - rewrite Hc at 1. rewrite Hb. reflexivity.
  - eapply within_trans; [apply subseq_within; exact Hbc | exact Hab].
Qed.

Lemma picks_drawn (fresh : attribute) (df out : DataFrame) :
  picks df out -> drawn_from fresh df out.
Proof.
  intros [Heq Hw].
  split; [rewrite Heq; reflexivity|]. split; [rewrite Heq; reflexivity|].
  split; [exact Hw | left; rewrite Heq; reflexivity].
Qed.

Lemma narrows_drawn (fresh : attribute) (df out : DataFrame) :
  narrows df out -> drawn_from fresh df out.
Proof. intros H. apply picks_drawn, narrows_picks. exact H. Qed.

Lemma drawn_from_trans (fresh : attribute) (a b c : DataFrame) :
  drawn_from fresh a b -> drawn_from fresh b c -> drawn_from fresh a c.
Proof.
  intros [Hi1 [Hc1 [Hw1 Hp1]]] [Hi2 [Hc2 [Hw2 Hp2]]].
  split; [congruence|]. split; [congruence|].
  split; [eapply within_trans; eassumption|].
  destruct Hp2 as [Hp2|Hp2]; [|right; exact Hp2].
  destruct Hp1 as [Hp1|Hp1]; [left | right]; congruence.
Qed.

(** The concatenation of frames taken from [df], duplicates dropped, is
    drawn from [df]. *)
Lemma concat_drawn (fresh : attribute) (df f : DataFrame) (fs : list DataFrame) :
  Forall (picks df) (f :: fs) ->
  drawn_from fresh df (drop_duplicates (concat fresh df (f :: fs))).
Proof.
  intros H.
  assert (Hrows : incl (flat_map rows (f :: fs)) (rows df)).
  { intros r Hr. apply in_flat_map in Hr as [g [Hg Hr]].
    rewrite Forall_forall in H. apply (within_In _ _ _ (proj2 (H g Hg))). exact Hr. }
  assert (Hf : picks df f) by (inversion H; assumption).
  destruct (picks_drawn fresh _ _ Hf) as [Hi [Hc _]].
  split; [exact Hi|]. split; [exact Hc|].
  split; [|right; reflexivity].
  apply dedup_within. exact Hrows.
Qed.

Lemma fold_result_invariant {S A : Type} (P : S -> Prop) (f : S -> A -> outcome S) (l : list A) :
  (forall s x s', P s -> f s x = Ok s' -> P s') ->
  forall s s', P s -> fold_result f s l = Ok s' -> P s'.
Proof.
  intros Hstep. induction l as [|x l IH]; intros s s' Hs H; simpl in H.
  - injection H as <-. exact Hs.
  - apply bind_ok in H as [s1 [H1 H2]]. eapply IH; [|exact H2]. eapply Hstep; eassumption.
Qed.

Section Views.

Context {ext : Collaborators}.

Lemma first_profile_narrows (df out : DataFrame) :
  first_profile df = Ok out -> narrows df out.
Proof.
  unfold first_profile. destruct (List.length (index_names df) =? 1)%nat.
  - intros H. injection H as <-. apply narrows_head.
  - destruct (rows df) as [|r rs] eqn:Hr; [discriminate|].
    destruct (label r) as [|key lab]; [discriminate|].
    intros H. injection H as <-. apply narrows_filter.
Qed.

Lemma ds_name_narrows (df : DataFrame) (prefix : string) (frames frames' : list DataFrame)
    (v : sel) :
  Forall (narrows df) frames -> ds_name df prefix frames v = Ok frames' ->
  Forall (narrows df) frames'.
Proof.
  intros Hf. unfold ds_name. destruct v as [|sel| |]; try discriminate.
  destruct (negb (String.eqb (qualifier sel) EmptyString)); [|discriminate].
  destruct (negb (empty (filter_like df (qualifier sel)))).
  - intros H. apply bind_ok in H as [names [_ H]].
    apply bind_ok in H as [picked [Hp H]]. injection H as <-.
    apply Forall_app. split; [exact Hf|]. constructor; [|constructor].
    eapply narrows_trans; [apply narrows_filter|].
    eapply narrows_trans; [apply narrows_loc_mask|].
    apply first_profile_narrows. exact Hp.
  - intros H. injection H as <-. exact Hf.
Qed.

Lemma gr_name_picks (df start : DataFrame) (prefix : string)
    (st st' : list DataFrame * option string) (v : sel) :
  picks df start -> Forall (picks df) (fst st) ->
  gr_name start prefix st v = Ok st' -> Forall (picks df) (fst st').
Proof.
  intros Hs Hf. unfold gr_name. intros H. apply bind_ok in H as [names [_ H]].
  destruct v as [|sel| |]; try discriminate.
  apply bind_ok in H as [w [_ H]]. injection H as <-. cbn [fst].
  apply Forall_app. split; [exact Hf|]. constructor; [|constructor].
  eapply picks_narrows; [exact Hs|].
  eapply narrows_trans; apply narrows_loc_mask.
Qed.

(** The frames [match] collects are rows picked from the table, as soon as
    the slice of the class argument is. *)
Lemma match_frames_picks (df : DataFrame) (prefix : string) (selection : list sel)
    (frames : list DataFrame) :
  (forall start names, gr_start df selection = Ok (start, names) -> picks df start) ->
  match_frames df prefix selection = Ok (Some frames) ->
  Forall (picks df) frames.
Proof.
  intros Hstart. unfold match_frames.
  destruct (String.eqb (substring 0 2 prefix) "DS").
  - destruct selection as [|names [|? ?]]; try discriminate.
    intros H. apply bind_ok in H as [fs [Hfold H]]. injection H as <-.
    apply (Forall_impl (picks df) (narrows_picks df)).
    revert Hfold. apply fold_result_invariant; [|constructor].
    intros s x s' Hs Hx. eapply ds_name_narrows; eassumption.
  - destruct (String.eqb (substring 0 2 prefix) "GR"); [|discriminate].
    intros H. apply bind_ok in H as [[start names] [Hgs H]]. cbn [fst snd] in H.
    destruct (negb (empty start)).
    + apply bind_ok in H as [st [Hfold H]]. injection H as <-.
      revert Hfold.
      apply (fold_result_invariant (fun st => Forall (picks df) (fst st)));
        [|constructor].
      intros s x s' Hs Hx. eapply gr_name_picks; [eapply Hstart| |]; eassumption.
    + injection H as <-. constructor.
Qed.

Lemma match_drawn (df : DataFrame) (selection : list sel) (out : DataFrame) :
  (forall start names, gr_start df selection = Ok (start, names) -> picks df start) ->
  match_ df selection = Ok out -> drawn_from concat_fieldPrefix df out.
Proof.
  intros Hstart. unfold match_. destruct (_fieldPrefix df) as [| |prefix]; try discriminate.
  intros H. apply bind_ok in H as [frames [Hf H]].
  destruct frames as [frames|]; [|discriminate].
  pose proof (match_frames_picks _ _ _ _ Hstart Hf) as Hall.
  destruct frames as [|f [|g fs]].
  - injection H as <-. apply narrows_drawn, narrows_head.
  - injection H as <-. apply picks_drawn. inversion Hall; assumption.
  - injection H as <-. apply concat_drawn. exact Hall.
Qed.

Lemma apply_result_narrows (df : DataFrame) (exclude : bool) (st : fstate) (res : list bool) :
  narrows df (cur st) -> narrows df (cur (apply_result exclude st res)).
Proof.
  intros H. unfold apply_result. destruct exclude; cbn [cur]; [exact H|].
  eapply narrows_trans; [exact H | apply narrows_loc_mask].
Qed.

Lemma apply_result_drawn (df : DataFrame) (exclude : bool) (st : fstate) (res : list bool) :
  drawn_from concat_fieldPrefix df (cur st) ->
  drawn_from concat_fieldPrefix df (cur (apply_result exclude st res)).
Proof.
  intros H. unfold apply_result. destruct exclude; cbn [cur]; [exact H|].
  eapply drawn_from_trans; [exact H | apply narrows_drawn, narrows_loc_mask].
Qed.

Lemma index_loop_narrows (df : DataFrame) (regexPattern exclude : bool)
    (selection : list sel) :
  forall st s st', narrows df (cur st) ->
    index_loop regexPattern exclude st s selection = Ok st' -> narrows df (cur st').
Proof.
  induction selection as [|v rest IH]; intros st s st' Hst H; simpl in H.
  - injection H as <-. exact Hst.
  - destruct (negb (sel_in v (skipSelect regexPattern))).
    + apply bind_ok in H as [res [_ H]]. eapply IH; [|exact H].
      apply apply_result_narrows. exact Hst.
    + eapply IH; eassumption.
Qed.

Lemma column_loop_cur (regexPattern : bool) (selection : list sel) :
  forall st s st', column_loop regexPattern st s selection = Ok st' -> cur st' = cur st.
Proof.
  induction selection as [|v rest IH]; intros st s st' H; simpl in H.
  - injection H as <-. reflexivity.
  - destruct (negb (sel_in v (skipSelect regexPattern))).
    + destruct (nth_error (columns (cur st)) s); [|discriminate].
      rewrite (IH _ _ _ H). reflexivity.
    + eapply IH; eassumption.
Qed.

(** The frame the positional values leave is the table with rows left out. *)
Lemma positional_narrows (df : DataFrame) (selection : list sel)
    (useIndex exclude regexPattern : bool) (st0 : fstate) :
  (if useIndex
   then index_loop regexPattern exclude (mkState df (map (fun _ => true) (rows df)) []) 0
          selection
   else column_loop regexPattern (mkState df (map (fun _ => true) (rows df)) []) 0
          selection) = Ok st0 ->
  narrows df (cur st0).
Proof.
  intros H0. destruct useIndex.
  - eapply index_loop_narrows; [|exact H0]. apply narrows_refl.
  - rewrite (column_loop_cur _ _ _ _ _ H0). apply narrows_refl.
Qed.

Lemma kwd_step_drawn (df : DataFrame) (kwdValues : list (string * string))
    (exclude : bool) (st st' : fstate) (kv : string * sel) :
  drawn_from concat_fieldPrefix df (cur st) ->
  kwd_step kwdValues exclude st kv = Ok st' ->
  drawn_from concat_fieldPrefix df (cur st').
Proof.
  intros Hst. unfold kwd_step. destruct (String.eqb (fst kv) "match").
  - intros H. apply bind_ok in H as [supported [_ H]].
    destruct supported; [|discriminate].
    apply bind_ok in H as [m [Hm H]].
    destruct exclude; injection H as <-; cbn [cur]; [exact Hst|].
    eapply drawn_from_trans; [exact Hst|]. eapply match_drawn; [|exact Hm].
    intros start names E. injection E as <- _. apply narrows_picks, narrows_refl.
  - destruct (assoc (fst kv) kwdValues).
    + intros H. injection H as <-. exact Hst.
    + destruct (Py.mem (fst kv) (columns (cur st))).
      * intros H. injection H as <-. exact Hst.
      * intros H. apply bind_ok in H as [found [_ H]].
        destruct found; [|discriminate]. injection H as <-. exact Hst.
Qed.

Lemma column_step_drawn (df : DataFrame) (regexPattern exclude : bool)
    (st st' : fstate) (cs : string * sel) :
  drawn_from concat_fieldPrefix df (cur st) ->
  column_step regexPattern exclude st cs = Ok st' ->
  drawn_from concat_fieldPrefix df (cur st').
Proof.
  intros Hst H. unfold column_step in H. apply bind_ok in H as [res [_ H]].
  injection H as <-. apply apply_result_drawn. exact Hst.
Qed.

Lemma frameFilter_drawn (df : DataFrame) (selection : list sel)
    (kwdValues : list (string * string)) (useIndex exclude regexPattern : bool)
    (kwds : list (string * sel)) (out : DataFrame) :
  _frameFilter df selection kwdValues useIndex exclude regexPattern kwds = Ok out ->
  drawn_from concat_fieldPrefix df out.
Proof.
  unfold _frameFilter. intros H.
  apply bind_ok in H as [st0 [H0 H]]. apply bind_ok in H as [st1 [H1 H]].
  apply bind_ok in H as [st2 [H2 H]].
  assert (N0 : drawn_from concat_fieldPrefix df (cur st0)).
  { apply narrows_drawn. eapply positional_narrows. exact H0. }
  assert (N1 : drawn_from concat_fieldPrefix df (cur st1)).
  { revert H1.
    apply (fold_result_invariant (fun st => drawn_from concat_fieldPrefix df (cur st)));
      [|exact N0].
    intros s x s'. apply kwd_step_drawn. }
  assert (N2 : drawn_from concat_fieldPrefix df (cur st2)).
  { revert H2.
    apply (fold_result_invariant (fun st => drawn_from concat_fieldPrefix df (cur st)));
      [|exact N1].
    intros s x s'. apply column_step_drawn. }
  destruct exclude; injection H as <-; [|exact N2].
  eapply drawn_from_trans; [exact N2 | apply narrows_drawn, narrows_loc_mask].
Qed.

End Views.

(** ** The routines over the store *)

Lemma holds_app (h added : store) (a : ref) (df : DataFrame) :
  holds h a df -> holds (h ++ added) a df.
Proof.
  intros [Hlt Heq]. split.
  - rewrite length_app. lia.
  - unfold deref. rewrite app_nth1; assumption.
Qed.

Lemma holds_new (h : store) (v : DataFrame) : holds (h ++ [v]) (List.length h) v.
Proof.
  split.
  - rewrite length_app. simpl. lia.
  - unfold deref. rewrite app_nth2 by lia. rewrite Nat.sub_diag. reflexivity.
Qed.

Lemma held_app (h added : store) (refs : list ref) (frames : list DataFrame) :
  held h refs frames -> held (h ++ added) refs frames.
Proof.
  unfold held. induction 1; constructor; [apply holds_app|]; assumption.
Qed.

Lemma held_map (h : store) (refs : list ref) (frames : list DataFrame) :
  held h refs frames -> map (deref h) refs = frames.
Proof.
  induction 1 as [|a f refs frames [_ Ha] _ IH]; simpl; [reflexivity|].
  rewrite Ha, IH. reflexivity.
Qed.

Lemma sim_ret {A B : Type} (R : store -> A -> B -> Prop) (h : store) (a : A) (b : B) :
  R h a b -> sim R h (ret a) (Ok b).
Proof. intros H. exists []. cbn. rewrite app_nil_r. split; [reflexivity | exact H]. Qed.

Lemma sim_throw {A B : Type} (R : store -> A -> B -> Prop) (h : store) (e : exn) :
  sim R h (throw e) (Raise e).
Proof. exists []. cbn. rewrite app_nil_r. split; reflexivity. Qed.

(** A computation that starts by adding frames. *)
Lemma sim_after {A B : Type} (R : store -> A -> B -> Prop) (h added : store)
    (m m' : St A) (p : outcome B) :
  m h = m' (h ++ added) -> sim R (h ++ added) m' p -> sim R h m p.
Proof.
  intros E [added' [Hs Ho]]. exists (added ++ added').
  rewrite E, app_assoc. split; assumption.
Qed.

Lemma sim_bind {A B C D : Type} (R : store -> A -> B -> Prop) (Q : store -> C -> D -> Prop)
    (h : store) (m : St A) (p : outcome B) (k : A -> St C) (k' : B -> outcome D) :
  sim R h m p ->
  (forall added a b, p = Ok b -> R (h ++ added) a b -> sim Q (h ++ added) (k a) (k' b)) ->
  sim Q h (bindS m k) (bind p k').
Proof.
  intros [added [Hs Ho]] Hk.
  destruct (m h) as [[a|e] h'] eqn:Hm; cbn [fst snd] in Hs, Ho; subst h'.
  - destruct p as [b|e']; [|contradiction].
    apply (sim_after Q h added (bindS m k) (k a)).
    + unfold bindS. rewrite Hm. reflexivity.
    + exact (Hk added a b eq_refl Ho).
  - destruct p as [b|e']; [contradiction|]. subst e'.
    exists added. unfold bindS. rewrite Hm. cbn. split; reflexivity.
Qed.

Lemma sim_then {A B C D : Type} (R : store -> A -> B -> Prop) (Q : store -> C -> D -> Prop)
    (h : store) (m : St A) (b : B) (k : A -> St C) (p : outcome D) :
  sim R h m (Ok b) ->
  (forall added a, R (h ++ added) a b -> sim Q (h ++ added) (k a) p) ->
  sim Q h (bindS m k) p.
Proof.
  intros Hm Hk.
  apply (sim_bind R Q h m (Ok b) k (fun _ => p) Hm).
  intros added a b' E. injection E as <-. apply Hk.
Qed.

Lemma sim_get {A B : Type} (Q : store -> A -> B -> Prop) (h : store) (a : ref)
    (df : DataFrame) (k : DataFrame -> St A) (p : outcome B) :
  holds h a df -> sim Q h (k df) p -> sim Q h (bindS (get a) k) p.
Proof. intros [_ <-] H. exact H. Qed.

Lemma sim_gets {A B : Type} (Q : store -> A -> B -> Prop) (h : store) (refs : list ref)
    (frames : list DataFrame) (k : list DataFrame -> St A) (p : outcome B) :
  held h refs frames -> sim Q h (k frames) p -> sim Q h (bindS (gets refs) k) p.
Proof.
  intros Hh H. rewrite <- (held_map _ _ _ Hh) in H. exact H.
Qed.

Lemma sim_new {A B : Type} (Q : store -> A -> B -> Prop) (h : store) (v : DataFrame)
    (k : ref -> St A) (p : outcome B) :
  (forall added b, holds (h ++ added) b v -> sim Q (h ++ added) (k b) p) ->
  sim Q h (bindS (new v) k) p.
Proof.
  intros H. apply (sim_after Q h [v] _ (k (List.length h))); [reflexivity|].
  apply H. apply holds_new.
Qed.

Lemma sim_new_last (h : store) (v : DataFrame) : sim holds h (new v) (Ok v).
Proof. exists [v]. cbn. split; [reflexivity | apply holds_new]. Qed.

Lemma sim_lift {A B C : Type} (Q : store -> A -> B -> Prop) (h : store) (r : outcome C)
    (k : C -> St A) (k' : C -> outcome B) :
  (forall x, r = Ok x -> sim Q h (k x) (k' x)) ->
  sim Q h (bindS (lift r) k) (bind r k').
Proof.
  intros H. destruct r as [x|e].
  - exact (H x eq_refl).
  - exact (sim_throw Q h e).
Qed.

Lemma sim_fold {S S' A : Type} (P : store -> Prop) (R : store -> S -> S' -> Prop)
    (f : S -> A -> St S) (g : S' -> A -> outcome S') (l : list A) :
  (forall h added, P h -> P (h ++ added)) ->
  (forall h s s' x, P h -> R h s s' -> sim R h (f s x) (g s' x)) ->
  forall h s s', P h -> R h s s' -> sim R h (foldS f s l) (fold_result g s' l).
Proof.
  intros Hmono Hstep. induction l as [|x l IH]; intros h s s' HP HR; cbn [foldS fold_result].
  - apply sim_ret. exact HR.
  - eapply sim_bind; [apply Hstep; assumption|].
    intros added a b _ Hab. apply IH; [apply Hmono; exact HP | exact Hab].
Qed.

(** What a computation that ends as [p] leaves of the store it found. *)
Lemma sim_run (h : store) (m : St ref) (p : outcome DataFrame) :
  sim holds h m p ->
  (forall b, b < List.length h -> deref (snd (m h)) b = deref h b)
  /\ same_outcome (snd (m h)) (fst (m h)) p.
Proof.
  intros [added [Hs Ho]]. rewrite Hs. split.
  - intros b Hb. unfold deref. apply app_nth1. exact Hb.
  - unfold same_outcome. destruct (fst (m h)), p; exact Ho.
Qed.

Section Store.

Context {ext : Collaborators}.

Lemma first_profile_sim (h : store) (a : ref) (r : DataFrame) :
  holds h a r -> sim holds h (first_profile_s a) (first_profile r).
Proof.
  intros Ha. unfold first_profile_s, first_profile.
  apply (sim_get _ _ _ _ _ _ Ha). cbv beta.
  destruct (List.length (index_names r) =? 1)%nat; [apply sim_new_last|].
  destruct (rows r) as [|x xs]; [apply sim_throw|].
  destruct (label x); [apply sim_throw | apply sim_new_last].
Qed.

Lemma ds_name_sim (h : store) (a : ref) (df : DataFrame) (prefix : string)
    (refs : list ref) (frames : list DataFrame) (v : sel) :
  holds h a df -> held h refs frames ->
  sim held h (ds_name_s a prefix refs v) (ds_name df prefix frames v).
Proof.
  intros Ha Hf. unfold ds_name_s, ds_name.
  destruct v as [|sel| |]; try apply sim_throw.
  cbv zeta.
  destruct (negb (String.eqb (qualifier sel) EmptyString)); [|apply sim_throw].
  apply (sim_get _ _ _ _ _ _ Ha). cbv beta.
  apply sim_new. intros added1 b1 Hb1.
  apply (sim_get _ _ _ _ _ _ Hb1). cbv beta.
  destruct (negb (empty (filter_like df (qualifier sel)))).
  - apply sim_lift. intros names _.
    apply sim_new. intros added2 b2 Hb2.
    eapply sim_bind; [apply first_profile_sim; exact Hb2|].
    intros added3 b3 picked _ Hb3. apply sim_ret.
    apply Forall2_app; [|constructor; [exact Hb3 | constructor]].
    apply held_app, held_app, held_app. exact Hf.
  - apply sim_ret. apply held_app. exact Hf.
Qed.

Lemma gr_name_sim (h : store) (a : ref) (start : DataFrame) (prefix : string)
    (refs : list ref) (frames : list DataFrame) (pr : option string) (v : sel) :
  holds h a start -> held h refs frames ->
  sim (fun h' s s' => held h' (fst s) (fst s') /\ snd s = snd s') h
      (gr_name_s a prefix (refs, pr) v) (gr_name start prefix (frames, pr) v).
Proof.
  intros Ha Hf. unfold gr_name_s, gr_name. cbn [fst snd].
  apply (sim_get _ _ _ _ _ _ Ha). cbv beta.
  apply sim_lift. intros names _.
  destruct v as [|sel| |]; try apply sim_throw.
  cbv zeta.
  apply sim_new. intros added1 b1 Hb1.
  apply (sim_get _ _ _ _ _ _ Hb1). cbv beta.
  apply sim_lift. intros w _.
  apply sim_new. intros added2 b2 Hb2.
  apply sim_ret. cbn [fst snd]. split; [|reflexivity].
  apply Forall2_app; [|constructor; [exact Hb2 | constructor]].
  apply held_app, held_app. exact Hf.
Qed.

Lemma gr_start_sim (h : store) (a : ref) (df : DataFrame) (selection : list sel) :
  holds h a df ->
  sim (fun h' s s' => holds h' (fst s) (fst s') /\ snd s = snd s') h
      (gr_start_s a selection) (gr_start df selection).
Proof.
  intros Ha. unfold gr_start_s, gr_start.
  destruct selection as [|x [|y [|z l]]]; try apply sim_throw.
  - apply sim_ret. split; [exact Ha | reflexivity].
  - apply (sim_get _ _ _ _ _ _ Ha). cbv beta.
    apply sim_lift. intros found _.
    apply sim_new. intros added b Hb.
    apply sim_ret. split; [exact Hb | reflexivity].
Qed.

Lemma match_frames_sim (h : store) (a : ref) (df : DataFrame) (prefix : string)
    (selection : list sel) :
  holds h a df ->
  sim held_opt h (match_frames_s a prefix selection) (match_frames df prefix selection).
Proof.
  intros Ha. unfold match_frames_s, match_frames. cbv zeta.
  destruct (String.eqb (substring 0 2 prefix) "DS").
  - destruct selection as [|names [|? ?]]; try apply sim_throw.
    eapply sim_bind.
    + apply (sim_fold (fun h' => holds h' a df) held).
      * intros h0 added H. apply holds_app. exact H.
      * intros h0 s s' x H1 H2. apply ds_name_sim; assumption.
      * exact Ha.
      * constructor.
    + intros added l l' _ H. apply sim_ret. exact H.
  - destruct (String.eqb (substring 0 2 prefix) "GR"); [|apply sim_ret; exact I].
    eapply sim_bind; [apply gr_start_sim; exact Ha|].
    intros added [s names] [start names'] _ [H2 H3]. cbn [fst snd] in H2, H3 |- *.
    subst names'.
    apply (sim_get _ _ _ _ _ _ H2). cbv beta.
    destruct (negb (empty start)); [|apply sim_ret; constructor].
    eapply sim_bind.
    + apply (sim_fold (fun h' => holds h' s start)
               (fun h' x x' => held h' (fst x) (fst x') /\ snd x = snd x')).
      * intros h0 added0 H. apply holds_app. exact H.
      * intros h0 [refs pr] [frames pr'] x H1 [G3 G4]. cbn [fst snd] in G3, G4.
        subst pr'. apply gr_name_sim; assumption.
      * exact H2.
      * split; [constructor | reflexivity].
    + intros added0 x x' _ [G3 _]. apply sim_ret. exact G3.
Qed.

(** [match] over the store ends as [match] on frames does, and leaves the
    frames it found as they were. *)
Lemma match_sim (h : store) (a : ref) (df : DataFrame) (selection : list sel) :
  holds h a df -> sim holds h (match_s a selection) (match_ df selection).
Proof.
  intros Ha. unfold match_s, match_.
  apply (sim_get _ _ _ _ _ _ Ha). cbv beta.
  destruct (_fieldPrefix df) as [| |prefix]; try apply sim_throw.
  eapply sim_bind; [apply match_frames_sim; exact Ha|].
  intros added o o' _ Ho.
  destruct o as [refs|], o' as [frames|]; try contradiction; [|apply sim_throw].
  cbn in Ho. destruct Ho as [|b f refs frames Hb Hrest]; [apply sim_new_last|].
  destruct Hrest as [|b2 f2 refs frames Hb2 Hrest]; [apply sim_ret; exact Hb|].
  apply (sim_gets _ _ (b :: b2 :: refs) (f :: f2 :: frames)).
  { constructor; [exact Hb|]. constructor; assumption. }
  cbv beta.
  apply sim_new. intros added2 c Hc.
  apply (sim_get _ _ _ _ _ _ Hc). cbv beta.
  apply sim_new_last.
Qed.

Lemma apply_result_sim (h : store) (exclude : bool) (s : sstate) (st : fstate)
    (res : list bool) :
  srel h s st ->
  sim srel h (apply_result_s exclude s res) (Ok (apply_result exclude st res)).
Proof.
  intros [Hc [Hl Hs]]. unfold apply_result_s, apply_result. destruct exclude.
  - apply sim_ret. split; [exact Hc|]. split; [cbn; rewrite Hl; reflexivity | exact Hs].
  - apply (sim_get _ _ _ _ _ _ Hc). cbv beta.
    apply sim_new. intros added b Hb.
    apply sim_ret. split; [exact Hb|]. split; assumption.
Qed.

Lemma push_sim (h : store) (s : sstate) (st : fstate) (col : string) (v : sel) :
  srel h s st -> srel h (push_s s col v) (push st col v).
Proof.
  intros [Hc [Hl Hs]]. split; [exact Hc|]. split; [exact Hl|].
  cbn. rewrite Hs. reflexivity.
Qed.

Lemma index_loop_sim (regexPattern exclude : bool) (selection : list sel) :
  forall h s st k, srel h s st ->
    sim srel h (index_loop_s regexPattern exclude s k selection)
               (index_loop regexPattern exclude st k selection).
Proof.
  induction selection as [|v rest IH]; intros h s st k Hs; cbn [index_loop_s index_loop].
  - apply sim_ret. exact Hs.
  - destruct (negb (sel_in v (skipSelect regexPattern))); [|apply IH; exact Hs].
    apply (sim_get _ _ _ _ _ _ (proj1 Hs)). cbv beta.
    apply sim_lift. intros res _.
    eapply sim_then; [apply apply_result_sim; exact Hs|].
    intros added s' Hs'. apply IH. exact Hs'.
Qed.

Lemma column_loop_sim (regexPattern : bool) (selection : list sel) :
  forall h s st k, srel h s st ->
    sim srel h (column_loop_s regexPattern s k selection)
               (column_loop regexPattern st k selection).
Proof.
  induction selection as [|v rest IH]; intros h s st k Hs; cbn [column_loop_s column_loop].
  - apply sim_ret. exact Hs.
  - destruct (negb (sel_in v (skipSelect regexPattern))); [|apply IH; exact Hs].
    apply (sim_get _ _ _ _ _ _ (proj1 Hs)). cbv beta.
    destruct (nth_error (columns (cur st)) k) as [col|]; [|apply sim_throw].
    apply IH. apply push_sim. exact Hs.
Qed.

Lemma kwd_step_sim (h : store) (kwdValues : list (string * string)) (exclude : bool)
    (s : sstate) (st : fstate) (kv : string * sel) :
  srel h s st ->
  sim srel h (kwd_step_s kwdValues exclude s kv) (kwd_step kwdValues exclude st kv).
Proof.
  intros Hs. pose proof Hs as [Hc [Hl Hcs]]. unfold kwd_step_s, kwd_step. cbv zeta.
  apply (sim_get _ _ _ _ _ _ Hc). cbv beta.
  destruct (String.eqb (fst kv) "match").
  - apply sim_lift. intros supported _. destruct supported; [|apply sim_throw].
    eapply sim_bind; [apply match_sim; exact Hc|].
    intros added m m' _ Hm. destruct exclude.
    + apply (sim_get _ _ _ _ _ _ Hm). cbv beta.
      apply sim_ret. split; [apply holds_app; exact Hc|].
      split; [cbn; rewrite Hl; reflexivity | exact Hcs].
    + apply sim_ret. split; [exact Hm|]. split; assumption.
  - destruct (assoc (fst kv) kwdValues) as [col|].
    + apply sim_ret. apply push_sim. exact Hs.
    + destruct (Py.mem (fst kv) (columns (cur st))).
      * apply sim_ret. apply push_sim. exact Hs.
      * apply sim_lift. intros found _.
        destruct found; [|apply sim_throw].
        apply sim_ret. apply push_sim. exact Hs.
Qed.

Lemma column_step_sim (h : store) (regexPattern exclude : bool) (s : sstate) (st : fstate)
    (cs : string * sel) :
  srel h s st ->
  sim srel h (column_step_s regexPattern exclude s cs) (column_step regexPattern exclude st cs).
Proof.
  intros Hs. unfold column_step_s, column_step.
  apply (sim_get _ _ _ _ _ _ (proj1 Hs)). cbv beta.
  apply sim_lift. intros res _. apply apply_result_sim. exact Hs.
Qed.

(** The filter over the store ends as the filter on frames does, and leaves
    the frames it found as they were. *)
Lemma frameFilter_sim (h : store) (a : ref) (df : DataFrame) (selection : list sel)
    (kwdValues : list (string * string)) (useIndex exclude regexPattern : bool)
    (kwds : list (string * sel)) :
  holds h a df ->
  sim holds h (_frameFilter_s a selection kwdValues useIndex exclude regexPattern kwds)
              (_frameFilter df selection kwdValues useIndex exclude regexPattern kwds).
Proof.
  intros Ha. unfold _frameFilter_s, _frameFilter. cbv zeta.
  apply (sim_get _ _ _ _ _ _ Ha). cbv beta.
  assert (H0 : srel h (mkSState a (map (fun _ => true) (rows df)) [])
                      (mkState df (map (fun _ => true) (rows df)) [])).
  { split; [exact Ha|]. split; reflexivity. }
  eapply sim_bind.
  { destruct useIndex; [apply index_loop_sim | apply column_loop_sim]; exact H0. }
  intros added0 s0 st0 _ Hs0.
  eapply sim_bind.
  { apply (sim_fold (fun _ => True) srel); [trivial | | exact I | exact Hs0].
    intros h1 s s' x _ Hs. apply kwd_step_sim. exact Hs. }
  intros added1 s1 st1 _ Hs1.
  eapply sim_bind.
  { rewrite (proj2 (proj2 Hs1)).
    apply (sim_fold (fun _ => True) srel); [trivial | | exact I | exact Hs1].
    intros h1 s s' x _ Hs. apply column_step_sim. exact Hs. }
  intros added2 s2 st2 _ [Hc2 [Hl2 _]]. destruct exclude.
  - apply (sim_get _ _ _ _ _ _ Hc2). cbv beta. rewrite Hl2. apply sim_new_last.
  - apply sim_ret. exact Hc2.
Qed.

(** C9: both routines leave every frame they find as it was, the input
    among them, and what they hand back is drawn from the input.  Over the
    store, a call of [match] or of [_frameFilter] on the frame at a place
    leaves every place that was there holding what it held, whether the
    call answers or raises, and ends as the routine on frames does.  On
    frames, the answer has the index levels and the columns of the input,
    its rows are rows of the input, none taken more often than the input
    has it, and its field prefix is that of the input or what a
    concatenated frame reads.  For [match] with a class argument this rests
    on the class narrowing, done outside the source file, handing back rows
    picked from the table. *)
Theorem results_are_rows_of_the_input :
  (forall df selection out,
     (forall start names, gr_start df selection = Ok (start, names) -> picks df start) ->
     match_ df selection = Ok out ->
     drawn_from concat_fieldPrefix df out)
  /\ (forall df selection kwdValues useIndex exclude regexPattern kwds out,
        _frameFilter df selection kwdValues useIndex exclude regexPattern kwds = Ok out ->
        drawn_from concat_fieldPrefix df out)
  /\ (forall h a selection,
        a < List.length h ->
        let run := match_s a selection h in
        (forall b, b < List.length h -> deref (snd run) b = deref h b)
        /\ same_outcome (snd run) (fst run) (match_ (deref h a) selection))
  /\ (forall h a selection kwdValues useIndex exclude regexPattern kwds,
        a < List.length h ->
        let run := _frameFilter_s a selection kwdValues useIndex exclude regexPattern kwds h in
        (forall b, b < List.length h -> deref (snd run) b = deref h b)
        /\ same_outcome (snd run) (fst run)
             (_frameFilter (deref h a) selection kwdValues useIndex exclude regexPattern kwds)).
Proof.
  split; [|split; [|split]].
  - intros df selection out Hstart H. eapply match_drawn; eassumption.
  - intros df selection kwdValues useIndex exclude regexPattern kwds out H.
    eapply frameFilter_drawn. exact H.
  - intros h a selection Ha. cbv zeta. apply sim_run, match_sim.
    split; [exact Ha | reflexivity].
  - intros h a selection kwdValues useIndex exclude regexPattern kwds Ha. cbv zeta.
    apply sim_run, frameFilter_sim. split; [exact Ha | reflexivity].
Qed.

End Store.

Lemma results_are_rows_of_the_input_witness :
  drawn_from PyNone facility
    (with_rows facility [ mkRow ["FACILITY"; "BPX.*"] ["FACILITY"; "BPX.*"; "NONE"] ])
  /\ drawn_from PyNone datasets
       (with_rows datasets [ mkRow ["SYS1.*"] ["SYS1.*"; "READ"] ])
  /\ deref (snd (@match_s reference 0 [SStr "FACILITY"; SStr "BPX.SUPERUSER"] [facility])) 0
     = facility
  /\ deref (snd (@_frameFilter_s reference 0 [] [("uacc", "DSBD_UACC")] false true false
                   [("uacc", SStr "READ"); ("match", SStr "SYS1.PARMLIB")] [datasets])) 0
     = datasets.
Proof.
  destruct (@results_are_rows_of_the_input reference) as [Hmatch [Hfilter [Hms Hfs]]].
  split; [|split; [|split]].
  - apply (Hmatch facility [SStr "FACILITY"; SStr "BPX.SUPERUSER"]); [|reflexivity].
    intros start names H. vm_compute in H. injection H as <- _.
    apply narrows_picks.
    split; [reflexivity|]. cbn. apply subseq_keep, subseq_keep, subseq_skip, subseq_nil.
  - apply (Hfilter datasets [] [("uacc", "DSBD_UACC")] false false false
             [("uacc", SStr "READ"); ("match", SStr "SYS1.PARMLIB")]).
    reflexivity.
  - apply (proj1 (Hms [facility] 0 [SStr "FACILITY"; SStr "BPX.SUPERUSER"]
                    ltac:(simpl; lia))).
    simpl. lia.
  - apply (proj1 (Hfs [datasets] 0 [] [("uacc", "DSBD_UACC")] false true false
                    [("uacc", SStr "READ"); ("match", SStr "SYS1.PARMLIB")]
                    ltac:(simpl; lia))).
    simpl. lia.
Defined.

(** ** The answer of [match] for one name *)

Lemma label_eqb_refl (a : list string) : label_eqb a a = true.
Proof. apply strs_eqb_eq. reflexivity. Qed.

Lemma label_absent (r : Row) (s : list Row) :
  ~ In (label r) (map label s) ->
  existsb (fun r' => label_eqb (label r') (label r)) s = false.
Proof.
  intros H. apply not_true_is_false. intros E.
  apply existsb_exists in E as [r' [Hr' E]]. apply strs_eqb_eq in E.
  apply H. rewrite <- E. apply in_map. exact Hr'.
Qed.

(** With labels that identify the rows, the rows whose label is in the
    index of a selection are the rows of the selection. *)
Lemma isin_of_subseq (l s : list Row) :
  NoDup (map label l) -> subseq s l ->
  select_mask (map (fun r => existsb (fun r' => label_eqb (label r') (label r)) s) l) l = s.
Proof.
  intros Hnd Hs. induction Hs as [|x s l Hs IH|x s l Hs IH]; simpl.
  - reflexivity.
  - inversion Hnd as [|? ? Hx Hl]; subst.
    rewrite label_absent.
    + apply IH. exact Hl.
    + intros H. apply Hx. revert H. apply incl_map, subseq_incl. exact Hs.
  - inversion Hnd as [|? ? Hx Hl]; subst.
    rewrite label_eqb_refl. simpl. f_equal.
    etransitivity; [|apply (IH Hl)]. f_equal. apply map_ext_in. intros r Hr.
    destruct (label_eqb (label x) (label r)) eqn:E; [|reflexivity].
    apply strs_eqb_eq in E. exfalso. apply Hx. rewrite E. apply in_map. exact Hr.
Qed.

Section OneName.

Context {ext : Collaborators}.

(** For one queried name the answer of [match] is the table with rows left
    out: the rows keep their order, none is repeated, and the schema and
    the field prefix are those of the table. *)
Lemma match_one_name_narrows (df : DataFrame) (name : string) (out : DataFrame) :
  match_ df [SStr name] = Ok out -> narrows df out.
Proof.
  unfold match_. destruct (_fieldPrefix df) as [| |prefix]; try discriminate.
  unfold match_frames.
  destruct (String.eqb (substring 0 2 prefix) "DS").
  - cbn [listMe fold_result]. unfold ds_name.
    destruct (negb (String.eqb (qualifier name) EmptyString)); [|discriminate].
    destruct (negb (empty (filter_like df (qualifier name)))).
    + destruct (column (filter_like df (qualifier name)) (prefix ++ "NAME")) as [names|e];
        cbn [bind]; [|discriminate].
      destruct (first_profile (loc_mask (filter_like df (qualifier name)) (name_mask names name)))
        as [picked|e] eqn:Hp; cbn [bind app]; [|discriminate].
      intros H. injection H as <-.
      eapply narrows_trans; [apply narrows_filter|].
      eapply narrows_trans; [apply narrows_loc_mask|].
      apply first_profile_narrows. exact Hp.
    + cbn [bind]. intros H. injection H as <-. apply narrows_head.
  - destruct (String.eqb (substring 0 2 prefix) "GR"); [|discriminate].
    cbn [gr_start bind fst snd listMe].
    destruct (negb (empty df)).
    + cbn [fold_result]. unfold gr_name.
      destruct (column df (prefix ++ "NAME")) as [names|e]; cbn [bind fst snd];
        [|discriminate].
      destruct (walk (map label (rows (loc_mask df (name_mask names name)))) EmptyString None)
        as [w|e]; cbn [bind fst snd app]; [|discriminate].
      intros H. injection H as <-.
      eapply narrows_trans; apply narrows_loc_mask.
    + cbn [bind]. intros H. injection H as <-. apply narrows_head.
Qed.

Lemma match_one_name_subseq (df : DataFrame) (name : string) (out : DataFrame) :
  match_ df [SStr name] = Ok out -> subseq (rows out) (rows df).
Proof. intros H. apply (proj2 (match_one_name_narrows _ _ _ H)). Qed.

(** With labels that identify the rows, the rows of the table whose label
    is in the index of the answer are the answer. *)
Lemma match_one_name_isin (df : DataFrame) (name : string) (out : DataFrame) :
  NoDup (map label (rows df)) ->
  match_ df [SStr name] = Ok out ->
  loc_mask df (index_isin df out) = out.
Proof.
  intros Hnd H. destruct (match_one_name_narrows _ _ _ H) as [Heq Hsub].
  rewrite Heq at 2. unfold loc_mask, index_isin. f_equal.
  apply isin_of_subseq; [exact Hnd | exact Hsub].
Qed.

End OneName.

(** ** Keyword resolution *)

Lemma mem_In (x : string) (l : list string) : Py.mem x l = true <-> In x l.
Proof.
  induction l as [|y l IH]; simpl; [split; [discriminate | contradiction]|].
  rewrite orb_true_iff, String.eqb_eq, IH. reflexivity.
Qed.

Lemma mem_not_In (x : string) (l : list string) : Py.mem x l = false <-> ~ In x l.
Proof.
  rewrite <- mem_In. destruct (Py.mem x l); split; congruence.
Qed.


Section Keywords.

Context {ext : Collaborators}.







End Keywords.


(** ** Narrowing step by step and the conjunction over the whole table *)

Lemma select_mask_all {A : Type} (l : list A) : select_mask (map (fun _ => true) l) l = l.
Proof. induction l as [|x l IH]; simpl; [reflexivity | rewrite IH; reflexivity]. Qed.

Lemma loc_mask_twice (df : DataFrame) (m res : list bool) :
  loc_mask (loc_mask df m) (select_mask m res) = loc_mask df (and_mask m res).
Proof. unfold loc_mask, with_rows. simpl. rewrite select_mask_and. reflexivity. Qed.

Lemma filter_split_perm {A : Type} (f : A -> bool) (l : list A) :
  Permutation (filter f l ++ filter (fun x => negb (f x)) l) l.
Proof.
  induction l as [|x l IH]; simpl; [constructor|].
  destruct (f x); simpl.
  - constructor. exact IH.
  - apply Permutation_sym, Permutation_cons_app, Permutation_sym, IH.
Qed.

Section Commutation.

Context {ext : Collaborators}.

Lemma get_level_values_narrowed (df : DataFrame) (m : list bool) (s : nat) :
  get_level_values (loc_mask df m) s
  = (values <- get_level_values df s ;; Ok (select_mask m values)).
Proof.
  unfold get_level_values. simpl.
  destruct (s <? List.length (index_names df))%nat; simpl; [|reflexivity].
  rewrite select_mask_map_comm. reflexivity.
Qed.

Lemma column_narrowed (df : DataFrame) (m : list bool) (col : string) :
  column (loc_mask df m) col
  = (values <- column df col ;; Ok (select_mask m values)).
Proof.
  unfold column. simpl.
  destruct (position col (columns df)); simpl; [|reflexivity].
  rewrite select_mask_map_comm. reflexivity.
Qed.

Lemma str_match_narrowed (m : list bool) (values : list string) (v : sel) :
  str_match (select_mask m values) v
  = (res <- str_match values v ;; Ok (select_mask m res)).
Proof.
  destruct v; simpl; try reflexivity; rewrite select_mask_map_comm; reflexivity.
Qed.

Lemma generic_mask_narrowed (m : list bool) (values : list string) (sel : string) :
  generic_mask (select_mask m values) sel = select_mask m (generic_mask values sel).
Proof.
  unfold generic_mask.
  destruct (is_contains sel); [|destruct (is_literal sel)];
    rewrite select_mask_map_comm; reflexivity.
Qed.

(** The mask of an index-level criterion on a narrowed table is the
    narrowed mask of the criterion on the whole table. *)
Lemma index_result_narrowed (df : DataFrame) (m : list bool) (s : nat)
    (regexPattern : bool) (v : sel) :
  index_result (loc_mask df m) s regexPattern v
  = (res <- index_result df s regexPattern v ;; Ok (select_mask m res)).
Proof.
  unfold index_result. destruct (regexPattern || isPattern v).
  - rewrite get_level_values_narrowed.
    destruct (get_level_values df s); simpl; [|reflexivity].
    rewrite str_match_narrowed. destruct (str_match a v); reflexivity.
  - destruct v as [|sel|p|l]; try reflexivity.
    rewrite get_level_values_narrowed.
    destruct (get_level_values df s); simpl; [|reflexivity].
    rewrite generic_mask_narrowed. reflexivity.
Qed.

Lemma column_result_narrowed (df : DataFrame) (m : list bool) (col : string)
    (regexPattern : bool) (v : sel) :
  column_result (loc_mask df m) col regexPattern v
  = (res <- column_result df col regexPattern v ;; Ok (select_mask m res)).
Proof.
  unfold column_result. destruct (regexPattern || isPattern v).
  - rewrite column_narrowed. destruct (column df col); simpl; [|reflexivity].
    rewrite str_match_narrowed. destruct (str_match a v); reflexivity.
  - destruct v as [|sel|p|l]; rewrite column_narrowed;
      destruct (column df col); simpl; try reflexivity.
    + rewrite select_mask_map_comm. reflexivity.
    + destruct (String.eqb sel "**");
        [rewrite select_mask_map_comm | rewrite generic_mask_narrowed]; reflexivity.
    + rewrite select_mask_map_comm. reflexivity.
    + destruct (existsb _ l); rewrite select_mask_map_comm; reflexivity.
Qed.

Lemma stands_for_schema (exclude : bool) (df : DataFrame) (m : list bool) (st : fstate) :
  stands_for exclude df m st ->
  columns (cur st) = columns df /\ _fieldPrefix (cur st) = _fieldPrefix df.
Proof.
  unfold stands_for. destruct exclude.
  - intros [-> _]. split; reflexivity.
  - intros ->. split; reflexivity.
Qed.

(** One mask more: both modes move to the conjunction with it. *)
Lemma apply_result_stands (exclude : bool) (df : DataFrame) (m res : list bool) (st : fstate)
    (on_cur : list bool) :
  stands_for exclude df m st ->
  on_cur = (if exclude then res else select_mask m res) ->
  stands_for exclude df (and_mask m res) (apply_result exclude st on_cur).
Proof.
  unfold stands_for, apply_result. destruct exclude.
  - intros [Hc Hl] ->. cbn [cur locs]. rewrite Hl. split; [exact Hc | reflexivity].
  - intros Hc ->. cbn [cur]. rewrite Hc. apply loc_mask_twice.
Qed.

Lemma index_result_on_cur (exclude : bool) (df : DataFrame) (m : list bool) (st : fstate)
    (s : nat) (regexPattern : bool) (v : sel) :
  stands_for exclude df m st ->
  index_result (cur st) s regexPattern v
  = (res <- index_result df s regexPattern v ;;
     Ok (if exclude then res else select_mask m res)).
Proof.
  unfold stands_for. destruct exclude.
  - intros [-> _]. destruct (index_result df s regexPattern v); reflexivity.
  - intros ->. apply index_result_narrowed.
Qed.

Lemma column_result_on_cur (exclude : bool) (df : DataFrame) (m : list bool) (st : fstate)
    (col : string) (regexPattern : bool) (v : sel) :
  stands_for exclude df m st ->
  column_result (cur st) col regexPattern v
  = (res <- column_result df col regexPattern v ;;
     Ok (if exclude then res else select_mask m res)).
Proof.
  unfold stands_for. destruct exclude.
  - intros [-> _]. destruct (column_result df col regexPattern v); reflexivity.
  - intros ->. apply column_result_narrowed.
Qed.

Lemma index_loop_stands (df : DataFrame) (regexPattern exclude : bool)
    (selection : list sel) :
  forall s st m, stands_for exclude df m st ->
    match index_masks df regexPattern s selection with
    | Ok ms =>
        exists st', index_loop regexPattern exclude st s selection = Ok st'
                    /\ stands_for exclude df (fold_left and_mask ms m) st'
                    /\ columnSelect st' = columnSelect st
    | Raise e => index_loop regexPattern exclude st s selection = Raise e
    end.
Proof.
  induction selection as [|v rest IH]; intros s st m Hst; cbn [index_masks index_loop].
  - exists st. repeat split. exact Hst.
  - destruct (sel_in v (skipSelect regexPattern)); cbn [negb].
    + apply IH. exact Hst.
    + rewrite (index_result_on_cur _ _ _ _ _ _ _ Hst).
      destruct (index_result df s regexPattern v) as [res|e]; cbn [bind]; [|reflexivity].
      specialize (IH (S s) _ _ (apply_result_stands _ _ _ res _ _ Hst eq_refl)).
      destruct (index_masks df regexPattern (S s) rest) as [ms|e]; cbn [bind]; [|exact IH].
      destruct IH as [st' [H1 [H2 H3]]]. exists st'. repeat split; try assumption.
      rewrite H3. unfold apply_result. destruct exclude; reflexivity.
Qed.

Lemma column_loop_stands (df : DataFrame) (regexPattern exclude : bool)
    (selection : list sel) :
  forall s st m, stands_for exclude df m st ->
    match positional_columns (columns df) regexPattern s selection with
    | Ok cs =>
        exists st', column_loop regexPattern st s selection = Ok st'
                    /\ stands_for exclude df m st'
                    /\ columnSelect st' = columnSelect st ++ cs
    | Raise e => column_loop regexPattern st s selection = Raise e
    end.
Proof.
  induction selection as [|v rest IH]; intros s st m Hst;
    cbn [positional_columns column_loop].
  - exists st. repeat split; [exact Hst | symmetry; apply app_nil_r].
  - destruct (sel_in v (skipSelect regexPattern)); cbn [negb].
    + apply IH. exact Hst.
    + rewrite (proj1 (stands_for_schema _ _ _ _ Hst)).
      destruct (nth_error (columns df) s) as [col|]; [|reflexivity].
      assert (Hpush : stands_for exclude df m (push st col v)).
      { unfold stands_for, push in *. destruct exclude; exact Hst. }
      specialize (IH (S s) _ _ Hpush).
      destruct (positional_columns (columns df) regexPattern (S s) rest) as [cs|e];
        cbn [bind]; [|exact IH].
      destruct IH as [st' [H1 [H2 H3]]]. exists st'. repeat split; try assumption.
      rewrite H3. unfold push. cbn [columnSelect]. rewrite <- app_assoc. reflexivity.
Qed.

End Commutation.

Section NormalForm.

Context {ext : Collaborators}.

Lemma and_mask_all {A : Type} (f : A -> bool) (l : list A) :
  and_mask (map (fun _ => true) l) (map f l) = map f l.
Proof. rewrite and_mask_map. reflexivity. Qed.

Lemma kwd_step_stands (df : DataFrame) (kwdValues : list (string * string))
    (exclude : bool) (st : fstate) (m : list bool) (kv : string * sel) :
  stands_for exclude df m st ->
  exclude = true \/ fst kv <> "match"
  \/ (m = map (fun _ => true) (rows df) /\ NoDup (map label (rows df))
      /\ exists name, snd kv = SStr name) ->
  match keyword_criterion kwdValues df kv with
  | Ok (inl mk) =>
      fst kv = "match"
      /\ exists st', kwd_step kwdValues exclude st kv = Ok st'
                     /\ stands_for exclude df (and_mask m mk) st'
                     /\ columnSelect st' = columnSelect st
  | Ok (inr cs) =>
      fst kv <> "match"
      /\ exists st', kwd_step kwdValues exclude st kv = Ok st'
                     /\ stands_for exclude df m st'
                     /\ columnSelect st' = columnSelect st ++ [cs]
  | Raise e => kwd_step kwdValues exclude st kv = Raise e
  end.
Proof.
  intros Hst Hmode. unfold keyword_criterion, kwd_step.
  destruct (String.eqb_spec (fst kv) "match") as [E|E].
  - destruct exclude.
    + destruct Hst as [Hc Hl]. rewrite Hc.
      destruct (supports_match df) as [[|]|e]; cbn [bind]; try reflexivity.
      destruct (match_ df [snd kv]) as [mt|e]; cbn [bind]; [|reflexivity].
      split; [exact E|].
      eexists. split; [reflexivity|]. cbn [columnSelect]. split; [|reflexivity].
      split; [reflexivity|]. cbn [locs]. rewrite Hl. reflexivity.
    + destruct Hmode as [H|[H|[Hm [Hnd [name Hname]]]]]; [discriminate | contradiction |].
      assert (Hdf : loc_mask df (map (fun _ => true) (rows df)) = df).
      { unfold loc_mask. rewrite select_mask_all. apply with_rows_rows. }
      unfold stands_for in Hst. rewrite Hst, Hm, Hdf.
      destruct (supports_match df) as [[|]|e]; cbn [bind]; try reflexivity.
      rewrite Hname.
      destruct (match_ df [SStr name]) as [mt|e] eqn:Hmt; cbn [bind]; [|reflexivity].
      split; [exact E|].
      eexists. split; [reflexivity|]. cbn [columnSelect]. split; [|reflexivity].
      unfold stands_for. cbn [cur]. unfold index_isin at 1. rewrite and_mask_all.
      symmetry. apply (match_one_name_isin _ _ _ Hnd Hmt).
  - destruct (stands_for_schema _ _ _ _ Hst) as [Hcols Hpre].
    assert (Hpush : forall col, stands_for exclude df m (push st col (snd kv))).
    { intros col. unfold stands_for, push in *. destruct exclude; exact Hst. }
    unfold has_prefixed, prefixed. rewrite Hcols, Hpre.
    destruct (assoc (fst kv) kwdValues) as [col|].
    { split; [exact E|]. eexists. split; [reflexivity|]. split; [apply Hpush | reflexivity]. }
    destruct (Py.mem (fst kv) (columns df)).
    { split; [exact E|]. eexists. split; [reflexivity|]. split; [apply Hpush | reflexivity]. }
    destruct (_fieldPrefix df) as [| |p]; cbn [bind]; try reflexivity.
    destruct (Py.mem (p ++ fst kv) (columns df)); [|reflexivity].
    split; [exact E|]. eexists. split; [reflexivity|]. split; [apply Hpush | reflexivity].
Qed.

Lemma kwd_loop_stands (df : DataFrame) (kwdValues : list (string * string))
    (exclude : bool) (kwds : list (string * sel)) :
  forall st m, stands_for exclude df m st ->
    exclude = true \/ ~ In "match" (map fst kwds) \/ match_on_whole_table df m kwds ->
    match keyword_criteria kwdValues df kwds with
    | Ok km =>
        exists st', fold_result (kwd_step kwdValues exclude) st kwds = Ok st'
                    /\ stands_for exclude df (fold_left and_mask (fst km) m) st'
                    /\ columnSelect st' = columnSelect st ++ snd km
    | Raise e => fold_result (kwd_step kwdValues exclude) st kwds = Raise e
    end.
Proof.
  induction kwds as [|kv rest IH]; intros st m Hst Hmode;
    cbn [keyword_criteria fold_result].
  - exists st. repeat split; [exact Hst | symmetry; apply app_nil_r].
  - assert (Hhead : exclude = true \/ fst kv <> "match"
                    \/ (m = map (fun _ => true) (rows df) /\ NoDup (map label (rows df))
                        /\ exists name, snd kv = SStr name)).
    { destruct Hmode as [H|[H|[Hm [Hnd [_ Hnames]]]]]; [left; exact H | |].
      - right. left. intros E. apply H. left. exact E.
      - destruct (string_dec (fst kv) "match") as [E|E]; [|right; left; exact E].
        right. right. split; [exact Hm|]. split; [exact Hnd|].
        apply Hnames. left. destruct kv as [k v]. simpl in E. subst k. reflexivity. }
    pose proof (kwd_step_stands df kwdValues exclude st m kv Hst Hhead) as Hstep.
    destruct (keyword_criterion kwdValues df kv) as [[mk|cs]|e]; cbn [bind].
    + destruct Hstep as [E [st1 [H1 [H2 H3]]]]. rewrite H1. cbn [bind].
      assert (Hrest : exclude = true \/ ~ In "match" (map fst rest)
                      \/ match_on_whole_table df (and_mask m mk) rest).
      { destruct Hmode as [H|[H|[_ [_ [Hkeys _]]]]]; [left; exact H | |].
        - right. left. intros E'. apply H. right. exact E'.
        - right. left. cbn [map] in Hkeys. rewrite E in Hkeys.
          inversion Hkeys; assumption. }
      specialize (IH st1 _ H2 Hrest).
      destruct (keyword_criteria kwdValues df rest) as [km|e]; cbn [bind]; [|exact IH].
      destruct IH as [st' [H4 [H5 H6]]]. exists st'. cbn [fst snd fold_left].
      repeat split; try assumption. rewrite H6, H3. reflexivity.
    + destruct Hstep as [E [st1 [H1 [H2 H3]]]]. rewrite H1. cbn [bind].
      assert (Hrest : exclude = true \/ ~ In "match" (map fst rest)
                      \/ match_on_whole_table df m rest).
      { destruct Hmode as [H|[H|[Hm [Hnd [Hkeys Hnames]]]]]; [left; exact H | |].
        - right. left. intros E'. apply H. right. exact E'.
        - right. right. split; [exact Hm|]. split; [exact Hnd|]. split.
          + cbn [map] in Hkeys. inversion Hkeys; assumption.
          + intros v Hv. apply Hnames. right. exact Hv. }
      specialize (IH st1 _ H2 Hrest).
      destruct (keyword_criteria kwdValues df rest) as [km|e]; cbn [bind]; [|exact IH].
      destruct IH as [st' [H4 [H5 H6]]]. exists st'. cbn [fst snd].
      repeat split; try assumption. rewrite H6, H3, <- app_assoc. reflexivity.
    + rewrite Hstep. reflexivity.
Qed.

Lemma column_steps_stand (df : DataFrame) (regexPattern exclude : bool)
    (cs : list (string * sel)) :
  forall st m, stands_for exclude df m st ->
    match column_masks df regexPattern cs with
    | Ok ms =>
        exists st', fold_result (column_step regexPattern exclude) st cs = Ok st'
                    /\ stands_for exclude df (fold_left and_mask ms m) st'
    | Raise e => fold_result (column_step regexPattern exclude) st cs = Raise e
    end.
Proof.
  induction cs as [|c rest IH]; intros st m Hst; cbn [column_masks fold_result].
  - exists st. split; [reflexivity | exact Hst].
  - change (column_step regexPattern exclude st c)
      with (res <- column_result (cur st) (fst c) regexPattern (snd c) ;;
            Ok (apply_result exclude st res)).
    rewrite (column_result_on_cur _ _ _ _ _ _ _ Hst).
    destruct (column_result df (fst c) regexPattern (snd c)) as [res|e]; cbn [bind];
      [|reflexivity].
    specialize (IH _ _ (apply_result_stands _ _ _ res _ _ Hst eq_refl)).
    destruct (column_masks df regexPattern rest) as [ms|e]; cbn [bind]; [|exact IH].
    destruct IH as [st' [H1 H2]]. exists st'. split; assumption.
Qed.

Lemma index_masks_all_skipped (df : DataFrame) (regexPattern : bool) (selection : list sel) :
  (forall v, In v selection -> sel_in v (skipSelect regexPattern) = true) ->
  forall s, index_masks df regexPattern s selection = Ok [].
Proof.
  induction selection as [|v rest IH]; intros Hskip s; simpl; [reflexivity|].
  rewrite (Hskip v (or_introl eq_refl)). apply IH. intros w Hw. apply Hskip. right. exact Hw.
Qed.

(** Both modes of [_frameFilter] in terms of the masks over the whole
    table: the selection keeps the rows of the conjunction, the exclusion
    the other rows.  This holds in exclude mode for every call, and in
    select mode when the [match] keyword is absent or meets the whole table:
    no index-level criterion before it, one name asked for, labels that
    identify the rows. *)
Lemma frameFilter_normal_form (df : DataFrame) (selection : list sel)
    (kwdValues : list (string * string)) (useIndex exclude regexPattern : bool)
    (kwds : list (string * sel)) :
  exclude = true \/ ~ In "match" (map fst kwds)
  \/ ((useIndex = false
       \/ forall v, In v selection -> sel_in v (skipSelect regexPattern) = true)
      /\ match_on_whole_table df (map (fun _ => true) (rows df)) kwds) ->
  _frameFilter df selection kwdValues useIndex exclude regexPattern kwds
  = (masks <- full_table_masks df selection kwdValues useIndex regexPattern kwds ;;
     Ok (loc_mask df (if exclude then map negb (all_of df masks) else all_of df masks))).
Proof.
  intros Hmode. unfold _frameFilter, full_table_masks, all_of.
  set (init := map (fun _ : Row => true) (rows df)) in *.
  assert (H0 : stands_for exclude df init (mkState df init [])).
  { unfold stands_for. destruct exclude; cbn [cur locs]; [split; reflexivity|].
    unfold loc_mask, init. rewrite select_mask_all. symmetry. apply with_rows_rows. }
  assert (Hpos : match (if useIndex then index_masks df regexPattern 0 selection else Ok []),
                       (if useIndex then Ok []
                        else positional_columns (columns df) regexPattern 0 selection) with
                 | Ok pm, Ok pc =>
                     exists st0,
                       (if useIndex then index_loop regexPattern exclude (mkState df init []) 0 selection
                        else column_loop regexPattern (mkState df init []) 0 selection) = Ok st0
                       /\ stands_for exclude df (fold_left and_mask pm init) st0
                       /\ columnSelect st0 = pc
                 | Raise e, _ | Ok _, Raise e =>
                     (if useIndex then index_loop regexPattern exclude (mkState df init []) 0 selection
                      else column_loop regexPattern (mkState df init []) 0 selection) = Raise e
                 end).
  { destruct useIndex.
    - pose proof (index_loop_stands df regexPattern exclude selection 0 _ _ H0) as H.
      destruct (index_masks df regexPattern 0 selection); exact H.
    - pose proof (column_loop_stands df regexPattern exclude selection 0 _ _ H0) as H.
      destruct (positional_columns (columns df) regexPattern 0 selection); exact H. }
  assert (Hpm : forall pm,
            (if useIndex then index_masks df regexPattern 0 selection else Ok []) = Ok pm ->
            exclude = true \/ ~ In "match" (map fst kwds)
            \/ match_on_whole_table df (fold_left and_mask pm init) kwds).
  { intros pm Hpm. destruct Hmode as [H|[H|[Hidx Hwhole]]];
      [left; exact H | right; left; exact H |].
    right. right.
    assert (pm = []) as ->; [|exact Hwhole].
    destruct Hidx as [->|Hskip].
    - injection Hpm as <-. reflexivity.
    - destruct useIndex; [|injection Hpm as <-; reflexivity].
      rewrite (index_masks_all_skipped _ _ _ Hskip) in Hpm. injection Hpm as <-. reflexivity. }
  destruct (if useIndex then index_masks df regexPattern 0 selection else Ok []) as [pm|e];
    cbn [bind].
  2:{ rewrite Hpos. reflexivity. }
  specialize (Hpm pm eq_refl).
  destruct (if useIndex then Ok []
            else positional_columns (columns df) regexPattern 0 selection) as [pc|e];
    cbn [bind].
  2:{ rewrite Hpos. reflexivity. }
  destruct Hpos as [st0 [Hrun0 [Hst0 Hcs0]]]. rewrite Hrun0. cbn [bind].
  pose proof (kwd_loop_stands df kwdValues exclude kwds st0 _ Hst0 Hpm) as Hkw.
  destruct (keyword_criteria kwdValues df kwds) as [km|e]; cbn [bind].
  2:{ rewrite Hkw. reflexivity. }
  destruct Hkw as [st1 [Hrun1 [Hst1 Hcs1]]]. rewrite Hrun1. cbn [bind].
  rewrite Hcs1, Hcs0.
  pose proof (column_steps_stand df regexPattern exclude (pc ++ snd km) st1 _ Hst1) as Hcm.
  destruct (column_masks df regexPattern (pc ++ snd km)) as [cm|e]; cbn [bind].
  2:{ rewrite Hcm. reflexivity. }
  destruct Hcm as [st2 [Hrun2 Hst2]]. rewrite Hrun2. cbn [bind].
  rewrite !fold_left_app. unfold stands_for in Hst2. destruct exclude.
  - destruct Hst2 as [-> ->]. reflexivity.
  - rewrite Hst2. reflexivity.
Qed.

End NormalForm.

(** ** Masks test rows one by one *)

Lemma row_wise_map (l : list Row) (g : Row -> string) (f : string -> bool) :
  row_wise l (map f (map g l)).
Proof. exists (fun r => f (g r)). apply map_map. Qed.

Lemma row_wise_and (l : list Row) (a b : list bool) :
  row_wise l a -> row_wise l b -> row_wise l (and_mask a b).
Proof.
  intros [p ->] [q ->]. exists (fun r => p r && q r). apply and_mask_map.
Qed.

Lemma row_wise_fold (l : list Row) (ms : list (list bool)) :
  Forall (row_wise l) ms ->
  forall m, row_wise l m -> row_wise l (fold_left and_mask ms m).
Proof.
  induction 1 as [|x ms Hx _ IH]; intros m Hm; simpl; [exact Hm|].
  apply IH, row_wise_and; assumption.
Qed.

Section RowWise.

Context {ext : Collaborators}.

Lemma str_match_row_wise (l : list Row) (g : Row -> string) (v : sel) (m : list bool) :
  str_match (map g l) v = Ok m -> row_wise l m.
Proof.
  destruct v; simpl; intros H; try discriminate; injection H as <-; apply row_wise_map.
Qed.

Lemma generic_mask_row_wise (l : list Row) (g : Row -> string) (sel : string) :
  row_wise l (generic_mask (map g l) sel).
Proof.
  unfold generic_mask.
  destruct (is_contains sel); [|destruct (is_literal sel)]; apply row_wise_map.
Qed.

Lemma index_result_row_wise (df : DataFrame) (s : nat) (regexPattern : bool) (v : sel)
    (m : list bool) :
  index_result df s regexPattern v = Ok m -> row_wise (rows df) m.
Proof.
  unfold index_result, get_level_values.
  destruct (regexPattern || isPattern v).
  - destruct (s <? List.length (index_names df))%nat; [|discriminate].
    cbn [bind]. apply str_match_row_wise.
  - destruct v as [|sel|p|l]; try discriminate.
    destruct (s <? List.length (index_names df))%nat; [|discriminate].
    cbn [bind]. intros H. injection H as <-. apply generic_mask_row_wise.
Qed.

Lemma column_result_row_wise (df : DataFrame) (col : string) (regexPattern : bool) (v : sel)
    (m : list bool) :
  column_result df col regexPattern v = Ok m -> row_wise (rows df) m.
Proof.
  unfold column_result, column.
  destruct (regexPattern || isPattern v).
  - destruct (position col (columns df)); [|discriminate].
    cbn [bind]. apply str_match_row_wise.
  - destruct v as [|sel|p|l]; (destruct (position col (columns df)); [|discriminate]);
      cbn [bind]; intros H; injection H as <-.
    + apply row_wise_map.
    + destruct (String.eqb sel "**"); [apply row_wise_map | apply generic_mask_row_wise].
    + apply row_wise_map.
    + destruct (existsb _ l); apply row_wise_map.
Qed.

Lemma index_masks_row_wise (df : DataFrame) (regexPattern : bool) (selection : list sel) :
  forall s ms, index_masks df regexPattern s selection = Ok ms ->
    Forall (row_wise (rows df)) ms.
Proof.
  induction selection as [|v rest IH]; intros s ms H; simpl in H.
  - injection H as <-. constructor.
  - destruct (sel_in v (skipSelect regexPattern)); [eapply IH; exact H|].
    apply bind_ok in H as [m [Hm H]]. apply bind_ok in H as [ms' [Hms H]].
    injection H as <-. constructor; [eapply index_result_row_wise | eapply IH]; eassumption.
Qed.

Lemma keyword_criteria_row_wise (df : DataFrame) (kwdValues : list (string * string))
    (kwds : list (string * sel)) :
  forall km, keyword_criteria kwdValues df kwds = Ok km ->
    Forall (row_wise (rows df)) (fst km).
Proof.
  induction kwds as [|kv rest IH]; intros km H; simpl in H.
  - injection H as <-. constructor.
  - apply bind_ok in H as [c [Hc H]]. apply bind_ok in H as [r [Hr H]].
    injection H as <-. specialize (IH _ Hr).
    destruct c as [m|cs]; cbn [fst]; [|exact IH].
    constructor; [|exact IH].
    unfold keyword_criterion in Hc.
    destruct (String.eqb (fst kv) "match").
    + destruct (supports_match df) as [[|]|e']; cbn [bind] in Hc; try discriminate.
      apply bind_ok in Hc as [mt [_ Hc]]. injection Hc as <-.
      eexists. reflexivity.
    + destruct (assoc (fst kv) kwdValues); [discriminate|].
      destruct (Py.mem (fst kv) (columns df)); [discriminate|].
      destruct (has_prefixed df (fst kv)) as [[|]|e']; discriminate.
Qed.

Lemma column_masks_row_wise (df : DataFrame) (regexPattern : bool)
    (cs : list (string * sel)) :
  forall ms, column_masks df regexPattern cs = Ok ms -> Forall (row_wise (rows df)) ms.
Proof.
  induction cs as [|c rest IH]; intros ms H; simpl in H.
  - injection H as <-. constructor.
  - apply bind_ok in H as [m [Hm H]]. apply bind_ok in H as [ms' [Hms H]].
    injection H as <-. constructor; [eapply column_result_row_wise | eapply IH]; eassumption.
Qed.

(** The conjunction of the masks of a call is the mask of one test of the
    rows. *)
Lemma all_of_row_wise (df : DataFrame) (selection : list sel)
    (kwdValues : list (string * string)) (useIndex regexPattern : bool)
    (kwds : list (string * sel)) (masks : list (list bool)) :
  full_table_masks df selection kwdValues useIndex regexPattern kwds = Ok masks ->
  row_wise (rows df) (all_of df masks).
Proof.
  unfold full_table_masks. intros H.
  apply bind_ok in H as [pm [Hpm H]]. apply bind_ok in H as [pc [_ H]].
  apply bind_ok in H as [km [Hkm H]]. apply bind_ok in H as [cm [Hcm H]].
  injection H as <-. unfold all_of. apply row_wise_fold.
  - apply Forall_app. split; [|apply Forall_app; split].
    + destruct useIndex; [eapply index_masks_row_wise; exact Hpm|].
      injection Hpm as <-. constructor.
    + eapply keyword_criteria_row_wise. exact Hkm.
    + eapply column_masks_row_wise. exact Hcm.
  - exists (fun _ => true). reflexivity.
Qed.

(** C2, as the code has it: when the [match] keyword is absent, or meets
    the whole table (no index-level criterion narrows before it, it asks for
    one name, the labels identify the rows), the selection by successive
    narrowing is the selection by the conjunction of the masks computed over
    the whole table, answer for answer and exception for exception. *)
Theorem narrowing_is_the_conjunction (df : DataFrame) (selection : list sel)
    (kwdValues : list (string * string)) (useIndex regexPattern : bool)
    (kwds : list (string * sel)) :
  ~ In "match" (map fst kwds)
  \/ ((useIndex = false
       \/ forall v, In v selection -> sel_in v (skipSelect regexPattern) = true)
      /\ match_on_whole_table df (map (fun _ => true) (rows df)) kwds) ->
  _frameFilter df selection kwdValues useIndex false regexPattern kwds
  = select_conjunction df selection kwdValues useIndex regexPattern kwds.
Proof.
  intros H. rewrite frameFilter_normal_form by (right; exact H). reflexivity.
Qed.

(** The exclusion is the complement of the conjunction for every call, the
    [match] keyword included. *)
Lemma exclusion_is_the_complement (df : DataFrame) (selection : list sel)
    (kwdValues : list (string * string)) (useIndex regexPattern : bool)
    (kwds : list (string * sel)) :
  _frameFilter df selection kwdValues useIndex true regexPattern kwds
  = exclude_conjunction df selection kwdValues useIndex regexPattern kwds.
Proof. rewrite frameFilter_normal_form by (left; reflexivity). reflexivity. Qed.

(** C1, as the code has it: when the [match] keyword is absent, or meets
    the whole table (no index-level criterion narrows before it, it asks for
    one name, the labels identify the rows), the call in select mode and the
    call in exclude mode with the same criteria fail together or answer
    together, and then their rows are disjoint and make up the rows of the
    table. *)
Theorem select_and_exclude_split_the_table (df : DataFrame) (selection : list sel)
    (kwdValues : list (string * string)) (useIndex regexPattern : bool)
    (kwds : list (string * sel)) :
  ~ In "match" (map fst kwds)
  \/ ((useIndex = false
       \/ forall v, In v selection -> sel_in v (skipSelect regexPattern) = true)
      /\ match_on_whole_table df (map (fun _ => true) (rows df)) kwds) ->
  (exists e,
     _frameFilter df selection kwdValues useIndex false regexPattern kwds = Raise e
     /\ _frameFilter df selection kwdValues useIndex true regexPattern kwds = Raise e)
  \/ (exists selected excluded,
        _frameFilter df selection kwdValues useIndex false regexPattern kwds = Ok selected
        /\ _frameFilter df selection kwdValues useIndex true regexPattern kwds = Ok excluded
        /\ (forall r, In r (rows df) <-> In r (rows selected) \/ In r (rows excluded))
        /\ (forall r, ~ (In r (rows selected) /\ In r (rows excluded)))
        /\ Permutation (rows selected ++ rows excluded) (rows df)).
Proof.
  intros H.
  rewrite (frameFilter_normal_form df selection kwdValues useIndex false)
    by (right; exact H).
  rewrite (frameFilter_normal_form df selection kwdValues useIndex true) by (left; reflexivity).
  destruct (full_table_masks df selection kwdValues useIndex regexPattern kwds)
    as [masks|e] eqn:Hmasks; cbn [bind].
  - right. destruct (all_of_row_wise _ _ _ _ _ _ _ Hmasks) as [keep Hkeep].
    rewrite Hkeep. do 2 eexists. split; [reflexivity|]. split; [reflexivity|].
    unfold loc_mask. cbn [rows with_rows].
    rewrite map_map, !select_mask_map.
    split; [|split].
    + intros r. rewrite !filter_In. destruct (keep r); simpl; intuition congruence.
    + intros r. rewrite !filter_In. destruct (keep r); simpl; intuition congruence.
    + apply filter_split_perm.
  - left. exists e. split; reflexivity.
Qed.

End RowWise.

Lemma datasets_labels_identify : NoDup (map label (rows datasets)).
Proof.
  simpl. repeat constructor; simpl; intros H;
    repeat (destruct H as [H|H]; [discriminate H|]); exact H.
Qed.

Lemma narrowing_is_the_conjunction_witness :
  @_frameFilter reference datasets [SStr "SYS1.*"] [("uacc", "DSBD_UACC")] true false false
     [("uacc", SStr "READ"); ("NAME", SStr "*SYS*")]
  = Ok (with_rows datasets [ mkRow ["SYS1.*"] ["SYS1.*"; "READ"] ])
  /\ @_frameFilter reference datasets [SNone; SStr "READ"] [] false false false
       [("match", SStr "SYS1.PARMLIB")]
     = Ok (with_rows datasets [ mkRow ["SYS1.*"] ["SYS1.*"; "READ"] ]).
Proof.
  split.
  - rewrite (@narrowing_is_the_conjunction reference datasets [SStr "SYS1.*"]
               [("uacc", "DSBD_UACC")] true false
               [("uacc", SStr "READ"); ("NAME", SStr "*SYS*")]).
    + reflexivity.
    + left. simpl. intros [H|[H|[]]]; discriminate H.
  - rewrite (@narrowing_is_the_conjunction reference datasets [SNone; SStr "READ"]
               [] false false [("match", SStr "SYS1.PARMLIB")]).
    + reflexivity.
    + right. split; [left; reflexivity|].
      split; [reflexivity|]. split; [exact datasets_labels_identify|]. split.
      * simpl. constructor; [intros [] | constructor].
      * intros v [H|[]]. injection H as <-. exists "SYS1.PARMLIB". reflexivity.
Defined.

(** C2, as stated, fails with the [match] keyword behind an index-level
    criterion: on the narrowed table the resolver finds the profile
    [SYS1.PARMLIB], over the whole table it finds [SYS1.*], which the index
    criterion rejects, so the conjunction keeps no row. *)
Lemma narrowing_before_match_differs :
  @_frameFilter reference datasets [SStr "SYS1.PARMLIB"] [] true false false
     [("match", SStr "SYS1.PARMLIB")]
  = Ok (with_rows datasets [ mkRow ["SYS1.PARMLIB"] ["SYS1.PARMLIB"; "NONE"] ])
  /\ @select_conjunction reference datasets [SStr "SYS1.PARMLIB"] [] true false
       [("match", SStr "SYS1.PARMLIB")]
     = Ok (with_rows datasets []).
Proof. split; reflexivity. Qed.

Lemma select_and_exclude_split_witness :
  Permutation
    ([ mkRow ["SYS1.*"] ["SYS1.*"; "READ"] ]
     ++ [ mkRow ["SYS1.PARMLIB"] ["SYS1.PARMLIB"; "NONE"];
          mkRow ["MYSYS1.DATA"] ["MYSYS1.DATA"; "NONE"] ])
    (rows datasets).
Proof.
  assert (Hno : ~ In "match" (map fst [("uacc", SStr "READ")])).
  { simpl. intros [H|[]]. discriminate H. }
  destruct (@select_and_exclude_split_the_table reference datasets [SStr "SYS1.*"]
              [("uacc", "DSBD_UACC")] true false [("uacc", SStr "READ")] (or_introl Hno))
    as [[e [Hs _]] | [selected [excluded [Hs [He [_ [_ Hperm]]]]]]].
  - discriminate Hs.
  - injection Hs as <-. injection He as <-. exact Hperm.
Defined.

(** C1, as stated, fails with the [match] keyword behind an index-level
    criterion: the selection resolves the name on the narrowed table, the
    exclusion on the whole table, and the profile [BPX.SUPERUSER] of the
    class FACILITY is in both answers. *)
Lemma select_and_exclude_overlap :
  @_frameFilter reference facility [SNone; SStr "BPX.SUPERUSER"] [] true false false
     [("match", SStr "BPX.SUPERUSER")]
  = Ok (with_rows facility
          [ mkRow ["FACILITY"; "BPX.SUPERUSER"] ["FACILITY"; "BPX.SUPERUSER"; "READ"];
            mkRow ["XFACILIT"; "BPX.SUPERUSER"] ["XFACILIT"; "BPX.SUPERUSER"; "NONE"] ])
  /\ @_frameFilter reference facility [SNone; SStr "BPX.SUPERUSER"] [] true true false
       [("match", SStr "BPX.SUPERUSER")]
     = Ok (with_rows facility
             [ mkRow ["FACILITY"; "BPX.*"] ["FACILITY"; "BPX.*"; "NONE"];
               mkRow ["FACILITY"; "BPX.SUPERUSER"] ["FACILITY"; "BPX.SUPERUSER"; "READ"] ]).
Proof. split; reflexivity. Qed.

(** * Further properties of the two routines *)

(** ** The filter: edges and errors *)

Lemma select_mask_none {A : Type} (l : list A) :
  select_mask (map negb (map (fun _ => true) l)) l = [].
Proof. induction l as [|x l IH]; simpl; [reflexivity | exact IH]. Qed.

Lemma position_absent (x : string) (l : list string) :
  ~ In x l -> position x l = None.
Proof.
  induction l as [|y l IH]; simpl; intros H; [reflexivity|].
  destruct (String.eqb_spec y x) as [E|E].
  - exfalso. apply H. left. exact E.
  - rewrite IH; [reflexivity|]. intros Hin. apply H. right. exact Hin.
Qed.

Section Edges.

Context {ext : Collaborators}.

Lemma positional_columns_all_skipped (cols : list string) (regexPattern : bool)
    (selection : list sel) :
  (forall v, In v selection -> sel_in v (skipSelect regexPattern) = true) ->
  forall s, positional_columns cols regexPattern s selection = Ok [].
Proof.
  induction selection as [|v rest IH]; intros Hskip s; simpl; [reflexivity|].
  rewrite (Hskip v (or_introl eq_refl)). apply IH. intros w Hw. apply Hskip. right. exact Hw.
Qed.

(** When every positional value is a skip marker ([None], [**], and [.*]
    under [regexPattern]) and there is no keyword, select mode returns the
    table as it is and exclude mode returns no row at all: [locs] is still
    all true when it is inverted. *)
Theorem no_criterion_selects_all_excludes_all (df : DataFrame) (selection : list sel)
    (kwdValues : list (string * string)) (useIndex regexPattern : bool) :
  (forall v, In v selection -> sel_in v (skipSelect regexPattern) = true) ->
  _frameFilter df selection kwdValues useIndex false regexPattern [] = Ok df
  /\ _frameFilter df selection kwdValues useIndex true regexPattern [] = Ok (with_rows df []).
Proof.
  intros Hskip.
  assert (Hmasks : full_table_masks df selection kwdValues useIndex regexPattern [] = Ok []).
  { unfold full_table_masks.
    rewrite (index_masks_all_skipped _ _ _ Hskip), (positional_columns_all_skipped _ _ _ Hskip).
    destruct useIndex; reflexivity. }
  split.
  - rewrite frameFilter_normal_form by (right; left; intros []).
    rewrite Hmasks. cbn [bind]. unfold all_of, loc_mask. cbn [fold_left].
    rewrite select_mask_all, with_rows_rows. reflexivity.
  - rewrite frameFilter_normal_form by (left; reflexivity).
    rewrite Hmasks. cbn [bind]. unfold all_of, loc_mask. cbn [fold_left].
    rewrite select_mask_none. reflexivity.
Qed.

Lemma column_loop_beyond (regexPattern : bool) (selection : list sel) :
  forall st k j v,
    nth_error selection j = Some v ->
    sel_in v (skipSelect regexPattern) = false ->
    List.length (columns (cur st)) <= k + j ->
    column_loop regexPattern st k selection = Raise IndexError.
Proof.
  induction selection as [|w rest IH]; intros st k j v Hnth Hv Hlen.
  - destruct j; discriminate Hnth.
  - cbn [column_loop]. destruct j as [|j].
    + injection Hnth as ->. rewrite Hv. cbn [negb].
      destruct (nth_error (columns (cur st)) k) eqn:E; [|reflexivity].
      exfalso. apply nth_error_None in Hlen. rewrite Nat.add_0_r in Hlen. congruence.
    + cbn [nth_error] in Hnth.
      destruct (negb (sel_in w (skipSelect regexPattern))).
      * destruct (nth_error (columns (cur st)) k); [|reflexivity].
        apply (IH _ _ j v Hnth Hv). cbn [push cur]. lia.
      * apply (IH _ _ j v Hnth Hv). lia.
Qed.

(** Without [useIndex], a positional value that is not a skip marker and
    stands at or beyond the number of columns makes the call raise
    [IndexError], whatever the other criteria are. *)
Theorem positional_beyond_the_columns (df : DataFrame) (selection : list sel)
    (kwdValues : list (string * string)) (exclude regexPattern : bool)
    (kwds : list (string * sel)) (s : nat) (v : sel) :
  nth_error selection s = Some v ->
  sel_in v (skipSelect regexPattern) = false ->
  List.length (columns df) <= s ->
  _frameFilter df selection kwdValues false exclude regexPattern kwds = Raise IndexError.
Proof.
  intros Hnth Hv Hlen. unfold _frameFilter.
  rewrite (column_loop_beyond regexPattern selection _ 0 s v Hnth Hv); [reflexivity|].
  cbn [cur]. lia.
Qed.

(** An alias of [kwdValues] that names a column the table does not have
    makes the call raise [KeyError] for that column, whatever value the
    keyword carries. *)
Theorem alias_of_a_missing_column (df : DataFrame) (kwdValues : list (string * string))
    (useIndex exclude regexPattern : bool) (kwd col : string) (v : sel) :
  kwd <> "match" ->
  assoc kwd kwdValues = Some col ->
  ~ In col (columns df) ->
  _frameFilter df [] kwdValues useIndex exclude regexPattern [(kwd, v)] = Raise (KeyError col).
Proof.
  intros Hm Ha Hc. apply String.eqb_neq in Hm. apply position_absent in Hc.
  unfold _frameFilter.
  replace (if useIndex
           then index_loop regexPattern exclude
                  (mkState df (map (fun _ => true) (rows df)) []) 0 []
           else column_loop regexPattern (mkState df (map (fun _ => true) (rows df)) []) 0 [])
    with (Ok (mkState df (map (fun _ => true) (rows df)) [])) by (destruct useIndex; reflexivity).
  cbn [bind fold_result]. unfold kwd_step. cbn [fst snd cur]. rewrite Hm, Ha.
  cbn [bind push columnSelect app fold_result cur locs].
  unfold column_step, push. cbn [cur fst snd]. unfold column_result, column. rewrite Hc.
  destruct (regexPattern || isPattern v); [reflexivity|]. destruct v; reflexivity.
Qed.

Lemma unsupported_frame_type (p : string) :
  Py.mem (substring 0 2 p) ["DS"; "GR"] = false ->
  String.eqb (substring 0 2 p) "DS" = false /\ String.eqb (substring 0 2 p) "GR" = false.
Proof.
  cbn [Py.mem]. rewrite orb_false_r. intros H. apply orb_false_iff in H as [H1 H2].
  rewrite String.eqb_sym in H1. rewrite String.eqb_sym in H2. split; assumption.
Qed.

(** On a frame that is neither a data set nor a general resource frame (no
    field prefix, or one that starts otherwise) [match] raises its
    [TypeError] whatever its arguments are, and so does the filter as soon
    as it reads the [match] keyword. *)
Theorem match_needs_a_resource_frame (df : DataFrame) :
  supports_match df = Ok false ->
  (forall selection, match_ df selection = Raise (TypeError msg_match_only))
  /\ (forall kwdValues useIndex exclude regexPattern v rest,
        _frameFilter df [] kwdValues useIndex exclude regexPattern (("match", v) :: rest)
        = Raise (TypeError msg_match_only)).
Proof.
  intros Hs. split.
  - intros selection. unfold match_. unfold supports_match in Hs.
    destruct (_fieldPrefix df) as [| |p]; [reflexivity | discriminate Hs |].
    injection Hs as Hs.
    destruct (unsupported_frame_type p Hs) as [H1 H2].
    unfold match_frames. rewrite H1, H2. reflexivity.
  - intros kwdValues useIndex exclude regexPattern v rest. unfold _frameFilter.
    replace (if useIndex
             then index_loop regexPattern exclude
                    (mkState df (map (fun _ => true) (rows df)) []) 0 []
             else column_loop regexPattern (mkState df (map (fun _ => true) (rows df)) []) 0 [])
      with (Ok (mkState df (map (fun _ => true) (rows df)) [])) by (destruct useIndex; reflexivity).
    cbn [bind fold_result]. unfold kwd_step. cbn [fst snd cur]. rewrite Hs. reflexivity.
Qed.

(** On a general resource frame [match] takes one or two positional
    arguments; with none, or with three or more, it raises the [TypeError]
    of the arity check before anything is looked up. *)
Theorem match_resource_arity (df : DataFrame) (prefix : string) (selection : list sel) :
  _fieldPrefix df = Text prefix -> substring 0 2 prefix = "GR" ->
  List.length selection = 0 \/ 3 <= List.length selection ->
  match_ df selection = Raise (TypeError msg_gr_arity).
Proof.
  intros Hp Hgr Hlen. unfold match_. rewrite Hp, (gr_frame_dispatch _ _ _ Hgr).
  destruct selection as [|a [|b [|c l]]]; simpl in Hlen; try lia; reflexivity.
Qed.

End Edges.

Lemma no_criterion_witness :
  @_frameFilter reference datasets [SNone; SStr "**"] [] false false false [] = Ok datasets
  /\ @_frameFilter reference datasets [SStr ".*"] [] true true true []
     = Ok (with_rows datasets []).
Proof.
  split.
  - apply (@no_criterion_selects_all_excludes_all reference datasets [SNone; SStr "**"]
             [] false false).
    intros v [<-|[<-|[]]]; reflexivity.
  - apply (@no_criterion_selects_all_excludes_all reference datasets [SStr ".*"] [] true true).
    intros v [<-|[]]. reflexivity.
Defined.

Lemma positional_beyond_the_columns_witness :
  @_frameFilter reference datasets [SNone; SNone; SStr "NONE"] [] false false false
     [("uacc", SStr "READ")]
  = Raise IndexError.
Proof.
  apply (@positional_beyond_the_columns reference datasets [SNone; SNone; SStr "NONE"]
           [] false false [("uacc", SStr "READ")] 2 (SStr "NONE")).
  - reflexivity.
  - reflexivity.
  - simpl. lia.
Defined.

Lemma alias_of_a_missing_column_witness :
  @_frameFilter reference datasets [] [("owner", "DSBD_OWNER_ID")] true false false
     [("owner", SStr "SYS1")]
  = Raise (KeyError "DSBD_OWNER_ID").
Proof.
  apply (@alias_of_a_missing_column reference datasets [("owner", "DSBD_OWNER_ID")]
           true false false "owner" "DSBD_OWNER_ID" (SStr "SYS1")).
  - discriminate.
  - reflexivity.
  - simpl. intros [H|[H|[]]]; discriminate H.
Defined.

Lemma match_needs_a_resource_frame_witness :
  @match_ reference users [SStr "IBMUSER"] = Raise (TypeError msg_match_only)
  /\ @_frameFilter reference users [] [] true false false [("match", SStr "IBMUSER")]
     = Raise (TypeError msg_match_only).
Proof.
  destruct (@match_needs_a_resource_frame reference users eq_refl) as [Hm Hf].
  split; [apply Hm | apply Hf].
Defined.

Lemma match_resource_arity_witness :
  @match_ reference facility [] = Raise (TypeError msg_gr_arity)
  /\ @match_ reference facility [SStr "FACILITY"; SStr "BPX.SUPERUSER"; SStr "READ"]
     = Raise (TypeError msg_gr_arity).
Proof.
  split.
  - apply (@match_resource_arity reference facility "GRBD_" []); try reflexivity.
    left. reflexivity.
  - apply (@match_resource_arity reference facility "GRBD_"
             [SStr "FACILITY"; SStr "BPX.SUPERUSER"; SStr "READ"]); try reflexivity.
    right. simpl. lia.
Defined.

(** ** The filter: one keyword *)

Lemma filter_none {A : Type} (l : list A) : filter (fun _ => false) l = [].
Proof. induction l as [|x l IH]; simpl; [reflexivity | exact IH]. Qed.

Lemma first_is_absent (c : ascii) (s : string) :
  ~ In c (list_ascii_of_string s) -> Py.first_is c s = false.
Proof.
  destruct s as [|d s]; [reflexivity|]. unfold Py.first_is. simpl. intros H.
  destruct (Ascii.eqb_spec d c) as [->|E]; [|reflexivity].
  exfalso. apply H. left. reflexivity.
Qed.

Section OneKeyword.

Context {ext : Collaborators}.

(** A text without [*] and [%] is compared for equality. *)
Lemma generic_mask_literal (values : list string) (lit : string) :
  ~ In "*"%char (list_ascii_of_string lit) ->
  ~ In "%"%char (list_ascii_of_string lit) ->
  generic_mask values lit = map (fun x => String.eqb x lit) values.
Proof.
  intros Hs Hp. unfold generic_mask, is_contains, is_literal.
  rewrite (first_is_absent _ _ Hs), andb_false_r. cbn [andb].
  apply find_absent in Hs. apply find_absent in Hp. rewrite Hs, Hp.
  rewrite orb_true_r. reflexivity.
Qed.

Lemma one_keyword (df : DataFrame) (kwdValues : list (string * string))
    (useIndex exclude regexPattern : bool) (kwd col : string) (v : sel) :
  kwd <> "match" ->
  assoc kwd kwdValues = Some col ->
  _frameFilter df [] kwdValues useIndex exclude regexPattern [(kwd, v)]
  = (res <- column_result df col regexPattern v ;;
     Ok (if exclude
         then loc_mask df (map negb (and_mask (map (fun _ => true) (rows df)) res))
         else loc_mask df res)).
Proof.
  intros Hm Ha. apply String.eqb_neq in Hm. unfold _frameFilter.
  replace (if useIndex
           then index_loop regexPattern exclude
                  (mkState df (map (fun _ => true) (rows df)) []) 0 []
           else column_loop regexPattern (mkState df (map (fun _ => true) (rows df)) []) 0 [])
    with (Ok (mkState df (map (fun _ => true) (rows df)) [])) by (destruct useIndex; reflexivity).
  cbn [bind fold_result]. unfold kwd_step. cbn [fst snd cur]. rewrite Hm, Ha.
  cbn [bind]. unfold push. cbn [columnSelect app fold_result cur locs].
  unfold column_step. cbn [cur fst snd].
  destruct (column_result df col regexPattern v) as [res|e]; cbn [bind]; [|reflexivity].
  unfold apply_result. destruct exclude; reflexivity.
Qed.

(** What one keyword bound to a column through the alias map selects, by the
    kind of its value: a text without wildcard characters keeps the rows
    whose cell equals it; a list of such texts keeps the rows whose cell is
    a member; [**] keeps the rows whose cell is not empty; [None] keeps no
    row (as a keyword value [None] is compared with the cells, it is a skip
    marker only as a positional value). *)
Theorem keyword_bound_to_a_column (df : DataFrame) (kwdValues : list (string * string))
    (useIndex : bool) (kwd col : string) (i : nat) :
  kwd <> "match" ->
  assoc kwd kwdValues = Some col ->
  position col (columns df) = Some i ->
  (forall lit,
     ~ In "*"%char (list_ascii_of_string lit) -> ~ In "%"%char (list_ascii_of_string lit) ->
     _frameFilter df [] kwdValues useIndex false false [(kwd, SStr lit)]
     = Ok (with_rows df
             (filter (fun r => String.eqb (nth i (cells r) EmptyString) lit) (rows df))))
  /\ (forall lits,
        (forall lit, In lit lits ->
           ~ In "*"%char (list_ascii_of_string lit)
           /\ ~ In "%"%char (list_ascii_of_string lit)) ->
        _frameFilter df [] kwdValues useIndex false false [(kwd, SList lits)]
        = Ok (with_rows df
                (filter (fun r => Py.mem (nth i (cells r) EmptyString) lits) (rows df))))
  /\ _frameFilter df [] kwdValues useIndex false false [(kwd, SStr "**")]
     = Ok (with_rows df
             (filter (fun r => negb (String.eqb (nth i (cells r) EmptyString) EmptyString))
                (rows df)))
  /\ _frameFilter df [] kwdValues useIndex false false [(kwd, SNone)] = Ok (with_rows df []).
Proof.
  intros Hm Ha Hpos.
  assert (Hcol : column df col = Ok (map (fun r => nth i (cells r) EmptyString) (rows df))).
  { unfold column. rewrite Hpos. reflexivity. }
  split; [|split; [|split]].
  - intros lit Hs Hp. rewrite (one_keyword _ _ _ _ _ _ _ _ Hm Ha).
    unfold column_result. cbn [orb isPattern]. rewrite Hcol. cbn [bind].
    assert (Hne : String.eqb lit "**" = false).
    { apply String.eqb_neq. intros ->. apply Hs. left. reflexivity. }
    rewrite Hne, (generic_mask_literal _ _ Hs Hp).
    unfold loc_mask. rewrite map_map, select_mask_map. reflexivity.
  - intros lits Hlits. rewrite (one_keyword _ _ _ _ _ _ _ _ Hm Ha).
    unfold column_result. cbn [orb isPattern]. rewrite Hcol. cbn [bind].
    assert (Hgen : existsb (fun s => (0 <=? Py.find "*"%char s)%Z || (0 <=? Py.find "%"%char s)%Z)
                     lits = false).
    { apply not_true_is_false. intros E. apply existsb_exists in E as [lit [Hin E]].
      destruct (Hlits lit Hin) as [Hs Hp].
      apply find_absent in Hs. apply find_absent in Hp. rewrite Hs, Hp in E. discriminate E. }
    rewrite Hgen. unfold loc_mask. rewrite map_map, select_mask_map. reflexivity.
  - rewrite (one_keyword _ _ _ _ _ _ _ _ Hm Ha).
    unfold column_result. cbn [orb isPattern]. rewrite Hcol. cbn [bind].
    rewrite String.eqb_refl. unfold loc_mask. rewrite map_map, select_mask_map. reflexivity.
  - rewrite (one_keyword _ _ _ _ _ _ _ _ Hm Ha).
    unfold column_result. cbn [orb isPattern]. rewrite Hcol. cbn [bind].
    unfold loc_mask. rewrite map_map, select_mask_map, filter_none. reflexivity.
Qed.

(** The [match] keyword alone: in select mode the filter returns the answer
    of [match]; in exclude mode it drops every row of the table whose index
    label is a label of that answer. *)
Theorem match_keyword_alone (df m : DataFrame) (kwdValues : list (string * string))
    (useIndex regexPattern : bool) (v : sel) :
  supports_match df = Ok true ->
  match_ df [v] = Ok m ->
  _frameFilter df [] kwdValues useIndex false regexPattern [("match", v)] = Ok m
  /\ _frameFilter df [] kwdValues useIndex true regexPattern [("match", v)]
     = Ok (with_rows df
             (filter (fun r => negb (existsb (fun r' => label_eqb (label r') (label r)) (rows m)))
                (rows df))).
Proof.
  intros Hs Hmatch.
  assert (Hrun : forall exclude,
            _frameFilter df [] kwdValues useIndex exclude regexPattern [("match", v)]
            = Ok (if exclude
                  then loc_mask df (map negb (and_mask (map (fun _ => true) (rows df))
                                               (index_isin df m)))
                  else m)).
  { intros exclude. unfold _frameFilter.
    replace (if useIndex
             then index_loop regexPattern exclude
                    (mkState df (map (fun _ => true) (rows df)) []) 0 []
             else column_loop regexPattern (mkState df (map (fun _ => true) (rows df)) []) 0 [])
      with (Ok (mkState df (map (fun _ => true) (rows df)) [])) by (destruct useIndex; reflexivity).
    cbn [bind fold_result]. unfold kwd_step. cbn [fst snd cur String.eqb].
    change (String.eqb "match" "match") with true. cbn iota.
    rewrite Hs, Hmatch. cbn [bind]. destruct exclude; reflexivity. }
  split; [apply Hrun|].
  rewrite Hrun. unfold index_isin. rewrite and_mask_all.
  unfold loc_mask. rewrite map_map, select_mask_map. reflexivity.
Qed.

(** The filter never reorders or repeats rows: in exclude mode, and in
    select mode without the [match] keyword, the answer holds the rows of
    the table that pass one test of the single row, in table order. *)
Theorem filter_keeps_the_table_order (df out : DataFrame) (selection : list sel)
    (kwdValues : list (string * string)) (useIndex exclude regexPattern : bool)
    (kwds : list (string * sel)) :
  exclude = true \/ ~ In "match" (map fst kwds) ->
  _frameFilter df selection kwdValues useIndex exclude regexPattern kwds = Ok out ->
  exists keep : Row -> bool, out = with_rows df (filter keep (rows df)).
Proof.
  intros Hmode H.
  rewrite frameFilter_normal_form in H
    by (destruct Hmode as [E|E]; [left; exact E | right; left; exact E]).
  apply bind_ok in H as [masks [Hmasks H]]. injection H as <-.
  destruct (all_of_row_wise _ _ _ _ _ _ _ Hmasks) as [keep Hkeep]. rewrite Hkeep.
  destruct exclude.
  - exists (fun r => negb (keep r)). unfold loc_mask. rewrite map_map, select_mask_map.
    reflexivity.
  - exists keep. unfold loc_mask. rewrite select_mask_map. reflexivity.
Qed.

End OneKeyword.

Lemma keyword_bound_to_a_column_witness :
  @_frameFilter reference users [] [("owner", "USBD_OWNER")] true false false
     [("owner", SStr "IBMUSER")]
  = Ok (with_rows users [ mkRow ["OPER"] ["OPER"; "IBMUSER"; "operator"];
                          mkRow ["SYSPROG"] ["SYSPROG"; "IBMUSER"; "systems"] ])
  /\ @_frameFilter reference users [] [("data", "USBD_INSTDATA")] true false false
       [("data", SStr "**")]
     = Ok (with_rows users [ mkRow ["OPER"] ["OPER"; "IBMUSER"; "operator"];
                             mkRow ["SYSPROG"] ["SYSPROG"; "IBMUSER"; "systems"] ])
  /\ @_frameFilter reference users [] [("owner", "USBD_OWNER")] true false false
       [("owner", SNone)]
     = Ok (with_rows users []).
Proof.
  assert (Hm : forall k, k = "owner" \/ k = "data" -> k <> "match").
  { intros k [->| ->]; discriminate. }
  destruct (@keyword_bound_to_a_column reference users [("owner", "USBD_OWNER")] true
              "owner" "USBD_OWNER" 1 (Hm _ (or_introl eq_refl)) eq_refl eq_refl)
    as [Hlit [_ [_ Hnone]]].
  destruct (@keyword_bound_to_a_column reference users [("data", "USBD_INSTDATA")] true
              "data" "USBD_INSTDATA" 2 (Hm _ (or_intror eq_refl)) eq_refl eq_refl)
    as [_ [_ [Hany _]]].
  split; [|split].
  - apply (Hlit "IBMUSER"); simpl; intros H;
      repeat (destruct H as [H|H]; [discriminate H|]); exact H.
  - exact Hany.
  - exact Hnone.
Defined.

Lemma match_keyword_alone_witness :
  @_frameFilter reference datasets [] [] true false false [("match", SStr "SYS1.PARMLIB")]
  = Ok (with_rows datasets [ mkRow ["SYS1.*"] ["SYS1.*"; "READ"] ])
  /\ @_frameFilter reference datasets [] [] true true false [("match", SStr "SYS1.PARMLIB")]
     = Ok (with_rows datasets [ mkRow ["SYS1.PARMLIB"] ["SYS1.PARMLIB"; "NONE"];
                                mkRow ["MYSYS1.DATA"] ["MYSYS1.DATA"; "NONE"] ]).
Proof.
  apply (@match_keyword_alone reference datasets
           (with_rows datasets [ mkRow ["SYS1.*"] ["SYS1.*"; "READ"] ])
           [] true false (SStr "SYS1.PARMLIB")); reflexivity.
Defined.

Lemma filter_keeps_the_table_order_witness :
  exists keep : Row -> bool,
    with_rows facility
      [ mkRow ["FACILITY"; "BPX.*"] ["FACILITY"; "BPX.*"; "NONE"];
        mkRow ["FACILITY"; "BPX.SUPERUSER"] ["FACILITY"; "BPX.SUPERUSER"; "READ"] ]
    = with_rows facility (filter keep (rows facility)).
Proof.
  apply (@filter_keeps_the_table_order reference facility _ [SNone; SStr "BPX.SUPERUSER"] []
           true true false [("match", SStr "BPX.SUPERUSER")]).
  - left. reflexivity.
  - reflexivity.
Defined.

(** ** The resolver on data set frames: which profile is picked *)

Lemma filter_and {A : Type} (a b : A -> bool) (l : list A) :
  filter (fun x => a x && b x) l = filter b (filter a l).
Proof.
  induction l as [|x l IH]; simpl; [reflexivity|].
  destruct (a x); simpl; [destruct (b x); rewrite IH; reflexivity | exact IH].
Qed.

Lemma qualifier_present (sel : string) :
  In "."%char (list_ascii_of_string sel) -> qualifier sel <> EmptyString.
Proof.
  intros Hin. unfold qualifier, Py.slice_to.
  destruct sel as [|d sel]; [contradiction|].
  destruct (find_from_bounds "."%char (String d sel) 0 (Z.le_refl 0)) as [H|H].
  - exfalso. apply (proj1 (find_absent _ _) H). exact Hin.
  - fold (Py.find "."%char (String d sel)) in H.
    replace (Z.to_nat (Py.find "."%char (String d sel) + 1))
      with (S (Z.to_nat (Py.find "."%char (String d sel)))) by lia.
    simpl. discriminate.
Qed.

Section PickedProfile.

Context {ext : Collaborators}.

(** The body of the loop over the names in terms of the rows of the table:
    the rows whose label text holds the qualifier and whose profile name, as
    a pattern, matches the queried name. *)
Lemma ds_name_rows (df : DataFrame) (prefix sel : string) (i : nat)
    (frames : list DataFrame) :
  position (prefix ++ "NAME") (columns df) = Some i ->
  In "."%char (list_ascii_of_string sel) ->
  ds_name df prefix frames (SStr sel)
  = if (List.length
          (filter (fun r => Py.contains (qualifier sel) (label_text (label r))) (rows df)) =? 0)%nat
    then Ok frames
    else
      picked <- first_profile
                  (with_rows df
                     (filter (fun r => Py.contains (qualifier sel) (label_text (label r))
                                       && re_match (generic2regex (nth i (cells r) EmptyString)) sel)
                        (rows df))) ;;
      Ok (frames ++ [picked]).
Proof.
  intros Hpos Hsep. unfold ds_name.
  pose proof (qualifier_present _ Hsep) as Hq. apply String.eqb_neq in Hq. rewrite Hq.
  cbn [negb]. unfold empty, filter_like. cbn [rows columns with_rows].
  assert (Hcols : (List.length (columns df) =? 0)%nat = false).
  { destruct (columns df); [discriminate Hpos | reflexivity]. }
  rewrite Hcols, orb_false_r.
  destruct (List.length (filter _ (rows df)) =? 0)%nat; cbn [negb]; [reflexivity|].
  unfold column.
  change (columns (with_rows df ?rs)) with (columns df).
  change (rows (with_rows df ?rs)) with rs.
  rewrite Hpos. cbn [bind]. unfold loc_mask, name_mask.
  change (rows (with_rows df ?rs)) with rs.
  rewrite map_map, select_mask_map, <- filter_and. reflexivity.
Qed.

(** On a data set frame with a one-level index, [match] for one qualified
    name returns the first row, in table order, whose label holds the
    qualifier and whose profile name matches the queried name as a pattern,
    and the empty frame when there is none: the first match wins, not the
    most specific one, and the answer never has more than one row. *)
Theorem match_dataset_first_match_wins (df : DataFrame) (prefix sel : string) (i : nat) :
  _fieldPrefix df = Text prefix -> substring 0 2 prefix = "DS" ->
  List.length (index_names df) = 1 ->
  position (prefix ++ "NAME") (columns df) = Some i ->
  In "."%char (list_ascii_of_string sel) ->
  match_ df [SStr sel]
  = Ok (with_rows df
          (firstn 1
             (filter (fun r => Py.contains (qualifier sel) (label_text (label r))
                               && re_match (generic2regex (nth i (cells r) EmptyString)) sel)
                (rows df)))).
Proof.
  intros Hp Hds Hlev Hpos Hsep.
  unfold match_. rewrite Hp, (ds_frame_dispatch _ _ _ Hp Hds).
  cbn [listMe fold_result]. rewrite (ds_name_rows _ _ _ _ _ Hpos Hsep).
  rewrite filter_and.
  destruct (filter (fun r => Py.contains (qualifier sel) (label_text (label r))) (rows df))
    as [|r l]; cbn [List.length Nat.eqb bind].
  - reflexivity.
  - unfold first_profile. cbn [index_names with_rows]. rewrite Hlev. reflexivity.
Qed.

(** On a data set frame with a multi-level index, when some row holds the
    qualifier in its label and matches the queried name, [match] returns
    all such rows that share the leading index key of the first of them:
    every permission of the winning profile. *)
Theorem match_dataset_all_permits (df : DataFrame) (prefix sel key : string) (i : nat)
    (r0 : Row) (others : list Row) (keys : list string) :
  _fieldPrefix df = Text prefix -> substring 0 2 prefix = "DS" ->
  List.length (index_names df) <> 1 ->
  position (prefix ++ "NAME") (columns df) = Some i ->
  In "."%char (list_ascii_of_string sel) ->
  filter (fun r => Py.contains (qualifier sel) (label_text (label r))
                   && re_match (generic2regex (nth i (cells r) EmptyString)) sel)
    (rows df) = r0 :: others ->
  label r0 = key :: keys ->
  match_ df [SStr sel]
  = Ok (with_rows df
          (filter (fun r => String.eqb (nth 0 (label r) EmptyString) key) (r0 :: others))).
Proof.
  intros Hp Hds Hlev Hpos Hsep HM Hkey.
  unfold match_. rewrite Hp, (ds_frame_dispatch _ _ _ Hp Hds).
  cbn [listMe fold_result]. rewrite (ds_name_rows _ _ _ _ _ Hpos Hsep).
  rewrite HM. rewrite filter_and in HM.
  destruct (filter (fun r => Py.contains (qualifier sel) (label_text (label r))) (rows df))
    as [|r l]; [discriminate HM|]. cbn [List.length Nat.eqb].
  unfold first_profile. cbn [index_names rows with_rows].
  apply Nat.eqb_neq in Hlev. rewrite Hlev, Hkey. reflexivity.
Qed.

End PickedProfile.

Lemma match_dataset_first_match_wins_witness :
  @match_ reference datasets [SStr "SYS1.PARMLIB"]
  = Ok (with_rows datasets [ mkRow ["SYS1.*"] ["SYS1.*"; "READ"] ]).
Proof.
  rewrite (@match_dataset_first_match_wins reference datasets "DSBD_" "SYS1.PARMLIB" 0);
    try reflexivity.
  simpl. do 4 right. left. reflexivity.
Defined.

Lemma match_dataset_all_permits_witness :
  @match_ reference permits [SStr "SYS1.PARMLIB"]
  = Ok (with_rows permits
          [ mkRow ["SYS1.PARMLIB"; "SYSPROG"; "ALTER"] ["SYS1.PARMLIB"; "SYSPROG"; "ALTER"];
            mkRow ["SYS1.PARMLIB"; "OPER"; "READ"] ["SYS1.PARMLIB"; "OPER"; "READ"] ]).
Proof.
  rewrite (@match_dataset_all_permits reference permits "DSACC_" "SYS1.PARMLIB" "SYS1.PARMLIB" 0
             (mkRow ["SYS1.PARMLIB"; "SYSPROG"; "ALTER"] ["SYS1.PARMLIB"; "SYSPROG"; "ALTER"])
             [ mkRow ["SYS1.PARMLIB"; "OPER"; "READ"] ["SYS1.PARMLIB"; "OPER"; "READ"] ]
             ["SYSPROG"; "ALTER"]); try reflexivity.
  - simpl. lia.
  - simpl. do 4 right. left. reflexivity.
Defined.

(** ** The resolver on general resource frames: edges and lists of names *)

Section ResourceEdges.

Context {ext : Collaborators}.

Lemma name_mask_no_match (names : list string) (sel : string) :
  (forall x, In x names -> re_match (generic2regex x) sel = false) ->
  forall (rs : list Row), select_mask (name_mask names sel) rs = [].
Proof.
  unfold name_mask. induction names as [|x names IH]; intros Hno rs; simpl; [reflexivity|].
  destruct rs as [|r rs]; [reflexivity|].
  rewrite (Hno x (or_introl eq_refl)). apply IH. intros y Hy. apply Hno. right. exact Hy.
Qed.

(** On a general resource frame, a queried name that no profile name
    matches gives the empty frame and no error (the walk over no row keeps
    nothing), unlike on a data set permission frame. *)
Theorem match_resource_without_profile (df : DataFrame) (prefix sel : string)
    (names : list string) :
  _fieldPrefix df = Text prefix -> substring 0 2 prefix = "GR" ->
  column df (prefix ++ "NAME") = Ok names ->
  (forall x, In x names -> re_match (generic2regex x) sel = false) ->
  match_ df [SStr sel] = Ok (with_rows df []).
Proof.
  intros Hp Hgr Hcol Hno.
  unfold match_. rewrite Hp, (gr_frame_dispatch _ _ _ Hgr).
  cbn [gr_start bind fst snd listMe].
  destruct (empty df); cbn [negb bind]; [reflexivity|].
  cbn [fold_result]. unfold gr_name. rewrite Hcol. cbn [bind fst snd].
  change (rows (loc_mask df ?m)) with (select_mask m (rows df)).
  rewrite (name_mask_no_match _ _ Hno). cbn [map walk bind fst snd app].
  unfold loc_mask. change (rows (with_rows df ?rs)) with rs.
  rewrite (name_mask_no_match _ _ Hno). reflexivity.
Qed.

Lemma ds_names_on_no_rows (df : DataFrame) (prefix : string) (names : list string) :
  rows df = [] ->
  (forall n, In n names -> In "."%char (list_ascii_of_string n)) ->
  fold_result (ds_name df prefix) [] (map SStr names) = Ok [].
Proof.
  intros Hrows. induction names as [|n names IH]; intros Hsep; [reflexivity|].
  cbn [map fold_result]. unfold ds_name at 1.
  pose proof (qualifier_present n (Hsep n (or_introl eq_refl))) as Hq.
  apply String.eqb_neq in Hq. rewrite Hq. cbn [negb].
  unfold empty, filter_like. change (rows (with_rows df ?rs)) with rs.
  rewrite Hrows. cbn [filter List.length Nat.eqb orb negb bind].
  apply IH. intros m Hm. apply Hsep. right. exact Hm.
Qed.

(** On a table without rows [match] returns the table: for every list of
    qualified names on a data set frame, and for whatever stands as the
    resource name on a general resource frame. *)
Theorem match_on_a_table_without_rows (df : DataFrame) (prefix : string) :
  rows df = [] -> _fieldPrefix df = Text prefix ->
  (substring 0 2 prefix = "DS" ->
   forall names, (forall n, In n names -> In "."%char (list_ascii_of_string n)) ->
     match_ df [SList names] = Ok df)
  /\ (substring 0 2 prefix = "GR" -> forall v, match_ df [v] = Ok df).
Proof.
  intros Hrows Hp.
  assert (Hhead : head 0 df = df).
  { unfold head. cbn [firstn]. rewrite <- Hrows. apply with_rows_rows. }
  split.
  - intros Hds names Hsep. unfold match_. rewrite Hp, (ds_frame_dispatch _ _ _ Hp Hds).
    cbn [listMe]. rewrite (ds_names_on_no_rows _ _ _ Hrows Hsep). cbn [bind].
    rewrite Hhead. reflexivity.
  - intros Hgr v. unfold match_. rewrite Hp, (gr_frame_dispatch _ _ _ Hgr).
    cbn [gr_start bind fst snd]. unfold empty. rewrite Hrows. cbn [List.length Nat.eqb orb negb bind].
    rewrite Hhead. reflexivity.
Qed.

(** On a general resource frame whose first matching row has the empty
    text as its class, [match] raises [UnboundLocalError]: the walk starts
    with [prevClass = ''], sees no change of class and reads [prevResource]
    before it is bound. *)
Theorem match_resource_empty_class (df : DataFrame) (prefix sel res : string)
    (names keys : list string) (r0 : Row) (others : list Row) :
  _fieldPrefix df = Text prefix -> substring 0 2 prefix = "GR" ->
  column df (prefix ++ "NAME") = Ok names ->
  select_mask (name_mask names sel) (rows df) = r0 :: others ->
  label r0 = EmptyString :: res :: keys ->
  match_ df [SStr sel] = Raise UnboundLocalError.
Proof.
  intros Hp Hgr Hcol HM Hlab.
  assert (Hne : empty df = false).
  { unfold empty. apply orb_false_iff. split.
    - destruct (rows df); [|reflexivity]. rewrite select_mask_nil in HM. discriminate HM.
    - unfold column in Hcol. destruct (columns df); [discriminate Hcol | reflexivity]. }
  unfold match_. rewrite Hp, (gr_frame_dispatch _ _ _ Hgr).
  cbn [gr_start bind fst snd listMe]. rewrite Hne. cbn [negb fold_result].
  unfold gr_name. rewrite Hcol. cbn [bind fst snd].
  change (rows (loc_mask df ?m)) with (select_mask m (rows df)).
  rewrite HM. cbn [map walk]. rewrite Hlab. reflexivity.
Qed.

(** A walk that answers when started with [prevResource] unbound gives the
    same marks from any start: the first row binds it anew. *)
Lemma walk_from_any_start (labels : list (list string)) (K : list bool)
    (fin : option string) :
  walk labels EmptyString None = Ok (K, fin) ->
  forall pr, exists fin', walk labels EmptyString pr = Ok (K, fin').
Proof.
  intros H pr. destruct labels as [|lab rest].
  - simpl in H. injection H as <- _. exists pr. reflexivity.
  - cbn [walk] in H |- *. destruct (unpack2 lab) as [i|e]; cbn [bind] in H |- *; [|discriminate H].
    destruct (negb (String.eqb (fst i) EmptyString)); [|discriminate H].
    exists fin. exact H.
Qed.

Lemma gr_name_from_any_state (start : DataFrame) (prefix n : string)
    (fs : list DataFrame) (pr : option string) :
  gr_name start prefix ([], None) (SStr n) = Ok (fs, pr) ->
  exists o, fs = [o]
    /\ forall st, exists pr', gr_name start prefix st (SStr n) = Ok (fst st ++ [o], pr').
Proof.
  unfold gr_name. destruct (column start (prefix ++ "NAME")) as [names|e]; cbn [bind];
    [|discriminate].
  cbn [fst snd].
  destruct (walk (map label (rows (loc_mask start (name_mask names n)))) EmptyString None)
    as [[K fin]|e] eqn:Hw; cbn [bind fst snd app]; [|discriminate].
  intros H. injection H as <- <-. eexists. split; [reflexivity|].
  intros st. destruct (walk_from_any_start _ _ _ Hw (snd st)) as [fin' Hw'].
  rewrite Hw'. cbn [bind fst snd]. exists fin'. reflexivity.
Qed.

Lemma gr_names_collect (start : DataFrame) (prefix : string) (names : list string)
    (outs : list DataFrame) :
  Forall2 (fun n o => exists pr, gr_name start prefix ([], None) (SStr n) = Ok ([o], pr))
    names outs ->
  forall st, exists pr',
    fold_result (gr_name start prefix) st (map SStr names) = Ok (fst st ++ outs, pr').
Proof.
  induction 1 as [|n o names outs [pr Hn] _ IH]; intros st.
  - exists (snd st). cbn [map fold_result]. rewrite app_nil_r. destruct st; reflexivity.
  - destruct (gr_name_from_any_state _ _ _ _ _ Hn) as [o' [Ho Hany]].
    injection Ho as <-. destruct (Hany st) as [pr1 H1].
    cbn [map fold_result]. rewrite H1. cbn [bind].
    destruct (IH (fst st ++ [o], pr1)) as [pr' H2]. rewrite H2. cbn [fst].
    exists pr'. rewrite <- app_assoc. reflexivity.
Qed.

(** On a general resource frame that is not empty, [match] for a list of
    two or more names is the concatenation of the answers for the single
    names, in the order of the list, with duplicate rows dropped, as the
    docstring says.  The answer is a frame [pd.concat] has built: its field
    prefix is what such a frame reads, not that of the table. *)
Theorem match_resource_list_of_names (df : DataFrame) (prefix : string)
    (n1 n2 : string) (more : list string) (outs : list DataFrame) :
  _fieldPrefix df = Text prefix -> substring 0 2 prefix = "GR" ->
  empty df = false ->
  Forall2 (fun n o => match_ df [SStr n] = Ok o) (n1 :: n2 :: more) outs ->
  match_ df [SList (n1 :: n2 :: more)]
  = Ok (drop_duplicates (concat concat_fieldPrefix df outs)).
Proof.
  intros Hp Hgr Hempty Hall.
  unfold match_. rewrite Hp, (gr_frame_dispatch _ _ _ Hgr).
  cbn [gr_start bind fst snd listMe].
  rewrite Hempty. cbn [negb bind].
  - assert (Hsingle : Forall2 (fun n o => exists pr,
                        gr_name df prefix ([], None) (SStr n) = Ok ([o], pr))
                        (n1 :: n2 :: more) outs).
    { clear -Hall Hp Hgr Hempty. induction Hall as [|n o ns os Hn _ IH]; constructor; [|exact IH].
      unfold match_ in Hn. rewrite Hp, (gr_frame_dispatch _ _ _ Hgr) in Hn.
      cbn [gr_start bind fst snd listMe] in Hn. rewrite Hempty in Hn.
      cbn [negb fold_result] in Hn.
      destruct (gr_name df prefix ([], None) (SStr n)) as [[fs pr]|e] eqn:Hg;
        cbn [bind fst] in Hn; [|discriminate Hn].
      destruct (gr_name_from_any_state _ _ _ _ _ Hg) as [o' [-> _]].
      injection Hn as <-. exists pr. reflexivity. }
    destruct (gr_names_collect _ _ _ _ Hsingle ([], None)) as [pr' Hfold].
    rewrite Hfold. cbn [bind fst app].
    inversion Hall as [|? o1 ? os1 _ Hrest]; subst.
    inversion Hrest as [|? o2 ? os2 _ _]; subst. reflexivity.
Qed.

End ResourceEdges.

Lemma match_resource_without_profile_witness :
  @match_ reference facility [SStr "IRR.LISTUSER"] = Ok (with_rows facility []).
Proof.
  apply (@match_resource_without_profile reference facility "GRBD_" "IRR.LISTUSER"
           ["BPX.*"; "BPX.SUPERUSER"; "BPX.SUPERUSER"]); try reflexivity.
  intros x Hx. simpl in Hx. destruct Hx as [<-|[<-|[<-|[]]]]; reflexivity.
Defined.

Lemma match_on_a_table_without_rows_witness :
  @match_ reference (with_rows datasets []) [SList ["SYS1.PARMLIB"; "USER.DATA"]]
  = Ok (with_rows datasets [])
  /\ @match_ reference (with_rows facility []) [SNone] = Ok (with_rows facility []).
Proof.
  split.
  - apply (proj1 (@match_on_a_table_without_rows reference (with_rows datasets []) "DSBD_"
                    eq_refl eq_refl) eq_refl).
    intros n [<-|[<-|[]]]; simpl; tauto.
  - apply (proj2 (@match_on_a_table_without_rows reference (with_rows facility []) "GRBD_"
                    eq_refl eq_refl) eq_refl).
Defined.

Lemma match_resource_empty_class_witness :
  @match_ reference unclassed [SStr "BPX.SUPERUSER"] = Raise UnboundLocalError.
Proof.
  apply (@match_resource_empty_class reference unclassed "GRBD_" "BPX.SUPERUSER"
           "BPX.SUPERUSER" ["BPX.SUPERUSER"; "BPX.SUPERUSER"] []
           (mkRow [EmptyString; "BPX.SUPERUSER"] [EmptyString; "BPX.SUPERUSER"; "NONE"])
           [ mkRow ["FACILITY"; "BPX.SUPERUSER"] ["FACILITY"; "BPX.SUPERUSER"; "READ"] ]);
    reflexivity.
Defined.

Lemma match_resource_list_of_names_witness :
  @match_ reference facility [SList ["BPX.SUPERUSER"; "BPX.DAEMON"]]
  = Ok (mkFrame (index_names facility) (columns facility)
          [ mkRow ["FACILITY"; "BPX.*"] ["FACILITY"; "BPX.*"; "NONE"];
            mkRow ["XFACILIT"; "BPX.SUPERUSER"] ["XFACILIT"; "BPX.SUPERUSER"; "NONE"] ]
          PyNone).
Proof.
  rewrite (@match_resource_list_of_names reference facility "GRBD_" "BPX.SUPERUSER" "BPX.DAEMON" []
             [ with_rows facility
                 [ mkRow ["FACILITY"; "BPX.*"] ["FACILITY"; "BPX.*"; "NONE"];
                   mkRow ["XFACILIT"; "BPX.SUPERUSER"] ["XFACILIT"; "BPX.SUPERUSER"; "NONE"] ];
               with_rows facility
                 [ mkRow ["FACILITY"; "BPX.*"] ["FACILITY"; "BPX.*"; "NONE"] ] ]).
  - reflexivity.
  - reflexivity.
  - reflexivity.
  - reflexivity.
  - repeat constructor.
Defined.

(** ** Selections one after the other *)

Lemma and_mask_nil_r (a : list bool) : and_mask a [] = [].
Proof. destruct a; reflexivity. Qed.

Lemma and_mask_select (m a b : list bool) :
  and_mask (select_mask m a) (select_mask m b) = select_mask m (and_mask a b).
Proof.
  revert a b. induction m as [|t m IH]; intros a b; [reflexivity|].
  destruct a as [|x a]; [reflexivity|].
  destruct b as [|y b].
  - cbn [and_mask select_mask]. apply and_mask_nil_r.
  - cbn [and_mask select_mask]. destruct t; cbn [and_mask]; rewrite IH; reflexivity.
Qed.

Lemma fold_and_mask_select (m : list bool) (ms : list (list bool)) :
  forall a, fold_left and_mask (map (select_mask m) ms) (select_mask m a)
            = select_mask m (fold_left and_mask ms a).
Proof.
  induction ms as [|x ms IH]; intros a; simpl; [reflexivity|].
  rewrite and_mask_select. apply IH.
Qed.

Lemma and_mask_comm (a b : list bool) : and_mask a b = and_mask b a.
Proof.
  revert b. induction a as [|x a IH]; intros [|y b]; simpl; try reflexivity.
  rewrite IH, andb_comm. reflexivity.
Qed.

Lemma and_mask_idem (a : list bool) : and_mask a a = a.
Proof. induction a as [|x a IH]; simpl; [reflexivity|]. rewrite IH, andb_diag. reflexivity. Qed.

Section Successive.

Context {ext : Collaborators}.

Lemma index_masks_narrowed (df : DataFrame) (m : list bool) (regexPattern : bool)
    (selection : list sel) :
  forall s, index_masks (loc_mask df m) regexPattern s selection
            = (ms <- index_masks df regexPattern s selection ;; Ok (map (select_mask m) ms)).
Proof.
  induction selection as [|v rest IH]; intros s; cbn [index_masks]; [reflexivity|].
  destruct (sel_in v (skipSelect regexPattern)); [apply IH|].
  rewrite index_result_narrowed.
  destruct (index_result df s regexPattern v) as [res|e]; cbn [bind]; [|reflexivity].
  rewrite IH. destruct (index_masks df regexPattern (S s) rest); reflexivity.
Qed.

Lemma column_masks_narrowed (df : DataFrame) (m : list bool) (regexPattern : bool)
    (cs : list (string * sel)) :
  column_masks (loc_mask df m) regexPattern cs
  = (ms <- column_masks df regexPattern cs ;; Ok (map (select_mask m) ms)).
Proof.
  induction cs as [|c rest IH]; cbn [column_masks]; [reflexivity|].
  rewrite column_result_narrowed.
  destruct (column_result df (fst c) regexPattern (snd c)) as [res|e]; cbn [bind];
    [|reflexivity].
  rewrite IH. destruct (column_masks df regexPattern rest); reflexivity.
Qed.

(** Without [match] the keywords look at the columns and the field prefix
    only, and give no mask of their own. *)
Lemma keyword_criteria_narrowed (df : DataFrame) (m : list bool)
    (kwdValues : list (string * string)) (kwds : list (string * sel)) :
  ~ In "match" (map fst kwds) ->
  keyword_criteria kwdValues (loc_mask df m) kwds = keyword_criteria kwdValues df kwds
  /\ forall km, keyword_criteria kwdValues df kwds = Ok km -> fst km = [].
Proof.
  induction kwds as [|kv rest IH]; intros Hno.
  - split; [reflexivity|]. intros km H. injection H as <-. reflexivity.
  - assert (Hhead : String.eqb (fst kv) "match" = false).
    { apply String.eqb_neq. intros E. apply Hno. left. exact E. }
    destruct IH as [IH1 IH2]; [intros E; apply Hno; right; exact E|].
    cbn [keyword_criteria]. unfold keyword_criterion. rewrite Hhead.
    unfold has_prefixed, prefixed.
    change (columns (loc_mask df m)) with (columns df).
    change (_fieldPrefix (loc_mask df m)) with (_fieldPrefix df).
    rewrite IH1. split; [reflexivity|].
    intros km H. apply bind_ok in H as [c [Hc H]]. apply bind_ok in H as [r [Hr H]].
    injection H as <-. specialize (IH2 _ Hr).
    destruct c as [mk|cs]; [|exact IH2].
    destruct (assoc (fst kv) kwdValues); [discriminate Hc|].
    destruct (Py.mem (fst kv) (columns df)); [discriminate Hc|].
    destruct (_fieldPrefix df) as [| |p]; try discriminate Hc.
    cbn [bind] in Hc. destruct (Py.mem (p ++ fst kv) (columns df)); discriminate Hc.
Qed.

Lemma full_table_masks_narrowed (df : DataFrame) (m : list bool) (selection : list sel)
    (kwdValues : list (string * string)) (useIndex regexPattern : bool)
    (kwds : list (string * sel)) :
  ~ In "match" (map fst kwds) ->
  full_table_masks (loc_mask df m) selection kwdValues useIndex regexPattern kwds
  = (ms <- full_table_masks df selection kwdValues useIndex regexPattern kwds ;;
     Ok (map (select_mask m) ms)).
Proof.
  intros Hno. destruct (keyword_criteria_narrowed df m kwdValues kwds Hno) as [Hk Hk0].
  unfold full_table_masks. rewrite Hk.
  change (columns (loc_mask df m)) with (columns df).
  assert (Hpm : (if useIndex then index_masks (loc_mask df m) regexPattern 0 selection else Ok [])
                = (pm <- (if useIndex then index_masks df regexPattern 0 selection else Ok []) ;;
                   Ok (map (select_mask m) pm))).
  { destruct useIndex; [apply index_masks_narrowed | reflexivity]. }
  rewrite Hpm.
  destruct (if useIndex then index_masks df regexPattern 0 selection else Ok []) as [pm|e];
    cbn [bind]; [|reflexivity].
  destruct (if useIndex then Ok [] else positional_columns (columns df) regexPattern 0 selection)
    as [pc|e]; cbn [bind]; [|reflexivity].
  destruct (keyword_criteria kwdValues df kwds) as [km|e] eqn:Hkm; cbn [bind]; [|reflexivity].
  rewrite column_masks_narrowed.
  destruct (column_masks df regexPattern (pc ++ snd km)) as [cm|e]; cbn [bind]; [|reflexivity].
  rewrite (Hk0 _ eq_refl). cbn [app]. rewrite map_app. reflexivity.
Qed.

(** A selection on a table that a mask [m] has narrowed, in terms of the
    whole table. *)
Lemma select_on_a_narrowed_table (df : DataFrame) (m : list bool) (selection : list sel)
    (kwdValues : list (string * string)) (useIndex regexPattern : bool)
    (kwds : list (string * sel)) :
  ~ In "match" (map fst kwds) ->
  _frameFilter (loc_mask df m) selection kwdValues useIndex false regexPattern kwds
  = (ms <- full_table_masks df selection kwdValues useIndex regexPattern kwds ;;
     Ok (loc_mask df (and_mask m (all_of df ms)))).
Proof.
  intros Hno. rewrite frameFilter_normal_form by (right; left; exact Hno).
  rewrite (full_table_masks_narrowed _ _ _ _ _ _ _ Hno).
  destruct (full_table_masks df selection kwdValues useIndex regexPattern kwds) as [ms|e];
    cbn [bind]; [|reflexivity].
  unfold all_of. change (rows (loc_mask df m)) with (select_mask m (rows df)).
  rewrite <- (select_mask_map_comm (fun _ : Row => true)), fold_and_mask_select, loc_mask_twice.
  reflexivity.
Qed.

(** Two selections without the [match] keyword, one on the answer of the
    other, can be made in either order: the second order succeeds when the
    first does, with the same answer. *)
Theorem selections_commute (df d1 d12 : DataFrame)
    (s1 s2 : list sel) (kv1 kv2 : list (string * string)) (ui1 ui2 rp1 rp2 : bool)
    (k1 k2 : list (string * sel)) :
  ~ In "match" (map fst k1) -> ~ In "match" (map fst k2) ->
  _frameFilter df s1 kv1 ui1 false rp1 k1 = Ok d1 ->
  _frameFilter d1 s2 kv2 ui2 false rp2 k2 = Ok d12 ->
  exists d2,
    _frameFilter df s2 kv2 ui2 false rp2 k2 = Ok d2
    /\ _frameFilter d2 s1 kv1 ui1 false rp1 k1 = Ok d12.
Proof.
  intros H1 H2 Hd1 Hd12.
  rewrite frameFilter_normal_form in Hd1 by (right; left; exact H1).
  apply bind_ok in Hd1 as [m1 [Hm1 Hd1]]. injection Hd1 as <-.
  rewrite (select_on_a_narrowed_table _ _ _ _ _ _ _ H2) in Hd12.
  apply bind_ok in Hd12 as [m2 [Hm2 Hd12]]. injection Hd12 as <-.
  exists (loc_mask df (all_of df m2)). split.
  - rewrite frameFilter_normal_form by (right; left; exact H2). rewrite Hm2. reflexivity.
  - rewrite (select_on_a_narrowed_table _ _ _ _ _ _ _ H1), Hm1. cbn [bind].
    rewrite and_mask_comm. reflexivity.
Qed.

(** A selection without the [match] keyword, made again on its own answer,
    returns that answer. *)
Theorem selection_is_idempotent (df d : DataFrame) (selection : list sel)
    (kwdValues : list (string * string)) (useIndex regexPattern : bool)
    (kwds : list (string * sel)) :
  ~ In "match" (map fst kwds) ->
  _frameFilter df selection kwdValues useIndex false regexPattern kwds = Ok d ->
  _frameFilter d selection kwdValues useIndex false regexPattern kwds = Ok d.
Proof.
  intros Hno Hd.
  rewrite frameFilter_normal_form in Hd by (right; left; exact Hno).
  apply bind_ok in Hd as [ms [Hms Hd]]. injection Hd as <-.
  rewrite (select_on_a_narrowed_table _ _ _ _ _ _ _ Hno), Hms. cbn [bind].
  rewrite and_mask_idem. reflexivity.
Qed.

(** After an exclusion, the selection with the same criteria (no [match]
    keyword) finds no row. *)
Theorem nothing_to_select_after_excluding (df d : DataFrame) (selection : list sel)
    (kwdValues : list (string * string)) (useIndex regexPattern : bool)
    (kwds : list (string * sel)) :
  ~ In "match" (map fst kwds) ->
  _frameFilter df selection kwdValues useIndex true regexPattern kwds = Ok d ->
  _frameFilter d selection kwdValues useIndex false regexPattern kwds = Ok (with_rows df []).
Proof.
  intros Hno Hd.
  rewrite frameFilter_normal_form in Hd by (left; reflexivity).
  apply bind_ok in Hd as [ms [Hms Hd]]. injection Hd as <-.
  rewrite (select_on_a_narrowed_table _ _ _ _ _ _ _ Hno), Hms. cbn [bind].
  destruct (all_of_row_wise _ _ _ _ _ _ _ Hms) as [keep Hkeep]. rewrite Hkeep.
  unfold loc_mask. rewrite map_map, and_mask_map, select_mask_map.
  replace (filter (fun x => negb (keep x) && keep x) (rows df)) with (@nil Row); [reflexivity|].
  clear. induction (rows df) as [|r l IH]; simpl; [reflexivity|].
  destruct (keep r); simpl; exact IH.
Qed.

End Successive.

Lemma selections_commute_witness :
  exists d2,
    @_frameFilter reference users [SStr "OPER"] [] true false false [] = Ok d2
    /\ @_frameFilter reference d2 [] [("owner", "USBD_OWNER")] false false false
         [("owner", SStr "IBMUSER")]
       = Ok (with_rows users [ mkRow ["OPER"] ["OPER"; "IBMUSER"; "operator"] ]).
Proof.
  apply (@selections_commute reference users
           (with_rows users [ mkRow ["OPER"] ["OPER"; "IBMUSER"; "operator"];
                              mkRow ["SYSPROG"] ["SYSPROG"; "IBMUSER"; "systems"] ])
           (with_rows users [ mkRow ["OPER"] ["OPER"; "IBMUSER"; "operator"] ])
           [] [SStr "OPER"] [("owner", "USBD_OWNER")] [] false true false false
           [("owner", SStr "IBMUSER")] []).
  - simpl. intros [H|[]]. discriminate H.
  - simpl. intros [].
  - reflexivity.
  - reflexivity.
Defined.

Lemma selection_is_idempotent_witness :
  @_frameFilter reference
     (with_rows users [ mkRow ["OPER"] ["OPER"; "IBMUSER"; "operator"];
                        mkRow ["SYSPROG"] ["SYSPROG"; "IBMUSER"; "systems"] ])
     [SNone; SStr "IBMUSER"] [] false false false [("INSTDATA", SStr "**")]
  = Ok (with_rows users [ mkRow ["OPER"] ["OPER"; "IBMUSER"; "operator"];
                          mkRow ["SYSPROG"] ["SYSPROG"; "IBMUSER"; "systems"] ]).
Proof.
  apply (@selection_is_idempotent reference users).
  - simpl. intros [H|[]]. discriminate H.
  - reflexivity.
Defined.

Lemma nothing_to_select_after_excluding_witness :
  @_frameFilter reference
     (with_rows users [ mkRow ["IBMUSER"] ["IBMUSER"; "SYS1"; EmptyString] ])
     [SNone; SStr "IBMUSER"] [] false false false []
  = Ok (with_rows users []).
Proof.
  apply (@nothing_to_select_after_excluding reference users).
  - simpl. intros [].
  - reflexivity.
Defined.

(** ** The filter with a class and the [match] keyword *)

Section ClassThenMatch.

Context {ext : Collaborators}.

(** [find(class, match=name)] is [match(class, name)]: on a general
    resource frame, when [df.find] of the class label is the index-level
    filter of this file, the filter with the class as its positional value
    and the [match] keyword returns what [match] returns for the class and
    the name, answer or exception. *)
Theorem find_with_match_is_match_with_class (df : DataFrame) (prefix cls : string)
    (kwdValues : list (string * string)) (v : sel) :
  (forall d c, find d c = _frameFilter d [SStr c] [] true false false []) ->
  _fieldPrefix df = Text prefix -> substring 0 2 prefix = "GR" ->
  _frameFilter df [SStr cls] kwdValues true false false [("match", v)]
  = match_ df [SStr cls; v].
Proof.
  intros Hfind Hp Hgr.
  assert (Hsup : forall rs, supports_match (with_rows df rs) = Ok true).
  { intros rs. unfold supports_match. cbn [_fieldPrefix with_rows]. rewrite Hp, Hgr. reflexivity. }
  assert (Hsame : forall start, narrows df start ->
            match_ start [v]
            = (frames <- (if negb (empty start)
                          then st <- fold_result (gr_name start prefix) ([], None) (listMe v) ;;
                               Ok (Some (fst st))
                          else Ok (Some [])) ;;
               match frames with
               | Some [] => Ok (head 0 df)
               | Some [f] => Ok f
               | Some fs => Ok (drop_duplicates (concat concat_fieldPrefix df fs))
               | None => Raise (TypeError msg_match_only)
               end)).
  { intros start [Heq _]. unfold match_. rewrite Heq. cbn [_fieldPrefix with_rows].
    rewrite Hp, (gr_frame_dispatch _ _ _ Hgr). cbn [gr_start bind fst snd].
    rewrite <- Heq.
    destruct (if negb (empty start)
              then st <- fold_result (gr_name start prefix) ([], None) (listMe v) ;;
                   Ok (Some (fst st))
              else Ok (Some [])) as [[[|f [|g fs]]|]|e]; cbn [bind]; try reflexivity.
    rewrite Heq. reflexivity. }
  pose proof (Hfind df cls) as Hf.
  unfold match_. rewrite Hp, (gr_frame_dispatch _ _ _ Hgr).
  cbn [gr_start]. rewrite Hf. clear Hf.
  unfold _frameFilter. cbn [index_loop cur].
  destruct (negb (sel_in (SStr cls) (skipSelect false))).
  - destruct (index_result df 0 false (SStr cls)) as [res|e]; cbn [bind]; [|reflexivity].
    unfold apply_result. cbn [fold_result bind columnSelect cur].
    unfold kwd_step. cbn [fst snd cur].
    change (String.eqb "match" "match") with true. cbn iota.
    unfold loc_mask at 1. rewrite Hsup. cbn [bind].
    rewrite (Hsame _ (narrows_loc_mask df res)).
    destruct (if negb (empty (loc_mask df res))
              then st <- fold_result (gr_name (loc_mask df res) prefix) ([], None) (listMe v) ;;
                   Ok (Some (fst st))
              else Ok (Some [])) as [[[|f [|g fs]]|]|e]; reflexivity.
  - cbn [fold_result bind columnSelect cur].
    unfold kwd_step. cbn [fst snd cur].
    change (String.eqb "match" "match") with true. cbn iota.
    rewrite <- (with_rows_rows df) at 1. rewrite Hsup. cbn [bind].
    rewrite (Hsame _ (narrows_refl df)).
    destruct (if negb (empty df)
              then st <- fold_result (gr_name df prefix) ([], None) (listMe v) ;;
                   Ok (Some (fst st))
              else Ok (Some [])) as [[[|f [|g fs]]|]|e]; reflexivity.
Qed.

End ClassThenMatch.

Lemma find_with_match_is_match_with_class_witness :
  @_frameFilter reference facility [SStr "FACILITY"] [] true false false
     [("match", SStr "BPX.SUPERUSER")]
  = @match_ reference facility [SStr "FACILITY"; SStr "BPX.SUPERUSER"].
Proof.
  apply (@find_with_match_is_match_with_class reference facility "GRBD_" "FACILITY" []
           (SStr "BPX.SUPERUSER")); reflexivity.
Defined.

(** ** Index-level values: bounds and lists *)

Section IndexEdges.

Context {ext : Collaborators}.

(** With [useIndex], a text that is not a skip marker and stands at a
    position the index has no level for makes the call raise [IndexError];
    a list as a positional value makes it raise [AttributeError] (without
    [regexPattern]), at whatever position and whatever the list holds: lists
    are read as lists only when bound to a column. *)
Theorem index_level_errors (df : DataFrame) (s : nat) (rest : list sel)
    (kwdValues : list (string * string)) (exclude : bool) (kwds : list (string * sel)) :
  (forall t regexPattern,
     List.length (index_names df) <= s ->
     sel_in (SStr t) (skipSelect regexPattern) = false ->
     _frameFilter df (repeat SNone s ++ SStr t :: rest) kwdValues true exclude regexPattern kwds
     = Raise IndexError)
  /\ (forall l,
        _frameFilter df (repeat SNone s ++ SList l :: rest) kwdValues true exclude false kwds
        = Raise AttributeError).
Proof.
  split.
  - intros t regexPattern Hlev Hskip. unfold _frameFilter. rewrite index_loop_skip_none.
    cbn [index_loop Nat.add cur]. rewrite Hskip. cbn [negb].
    unfold index_result, get_level_values.
    apply Nat.ltb_ge in Hlev. rewrite Hlev.
    destruct (regexPattern || isPattern (SStr t)); reflexivity.
  - intros l. unfold _frameFilter. rewrite index_loop_skip_none. reflexivity.
Qed.

End IndexEdges.

(** ** Frames whose field prefix holds [None] *)

Section NonePrefix.

Context {ext : Collaborators}.

(** On a frame [m] whose [_fieldPrefix] holds [None], reading the prefix
    fails: [match] raises the [TypeError] of the subscript on [None], so
    does the filter when it reads the [match] keyword, and a keyword that
    is neither an alias nor a column name raises the [TypeError] of the sum
    of [None] and a [str], not the error of the unknown selection filter.
    The last case is met inside one call: in select mode, when [match]
    has answered with such a frame, the keyword that follows is read on
    that answer. *)
Theorem prefix_none_raises (m : DataFrame) (kwdValues : list (string * string))
    (useIndex regexPattern : bool) :
  _fieldPrefix m = PyNone ->
  (forall selection, match_ m selection = Raise (TypeError msg_not_subscriptable))
  /\ (forall exclude v rest,
        _frameFilter m [] kwdValues useIndex exclude regexPattern (("match", v) :: rest)
        = Raise (TypeError msg_not_subscriptable))
  /\ (forall exclude kwd w rest,
        kwd <> "match" -> assoc kwd kwdValues = None -> ~ In kwd (columns m) ->
        _frameFilter m [] kwdValues useIndex exclude regexPattern ((kwd, w) :: rest)
        = Raise (TypeError msg_none_plus_str))
  /\ (forall df v kwd w rest,
        supports_match df = Ok true -> match_ df [v] = Ok m ->
        kwd <> "match" -> assoc kwd kwdValues = None -> ~ In kwd (columns m) ->
        _frameFilter df [] kwdValues useIndex false regexPattern
          (("match", v) :: (kwd, w) :: rest)
        = Raise (TypeError msg_none_plus_str)).
Proof.
  intros Hm.
  assert (Hpos : forall df exclude,
            (if useIndex
             then index_loop regexPattern exclude
                    (mkState df (map (fun _ => true) (rows df)) []) 0 []
             else column_loop regexPattern (mkState df (map (fun _ => true) (rows df)) []) 0 [])
            = Ok (mkState df (map (fun _ => true) (rows df)) [])).
  { intros df exclude. destruct useIndex; reflexivity. }
  assert (Hkwd : forall exclude st kwd w,
            cur st = m -> kwd <> "match" -> assoc kwd kwdValues = None ->
            ~ In kwd (columns m) ->
            kwd_step kwdValues exclude st (kwd, w) = Raise (TypeError msg_none_plus_str)).
  { intros exclude st kwd w Hc Hk Ha Hcol. unfold kwd_step. cbn [fst snd].
    apply String.eqb_neq in Hk. rewrite Hk, Ha, Hc.
    apply mem_not_In in Hcol. rewrite Hcol.
    unfold has_prefixed. rewrite Hm. reflexivity. }
  split; [|split; [|split]].
  - intros selection. unfold match_. rewrite Hm. reflexivity.
  - intros exclude v rest. unfold _frameFilter. rewrite Hpos.
    cbn [bind fold_result]. unfold kwd_step. cbn [fst snd cur].
    change (String.eqb "match" "match") with true. cbn iota.
    unfold supports_match. rewrite Hm. reflexivity.
  - intros exclude kwd w rest Hk Ha Hcol. unfold _frameFilter. rewrite Hpos.
    cbn [bind fold_result]. rewrite Hkwd; [reflexivity | reflexivity | assumption..].
  - intros df v kwd w rest Hs Hmatch Hk Ha Hcol. unfold _frameFilter. rewrite Hpos.
    cbn [bind fold_result].
    assert (Hfirst : kwd_step kwdValues false (mkState df (map (fun _ => true) (rows df)) [])
                       ("match", v)
                     = Ok (mkState m (map (fun _ => true) (rows df)) [])).
    { unfold kwd_step. cbn [fst snd cur locs columnSelect].
      change (String.eqb "match" "match") with true. cbn iota.
      rewrite Hs. cbn [bind]. rewrite Hmatch. reflexivity. }
    rewrite Hfirst. cbn [bind].
    rewrite Hkwd; [reflexivity | reflexivity | assumption..].
Qed.

End NonePrefix.

Lemma prefix_none_raises_witness :
  @_frameFilter reference facility [] [] true false false
     [("match", SList ["BPX.SUPERUSER"; "BPX.DAEMON"]); ("UACC", SStr "NONE")]
  = Raise (TypeError msg_none_plus_str).
Proof.
  apply (proj2 (proj2 (proj2
           (@prefix_none_raises reference
              (mkFrame (index_names facility) (columns facility)
                 [ mkRow ["FACILITY"; "BPX.*"] ["FACILITY"; "BPX.*"; "NONE"];
                   mkRow ["XFACILIT"; "BPX.SUPERUSER"] ["XFACILIT"; "BPX.SUPERUSER"; "NONE"] ]
                 PyNone)
              [] true false eq_refl)))).
  - reflexivity.
  - reflexivity.
  - discriminate.
  - reflexivity.
  - simpl. intros [H|[H|[H|[]]]]; discriminate H.
Defined.
